(** * Cross-cloud replicator: the replication engine, embedded and verified

    A shallow embedding of [src/utils.py], [src/config.py],
    [src/replicator.py] (class [CrossCloudReplicator]) and the replication
    endpoint of [src/app.py].

    - Python [str] is [string]; [bytes] is [list byte]; [int] is [Z];
      [float] (delays, clock readings, durations) is exact rational
      arithmetic [Q], so rounding is abstracted away.
    - Python exceptions are the values of [exn], instances of [Exception];
      what derives from [BaseException] only ([KeyboardInterrupt],
      [SystemExit]) is not modelled.  A computation is a function from the
      current [World] to a [result] and the next [World], so that side
      effects performed before a [raise] are kept.
    - The two storage SDKs (boto3, google-cloud-storage), the wall clock and
      [time.sleep] are the environment: every SDK entry point the engine
      calls is a field of the record [SDK], an arbitrary function of an
      arbitrary environment state.  The readings of [time.time()] are any
      sequence; a statement that needs them not to decrease says so.
      [time.sleep] raises for a negative length and for one beyond what
      it can convert to nanoseconds.
    - A botocore [ClientError] carries its response, in which the
      ['Error'] entry or its ['Code'] may be missing.
    - The body of an S3 object is finite: after finitely many reads it
      ends or fails.
    - [logger] calls have no influence on control flow and are left out. *)

From Stdlib Require Import ZArith QArith Qpower List Bool Lia Sorted.
From Stdlib.Strings Require Import String Ascii Byte.
From Stdlib Require Import DecimalString.
Import ListNotations.

Local Open Scope string_scope.

(* ================================================================== *)
(** ** [src/utils.py]: object names *)

Module Utils.

(** [c in chars], for the character set argument of [str.lstrip]. *)
Fixpoint mem_char (c : ascii) (chars : string) : bool :=
  match chars with
  | EmptyString => false
  | String a rest => Ascii.eqb c a || mem_char c rest
  end.

(** [s.lstrip(chars)]: drop the longest prefix made of characters of
    [chars]. *)
Fixpoint lstrip (chars : string) (s : string) : string :=
  match s with
  | EmptyString => EmptyString
  | String c rest => if mem_char c chars then lstrip chars rest else s
  end.

(** [def sanitize_gcs_object_name(s3_key): return s3_key.lstrip('/')] *)
Definition sanitize_gcs_object_name (s3_key : string) : string :=
  lstrip "/" s3_key.

(** ["/" * n] *)
Fixpoint slashes (n : nat) : string :=
  match n with
  | O => EmptyString
  | S n' => String "/" (slashes n')
  end.

(** [s.startswith("/")] *)
Definition starts_with_slash (s : string) : bool :=
  match s with
  | String c _ => Ascii.eqb c "/"
  | EmptyString => false
  end.

End Utils.

(* ================================================================== *)
(** ** Exceptions ([src/exceptions.py] and the SDKs' error classes) *)

(** What the [response] of a botocore [ClientError] holds under
    ['Error']['Code'].  botocore builds the exception from whatever
    response dictionary it is given (its constructor reads
    [error_response.get('Error', {})]), so the ['Error'] entry, or the
    ['Code'] in it, can be missing. *)
Inductive error_response : Type :=
| NoErrorEntry
| NoCodeEntry
| Code (code : string).

(** Instances of Python's [Exception].  [GoogleCloudError] stands for the
    class and its subclasses; [ClientError] carries its [response];
    [OtherException] is any other subclass of [Exception], named by its
    class.  The last field is [str(e)]. *)
Inductive exn : Type :=
| ClientError (response : error_response) (msg : string)
| NoCredentialsError (msg : string)
| GoogleCloudError (msg : string)
| ReplicationError (msg : string)
| S3DownloadError (msg : string)
| GCSUploadError (msg : string)
| ValueError (msg : string)
| TypeError (msg : string)
| OtherException (cls msg : string).

(** [str(e)] *)
Definition str (e : exn) : string :=
  match e with
  | ClientError _ m | NoCredentialsError m | GoogleCloudError m
  | ReplicationError m | S3DownloadError m | GCSUploadError m
  | ValueError m | TypeError m | OtherException _ m => m
  end.

(** [isinstance(e, C)] for the classes named in [except] clauses. *)
Definition is_ClientError (e : exn) : bool :=
  match e with ClientError _ _ => true | _ => false end.

Definition is_NoCredentialsError (e : exn) : bool :=
  match e with NoCredentialsError _ => true | _ => false end.

Definition is_GoogleCloudError (e : exn) : bool :=
  match e with GoogleCloudError _ => true | _ => false end.

(** [except (S3DownloadError, GCSUploadError)] *)
Definition is_S3DownloadError_or_GCSUploadError (e : exn) : bool :=
  match e with S3DownloadError _ | GCSUploadError _ => true | _ => false end.

(** [except Exception] *)
Definition is_Exception (e : exn) : bool := true.

(** [KeyError(key)]; its [str] is the [repr] of the key. *)
Definition KeyError (key : string) : exn :=
  OtherException "KeyError" ("'" ++ key ++ "'").

(** [OverflowError(message)] *)
Definition OverflowError (message : string) : exn :=
  OtherException "OverflowError" message.

Inductive result (A : Type) : Type :=
| Ok (a : A)
| Raise (e : exn).
Arguments Ok {A} a.
Arguments Raise {A} e.

(** [e.response['Error']['Code']]: a missing key raises [KeyError].  The
    source evaluates it for a [ClientError] only; any other exception has
    no [response]. *)
Definition error_code (e : exn) : result string :=
  match e with
  | ClientError (Code code) _ => Ok code
  | ClientError NoCodeEntry _ => Raise (KeyError "Code")
  | ClientError NoErrorEntry _ => Raise (KeyError "Error")
  | _ => Raise (OtherException "AttributeError"
                               "object has no attribute 'response'")
  end.

(* ================================================================== *)
(** ** [src/config.py] *)

Record Config : Type := {
  aws_access_key_id : string;
  aws_secret_access_key : string;
  aws_region : string;
  gcp_credentials_path : option string;
  gcp_project_id : string;
  target_gcs_bucket : string;
  host : string;
  port : Z;
  debug : bool;
  max_retries : Z;
  retry_delay : Q;
  retry_backoff : Q;
  chunk_size : Z
}.

(** [Config(aws_access_key_id=k, aws_secret_access_key=s,
    target_gcs_bucket=b)] with the dataclass defaults. *)
Definition default_Config (k s b : string) : Config := {|
  aws_access_key_id := k;
  aws_secret_access_key := s;
  aws_region := "us-east-1";
  gcp_credentials_path := None;
  gcp_project_id := "";
  target_gcs_bucket := b;
  host := "0.0.0.0";
  port := 8080;
  debug := false;
  max_retries := 3;
  retry_delay := 1;
  retry_backoff := 2;
  chunk_size := 8192
|}.

(* ================================================================== *)
(** ** Values the engine handles *)

(** [io.BytesIO]: the buffer and the stream position. *)
Record BytesIO : Type := {
  buffer : list byte;
  position : nat
}.

(** [io.BytesIO()] *)
Definition BytesIO_new : BytesIO := {| buffer := []; position := 0 |}.

(** [stream.write(chunk)]: overwrite from the position on, extending the
    buffer, and advance the position. *)
Definition BytesIO_write (stream : BytesIO) (chunk : list byte) : BytesIO :=
  {| buffer := (firstn (position stream) (buffer stream) ++ chunk
                ++ skipn (position stream + List.length chunk) (buffer stream))%list;
     position := position stream + List.length chunk |}.

(** [stream.seek(pos)] *)
Definition BytesIO_seek (stream : BytesIO) (pos : nat) : BytesIO :=
  {| buffer := buffer stream; position := pos |}.

(** What a reader of the stream gets: the bytes from the position on. *)
Definition BytesIO_read (stream : BytesIO) : list byte :=
  skipn (position stream) (buffer stream).

(** [stream.getbuffer().nbytes] *)
Definition nbytes (stream : BytesIO) : Z :=
  Z.of_nat (List.length (buffer stream)).

(** The [Body] of a [get_object] response, as the engine sees it: a finite
    object whose [read(amt)] either reports end of stream ([b""]), raises,
    or returns a chunk (chosen by the SDK, given [amt]) and goes on. *)
Inductive StreamingBody : Type :=
| EndOfStream
| ReadError (e : exn)
| Data (chunk : Z -> list byte) (rest : Z -> StreamingBody).

(** Values stored in the outcome dictionary. *)
Inductive value : Type :=
| VStr (s : string)
| VInt (z : Z)
| VFloat (q : Q).

(** A [dict] literal with string keys, in insertion order. *)
Definition dict : Type := list (string * value).

(** [d.get(key)]; [None] when the key is absent. *)
Fixpoint dict_get (key : string) (d : dict) : option value :=
  match d with
  | [] => None
  | (k, v) :: rest => if String.eqb key k then Some v else dict_get key rest
  end.

(** [key in d] *)
Definition dict_has (key : string) (d : dict) : bool :=
  match dict_get key d with Some _ => true | None => false end.

(** [str(int(t))]: truncation toward zero, then decimal digits. *)
Definition str_int (t : Q) : string :=
  NilZero.string_of_int (Z.to_int (Z.quot (Qnum t) (Zpos (Qden t)))).

(** [range(n)] *)
Definition range (n : Z) : list Z := map Z.of_nat (seq 0 (Z.to_nat n)).

(* ================================================================== *)
(** ** The environment and the state of a call *)

(** What the engine is observed to do: each call that the wrapper of
    [retry_with_backoff] makes of the function it decorates (by its
    [__name__]), each [time.sleep], and each request to an SDK entry point
    with its arguments.  [Invoke] is not something the source logs: it is
    recorded so that attempts can be counted. *)
Inductive event : Type :=
| Invoke (fname : string)
| Sleep (d : Q)
| Boto3Client
| StorageClient
| ClientBucket (name : string)
| BlobExists (object_name : string)
| HeadObject (bucket key : string)
| GetObject (bucket key : string)
| UploadFromFile (object_name : string)
                 (metadata : option (list (string * string)))
                 (data : list byte).

(** Client handles are opaque tokens: every request goes to the
    environment state. *)
Inductive S3Client : Type := MkS3Client.
Inductive GCSClient : Type := MkGCSClient.
Inductive Bucket : Type := MkBucket.

(** The SDK entry points the engine calls, over an environment state [E].
    [clock n] is the [n]-th reading of [time.time()]; [slept d] is what
    sleeping [d] seconds does to the environment. *)
Record SDK (E : Type) : Type := {
  boto3_client : string -> string -> string -> E -> result S3Client * E;
  storage_Client : string -> E -> result GCSClient * E;
  client_bucket : string -> E -> result Bucket * E;
  blob_exists : string -> E -> result bool * E;
  head_object : string -> string -> E -> result Z * E;
  get_object : string -> string -> E -> result StreamingBody * E;
  upload_from_file : string -> option (list (string * string)) -> list byte
                     -> E -> result unit * E;
  clock : nat -> Q;
  slept : Q -> E -> E
}.
Arguments boto3_client {E} _ _ _ _ _.
Arguments storage_Client {E} _ _ _.
Arguments client_bucket {E} _ _ _.
Arguments blob_exists {E} _ _ _.
Arguments head_object {E} _ _ _ _.
Arguments get_object {E} _ _ _ _.
Arguments upload_from_file {E} _ _ _ _ _.
Arguments clock {E} _ _.
Arguments slept {E} _ _ _.

(** [class CrossCloudReplicator]: the fields set by [__init__]. *)
Record CrossCloudReplicator : Type := {
  config : Config;
  _s3_client : option S3Client;
  _gcs_client : option GCSClient;
  _target_bucket : option Bucket
}.

(** [CrossCloudReplicator(config)] *)
Definition new_replicator (cfg : Config) : CrossCloudReplicator :=
  {| config := cfg; _s3_client := None; _gcs_client := None;
     _target_bucket := None |}.

(** The state a call runs in: the replicator object, the state of the
    environment, the number of clock readings taken, and the events
    recorded so far, oldest first. *)
Record World (E : Type) : Type := {
  self : CrossCloudReplicator;
  env : E;
  ticks : nat;
  trace : list event
}.
Arguments self {E} _.
Arguments env {E} _.
Arguments ticks {E} _.
Arguments trace {E} _.

Definition initial_world {E : Type} (cfg : Config) (s : E) : World E :=
  {| self := new_replicator cfg; env := s; ticks := 0; trace := [] |}.

Definition log {E : Type} (ev : event) (w : World E) : World E :=
  {| self := self w; env := env w; ticks := ticks w;
     trace := (trace w ++ [ev])%list |}.

Definition set_env {E : Type} (s : E) (w : World E) : World E :=
  {| self := self w; env := s; ticks := ticks w; trace := trace w |}.

Definition set_self {E : Type} (r : CrossCloudReplicator) (w : World E)
  : World E :=
  {| self := r; env := env w; ticks := ticks w; trace := trace w |}.

Definition tick {E : Type} (w : World E) : World E :=
  {| self := self w; env := env w; ticks := S (ticks w);
     trace := trace w |}.

(* ================================================================== *)
(** ** Computations that may raise *)

Definition M (E A : Type) : Type := World E -> result A * World E.

Definition ret {E A : Type} (a : A) : M E A := fun w => (Ok a, w).

Definition raise {E A : Type} (e : exn) : M E A := fun w => (Raise e, w).

Definition bind {E A B : Type} (m : M E A) (k : A -> M E B) : M E B :=
  fun w =>
    match m w with
    | (Ok a, w') => k a w'
    | (Raise e, w') => (Raise e, w')
    end.

Notation "x <- m ;; k" := (bind m (fun x => k))
  (at level 61, m at next level, right associativity).

(** One [except C as e: ...] clause: the class test and the handler. *)
Definition clause (E A : Type) : Type := ((exn -> bool) * (exn -> M E A))%type.

(** The first clause whose class matches handles the exception; when none
    does, it propagates. *)
Fixpoint dispatch {E A : Type} (clauses : list (clause E A)) (e : exn)
  : M E A :=
  match clauses with
  | [] => raise e
  | (isinstance, handler) :: others =>
      if isinstance e then handler e else dispatch others e
  end.

(** [try: body  except ...: ...] *)
Definition try_except {E A : Type} (body : M E A) (clauses : list (clause E A))
  : M E A :=
  fun w =>
    match body w with
    | (Ok a, w') => (Ok a, w')
    | (Raise e, w') => dispatch clauses e w'
    end.

(** A result computed without touching the world. *)
Definition lift {E A : Type} (r : result A) : M E A := fun w => (r, w).

(** A request to the environment, recorded in the trace. *)
Definition request {E A : Type} (ev : event) (op : E -> result A * E)
  : M E A :=
  fun w =>
    let w1 := log ev w in
    let (r, s') := op (env w1) in (r, set_env s' w1).

(** A call of the function named [fname], recorded in the trace. *)
Definition call {E A : Type} (fname : string) (func : M E A) : M E A :=
  fun w => func (log (Invoke fname) w).

(* ================================================================== *)
(** ** [src/utils.py]: [retry_with_backoff] and the clock *)

(** The longest sleep [time.sleep] accepts, in seconds: [2^63 - 1]
    nanoseconds, the range of the C type [_PyTime_t] (about 292 years).
    The rounding of the conversion at the bound itself is abstracted
    away. *)
Definition sleep_limit : Q := 9223372036854775807 # 1000000000.

Section Engine.

Variable E : Type.
Variable sdk : SDK E.

(** [time.time()] *)
Definition time_time : M E Q :=
  fun w => (Ok (clock sdk (ticks w)), tick w).

(** The world after [d] seconds of sleep. *)
Definition after_sleep (d : Q) (w : World E) : World E :=
  set_env (slept sdk d (env w)) (log (Sleep d) w).

(** [time.sleep(d)].  CPython first converts [d] to a signed 64-bit count
    of nanoseconds, which raises [OverflowError] for a length beyond
    [sleep_limit] in either direction, and then refuses a negative length
    with [ValueError]. *)
Definition time_sleep (d : Q) : M E unit :=
  if negb (Qle_bool (- sleep_limit) d && Qle_bool d sleep_limit)
  then raise (OverflowError "timestamp too large to convert to C _PyTime_t")
  else if Qle_bool 0 d
       then fun w => (Ok tt, after_sleep d w)
       else raise (ValueError "sleep length must be non-negative").

(** [raise last_exception]; raising [None] is a [TypeError]. *)
Definition raise_last {A : Type} (last_exception : option exn) : M E A :=
  match last_exception with
  | Some e => raise e
  | None => raise (TypeError "exceptions must derive from BaseException")
  end.

Section Retry.

Variable max_retries : Z.
Variables delay backoff : Q.
Variable A : Type.
Variable fname : string.
Variable func : M E A.

(** The [for attempt in range(max_retries + 1)] loop of [wrapper], on the
    attempts still to run, followed by the [raise last_exception] after
    it.  [break] leaves the loop for that [raise]. *)
Fixpoint retry_for (attempts : list Z) (current_delay : Q)
         (last_exception : option exn) : M E A :=
  match attempts with
  | [] => raise_last last_exception
  | attempt :: later =>
      fun w =>
        match call fname func w with
        | (Ok a, w') => (Ok a, w')
        | (Raise e, w') =>
            if (attempt =? max_retries)%Z
            then raise_last (Some e) w'
            else
              match time_sleep current_delay w' with
              | (Ok _, w'') =>
                  retry_for later (current_delay * backoff)%Q (Some e) w''
              | (Raise e', w'') => (Raise e', w'')
              end
        end
  end.

(** [retry_with_backoff(max_retries, delay, backoff)(func)] *)
Definition retry_with_backoff : M E A :=
  retry_for (range (max_retries + 1)) delay None.

End Retry.

Arguments retry_for max_retries backoff {A} fname func attempts current_delay
  last_exception.
Arguments retry_with_backoff max_retries delay backoff {A} fname func.

(* ================================================================== *)
(** ** [src/replicator.py] *)

Definition get_self : M E CrossCloudReplicator := fun w => (Ok (self w), w).

(** [self._s3_client = c] *)
Definition assign_s3_client (c : S3Client) : M E unit :=
  fun w =>
    (Ok tt,
     set_self {| config := config (self w);
                 _s3_client := Some c;
                 _gcs_client := _gcs_client (self w);
                 _target_bucket := _target_bucket (self w) |} w).

(** [self._gcs_client = c] *)
Definition assign_gcs_client (c : GCSClient) : M E unit :=
  fun w =>
    (Ok tt,
     set_self {| config := config (self w);
                 _s3_client := _s3_client (self w);
                 _gcs_client := Some c;
                 _target_bucket := _target_bucket (self w) |} w).

(** [self._target_bucket = b] *)
Definition assign_target_bucket (b : Bucket) : M E unit :=
  fun w =>
    (Ok tt,
     set_self {| config := config (self w);
                 _s3_client := _s3_client (self w);
                 _gcs_client := _gcs_client (self w);
                 _target_bucket := Some b |} w).

(** [@property s3_client] *)
Definition s3_client : M E S3Client :=
  this <- get_self ;;
  match _s3_client this with
  | None =>
      try_except
        (c <- request Boto3Client
                (boto3_client sdk (aws_access_key_id (config this))
                              (aws_secret_access_key (config this))
                              (aws_region (config this))) ;;
         _ <- assign_s3_client c ;;
         ret c)
        [ (is_NoCredentialsError,
           fun e => raise (ReplicationError
                             ("AWS credentials not configured: " ++ str e))) ]
  | Some c => ret c
  end.

(** [@property gcs_client] *)
Definition gcs_client : M E GCSClient :=
  this <- get_self ;;
  match _gcs_client this with
  | None =>
      try_except
        (c <- request StorageClient
                (storage_Client sdk (gcp_project_id (config this))) ;;
         _ <- assign_gcs_client c ;;
         ret c)
        [ (is_Exception,
           fun e => raise (ReplicationError
                             ("GCS client initialization failed: " ++ str e))) ]
  | Some c => ret c
  end.

(** [@property target_bucket] *)
Definition target_bucket : M E Bucket :=
  this <- get_self ;;
  match _target_bucket this with
  | None =>
      try_except
        (_ <- gcs_client ;;
         b <- request (ClientBucket (target_gcs_bucket (config this)))
                (client_bucket sdk (target_gcs_bucket (config this))) ;;
         _ <- assign_target_bucket b ;;
         ret b)
        [ (is_Exception,
           fun e => raise (ReplicationError
                             ("Failed to access target GCS bucket: " ++ str e))) ]
  | Some b => ret b
  end.

(** [_check_file_exists_in_gcs(self, object_name)] *)
Definition _check_file_exists_in_gcs (object_name : string) : M E bool :=
  try_except
    (_ <- target_bucket ;;
     request (BlobExists object_name) (blob_exists sdk object_name))
    [ (is_GoogleCloudError, fun e => ret false) ].

(** The [while True] loop of [_download_from_s3]: read chunks into the
    stream until an empty one. *)
Fixpoint read_chunks (chunk_size : Z) (body : StreamingBody)
         (stream : BytesIO) : result BytesIO :=
  match body with
  | EndOfStream => Ok stream
  | ReadError e => Raise e
  | Data chunk rest =>
      match chunk chunk_size with
      | [] => Ok stream
      | (_ :: _) as c =>
          read_chunks chunk_size (rest chunk_size) (BytesIO_write stream c)
      end
  end.

(** The body of [_download_from_s3], before decoration. *)
Definition _download_from_s3_wrapped (bucket key : string) : M E BytesIO :=
  try_except
    (_ <- s3_client ;;
     file_size <- request (HeadObject bucket key) (head_object sdk bucket key) ;;
     _ <- s3_client ;;
     body <- request (GetObject bucket key) (get_object sdk bucket key) ;;
     this <- get_self ;;
     stream <- lift (read_chunks (chunk_size (config this)) body BytesIO_new) ;;
     ret (BytesIO_seek stream 0))
    [ (is_ClientError,
       fun e =>
         code <- lift (error_code e) ;;
         if String.eqb code "NoSuchKey"
         then raise (S3DownloadError
                       ("File not found: s3://" ++ bucket ++ "/" ++ key))
         else if String.eqb code "NoSuchBucket"
         then raise (S3DownloadError ("Bucket not found: " ++ bucket))
         else raise (S3DownloadError ("S3 download failed: " ++ str e)));
      (is_Exception,
       fun e => raise (S3DownloadError
                         ("Unexpected error during S3 download: " ++ str e))) ].

(** [@retry_with_backoff(max_retries=3, delay=1.0, backoff=2.0)
    def _download_from_s3(self, bucket, key)] *)
Definition _download_from_s3 (bucket key : string) : M E BytesIO :=
  retry_with_backoff 3 1 2 "_download_from_s3"
    (_download_from_s3_wrapped bucket key).

(** [if metadata:]: [None] and the empty dict are false. *)
Definition truthy (metadata : option (list (string * string))) : bool :=
  match metadata with
  | Some (_ :: _) => true
  | _ => false
  end.

(** The body of [_upload_to_gcs], before decoration. *)
Definition _upload_to_gcs_wrapped (stream : BytesIO) (object_name : string)
           (metadata : option (list (string * string))) : M E unit :=
  try_except
    (_ <- target_bucket ;;
     let blob_metadata := if truthy metadata then metadata else None in
     let stream0 := BytesIO_seek stream 0 in
     request (UploadFromFile object_name blob_metadata (BytesIO_read stream0))
       (upload_from_file sdk object_name blob_metadata (BytesIO_read stream0)))
    [ (is_GoogleCloudError,
       fun e => raise (GCSUploadError ("GCS upload failed: " ++ str e)));
      (is_Exception,
       fun e => raise (GCSUploadError
                         ("Unexpected error during GCS upload: " ++ str e))) ].

(** [@retry_with_backoff(max_retries=3, delay=1.0, backoff=2.0)
    def _upload_to_gcs(self, stream, object_name, metadata=None)] *)
Definition _upload_to_gcs (stream : BytesIO) (object_name : string)
           (metadata : option (list (string * string))) : M E unit :=
  retry_with_backoff 3 1 2 "_upload_to_gcs"
    (_upload_to_gcs_wrapped stream object_name metadata).

(** [replicate(self, s3_bucket, s3_key)] *)
Definition replicate (s3_bucket s3_key : string) : M E dict :=
  start_time <- time_time ;;
  let object_name := Utils.sanitize_gcs_object_name s3_key in
  this <- get_self ;;
  let source := "s3://" ++ s3_bucket ++ "/" ++ s3_key in
  let destination :=
    "gs://" ++ target_gcs_bucket (config this) ++ "/" ++ object_name in
  try_except
    (found <- _check_file_exists_in_gcs object_name ;;
     if found : bool then
       now <- time_time ;;
       ret [ ("status", VStr "skipped");
             ("reason", VStr "file_already_exists");
             ("source", VStr source);
             ("destination", VStr destination);
             ("duration_seconds", VFloat (now - start_time)) ]
     else
       stream <- _download_from_s3 s3_bucket s3_key ;;
       stamp <- time_time ;;
       let metadata :=
         [ ("source_bucket", s3_bucket);
           ("source_key", s3_key);
           ("replication_timestamp", str_int stamp);
           ("replicator_version", "1.0.0") ] in
       _ <- _upload_to_gcs stream object_name (Some metadata) ;;
       now <- time_time ;;
       let duration := (now - start_time)%Q in
       ret [ ("status", VStr "success");
             ("source", VStr source);
             ("destination", VStr destination);
             ("duration_seconds", VFloat duration);
             ("size_bytes", VInt (nbytes stream)) ])
    [ (is_S3DownloadError_or_GCSUploadError,
       fun e =>
         now <- time_time ;;
         ret [ ("status", VStr "failed");
               ("error", VStr (str e));
               ("source", VStr source);
               ("destination", VStr destination);
               ("duration_seconds", VFloat (now - start_time)) ]);
      (is_Exception,
       fun e =>
         now <- time_time ;;
         ret [ ("status", VStr "failed");
               ("error", VStr ("Unexpected error: " ++ str e));
               ("source", VStr source);
               ("destination", VStr destination);
               ("duration_seconds", VFloat (now - start_time)) ]) ].

End Engine.

Arguments time_time {E} sdk _.
Arguments after_sleep {E} sdk d w.
Arguments time_sleep {E} sdk d _.
Arguments raise_last {E A} last_exception _.
Arguments retry_for {E} sdk max_retries backoff {A} fname func attempts
  current_delay last_exception _.
Arguments retry_with_backoff {E} sdk max_retries delay backoff {A} fname func _.
Arguments get_self {E} _.
Arguments assign_s3_client {E} c _.
Arguments assign_gcs_client {E} c _.
Arguments assign_target_bucket {E} b _.
Arguments s3_client {E} sdk _.
Arguments gcs_client {E} sdk _.
Arguments target_bucket {E} sdk _.
Arguments _check_file_exists_in_gcs {E} sdk object_name _.
Arguments _download_from_s3_wrapped {E} sdk bucket key _.
Arguments _download_from_s3 {E} sdk bucket key _.
Arguments _upload_to_gcs_wrapped {E} sdk stream object_name metadata _.
Arguments _upload_to_gcs {E} sdk stream object_name metadata _.
Arguments replicate {E} sdk s3_bucket s3_key _.

(* ================================================================== *)
(** ** Observations on traces and outcomes *)

(** The events recorded between world [w] and a later world [w']. *)
Definition new_events {E : Type} (w w' : World E) : list event :=
  skipn (List.length (trace w)) (trace w').

(** The delays slept, in order. *)
Fixpoint sleeps (evs : list event) : list Q :=
  match evs with
  | [] => []
  | Sleep d :: rest => d :: sleeps rest
  | _ :: rest => sleeps rest
  end.

(** How many times the decorated function [fname] was called. *)
Fixpoint invocations (fname : string) (evs : list event) : nat :=
  match evs with
  | [] => 0
  | Invoke f :: rest =>
      (if String.eqb f fname then 1 else 0) + invocations fname rest
  | _ :: rest => invocations fname rest
  end.

(** Events of a fetch: a call of [_download_from_s3] or a request to the
    source store. *)
Definition is_fetch_event (ev : event) : bool :=
  match ev with
  | Invoke f => String.eqb f "_download_from_s3"
  | Boto3Client | HeadObject _ _ | GetObject _ _ => true
  | _ => false
  end.

(** Events of a write: a call of [_upload_to_gcs] or an upload request. *)
Definition is_write_event (ev : event) : bool :=
  match ev with
  | Invoke f => String.eqb f "_upload_to_gcs"
  | UploadFromFile _ _ _ => true
  | _ => false
  end.

Definition is_sleep (ev : event) : bool :=
  match ev with
  | Sleep _ => true
  | _ => false
  end.

(** Events that only requests to the stores produce: neither a sleep nor
    a call of a decorated function. *)
Definition is_request_event (ev : event) : bool :=
  match ev with
  | Invoke _ | Sleep _ => false
  | _ => true
  end.

(** Events of the existence check: requests to the destination store. *)
Definition check_event (ev : event) : bool :=
  match ev with
  | StorageClient | ClientBucket _ | BlobExists _ => true
  | _ => false
  end.

(** Requests that name the objects of a replication of
    ([s3_bucket], [s3_key]): the source object under its key, the
    destination object under the derived name. *)
Definition addressed_to (s3_bucket s3_key : string) (ev : event) : bool :=
  match ev with
  | BlobExists name | UploadFromFile name _ _ =>
      String.eqb name (Utils.sanitize_gcs_object_name s3_key)
  | HeadObject bucket key | GetObject bucket key =>
      String.eqb bucket s3_bucket && String.eqb key s3_key
  | _ => true
  end.

(** The upload requests sent, as (object name, data). *)
Fixpoint uploads (evs : list event) : list (string * list byte) :=
  match evs with
  | [] => []
  | UploadFromFile name _ data :: rest => (name, data) :: uploads rest
  | _ :: rest => uploads rest
  end.

(** [outcome["status"]], and so on for the three optional fields. *)
Definition status (o : dict) : option value := dict_get "status" o.

(** The three dictionaries [replicate] returns. *)
Definition skipped_outcome (source destination : string) (duration : Q)
  : dict :=
  [ ("status", VStr "skipped");
    ("reason", VStr "file_already_exists");
    ("source", VStr source);
    ("destination", VStr destination);
    ("duration_seconds", VFloat duration) ].

Definition success_outcome (source destination : string) (duration : Q)
           (size : Z) : dict :=
  [ ("status", VStr "success");
    ("source", VStr source);
    ("destination", VStr destination);
    ("duration_seconds", VFloat duration);
    ("size_bytes", VInt size) ].

Definition failed_outcome (error source destination : string) (duration : Q)
  : dict :=
  [ ("status", VStr "failed");
    ("error", VStr error);
    ("source", VStr source);
    ("destination", VStr destination);
    ("duration_seconds", VFloat duration) ].

(** The shape of an outcome: one of the three dictionaries. *)
Inductive outcome_shape : dict -> Prop :=
| shape_skipped : forall src dst d, outcome_shape (skipped_outcome src dst d)
| shape_success : forall src dst d n,
    outcome_shape (success_outcome src dst d n)
| shape_failed : forall err src dst d,
    outcome_shape (failed_outcome err src dst d).

(** The [error] text chosen by the two [except] clauses of [replicate]. *)
Definition error_text (e : exn) : string :=
  if is_S3DownloadError_or_GCSUploadError e
  then str e
  else "Unexpected error: " ++ str e.

(** [f"s3://{s3_bucket}/{s3_key}"] and
    [f"gs://{self.config.target_gcs_bucket}/{object_name}"] *)
Definition source_uri (s3_bucket s3_key : string) : string :=
  "s3://" ++ s3_bucket ++ "/" ++ s3_key.

Definition destination_uri (cfg : Config) (s3_key : string) : string :=
  "gs://" ++ target_gcs_bucket cfg ++ "/"
    ++ Utils.sanitize_gcs_object_name s3_key.

(** The metadata dictionary [replicate] attaches to the upload. *)
Definition transfer_metadata (s3_bucket s3_key : string) (stamp : Q)
  : list (string * string) :=
  [ ("source_bucket", s3_bucket);
    ("source_key", s3_key);
    ("replication_timestamp", str_int stamp);
    ("replicator_version", "1.0.0") ].

(** The delay schedule of the backoff executor: [n] delays
    [d, d*m, d*m^2, ...]. *)
Definition schedule (d m : Q) (n : nat) : list Q :=
  map (fun i => (d * m ^ Z.of_nat i)%Q) (seq 0 n).

(** A function that fails wherever it is called. *)
Definition always_fails {E A : Type} (func : M E A) : Prop :=
  forall w, exists e w', func w = (Raise e, w').

(** World [w'] is [w] with more events, all of them satisfying [allowed]. *)
Definition extends {E : Type} (allowed : event -> bool) (w w' : World E)
  : Prop :=
  exists evs, trace w' = (trace w ++ evs)%list /\ forallb allowed evs = true.

(** Every run of [m] relates the world before to the world after by [R]. *)
Definition respects {E A : Type} (R : World E -> World E -> Prop) (m : M E A)
  : Prop :=
  forall w r w', m w = (r, w') -> R w w'.

(** A function that records requests only. *)
Definition only_requests {E A : Type} (func : M E A) : Prop :=
  respects (extends is_request_event) func.

(** What no run undoes: the clock readings taken, the configuration, and
    a cached destination bucket handle. *)
Definition frame {E : Type} (w w' : World E) : Prop :=
  (ticks w <= ticks w')%nat
  /\ config (self w') = config (self w)
  /\ (_target_bucket (self w) <> None -> _target_bucket (self w') <> None).

(** [frame], and a trace that only grew. *)
Definition later_than {E : Type} (w w' : World E) : Prop :=
  frame w w' /\ extends (fun _ => true) w w'.

(** The bytes a body delivers to a reader asking for [amt] at a time: its
    chunks up to the first empty one. *)
Fixpoint streamed (amt : Z) (body : StreamingBody) : list byte :=
  match body with
  | EndOfStream => []
  | ReadError _ => []
  | Data chunk rest =>
      match chunk amt with
      | [] => []
      | (_ :: _) as c => (c ++ streamed amt (rest amt))%list
      end
  end.

(** [read(amt)] on a body holding [content]: all of it for a negative
    [amt], at most [amt] bytes otherwise. *)
Definition take_amt (amt : Z) (content : list byte) : list byte :=
  if (amt <? 0)%Z then content else firstn (Z.to_nat amt) content.

Definition drop_amt (amt : Z) (content : list byte) : list byte :=
  if (amt <? 0)%Z then [] else skipn (Z.to_nat amt) content.

(** The body of an object holding [content], read to its end without
    error. *)
Fixpoint body_with (reads : nat) (content : list byte) : StreamingBody :=
  match reads with
  | O => EndOfStream
  | S reads' =>
      Data (fun amt => take_amt amt content)
           (fun amt => body_with reads' (drop_amt amt content))
  end.

Definition body_of_bytes (content : list byte) : StreamingBody :=
  body_with (List.length content) content.

(** A clock that never goes back. *)
Definition monotone_clock {E : Type} (sdk : SDK E) : Prop :=
  forall i j, (i <= j)%nat -> (clock sdk i <= clock sdk j)%Q.

(* ================================================================== *)
(** ** A scripted environment for examples

    The state counts the [head_object] requests served.  The existence
    query answers [found]; [head_object] fails on its first [failures]
    requests; the object holds [content]; the upload answers [written];
    the clock shows one more second at each reading. *)
Definition scripted (found : result bool) (failures : nat)
           (content : list byte) (written : result unit) : SDK nat := {|
  boto3_client := fun _ _ _ n => (Ok MkS3Client, n);
  storage_Client := fun _ n => (Ok MkGCSClient, n);
  client_bucket := fun _ n => (Ok MkBucket, n);
  blob_exists := fun _ n => (found, n);
  head_object := fun _ _ n =>
    (if Nat.ltb n failures
     then Raise (ClientError (Code "SlowDown")
                             "Please reduce your request rate.")
     else Ok (Z.of_nat (List.length content)), S n);
  get_object := fun _ _ n => (Ok (body_of_bytes content), n);
  upload_from_file := fun _ _ _ n => (written, n);
  clock := fun i => inject_Z (Z.of_nat i);
  slept := fun _ n => n
|}.

(** An environment in which the destination client cannot be built. *)
Definition no_gcs_credentials : SDK nat := {|
  boto3_client := fun _ _ _ n => (Ok MkS3Client, n);
  storage_Client := fun _ n =>
    (Raise (OtherException "DefaultCredentialsError"
                           "could not determine credentials"), n);
  client_bucket := fun _ n => (Ok MkBucket, n);
  blob_exists := fun _ n => (Ok false, n);
  head_object := fun _ _ n => (Ok 0%Z, n);
  get_object := fun _ _ n => (Ok EndOfStream, n);
  upload_from_file := fun _ _ _ n => (Ok tt, n);
  clock := fun i => inject_Z (Z.of_nat i);
  slept := fun _ n => n
|}.

Definition test_config : Config :=
  default_Config "test_key" "test_secret" "test-bucket".

Definition example_world : World nat := initial_world test_config 0%nat.

Definition example_bytes : list byte := ["d"%byte; "a"%byte; "t"%byte; "a"%byte].

(** The destination object is present. *)
Definition present_sdk : SDK nat :=
  scripted (Ok true) 0 example_bytes (Ok tt).

(** The destination object is absent and every request succeeds. *)
Definition absent_sdk : SDK nat :=
  scripted (Ok false) 0 example_bytes (Ok tt).

(** The existence query meets a transport error, which is not a
    [GoogleCloudError]. *)
Definition unreachable_sdk : SDK nat :=
  scripted (Raise (OtherException "ConnectionError" "Connection reset by peer"))
           0 example_bytes (Ok tt).

(** The existence query meets a [GoogleCloudError]. *)
Definition unavailable_sdk : SDK nat :=
  scripted (Raise (GoogleCloudError "503 Service Unavailable"))
           0 example_bytes (Ok tt).

(** An operation that fails wherever it is called. *)
Definition failing_operation : M nat unit :=
  raise (S3DownloadError "S3 download failed: timeout").

(** The destination object is absent; the source store fails the first
    three fetches. *)
Definition recovering_sdk : SDK nat :=
  scripted (Ok false) 3 example_bytes (Ok tt).

(** A configuration that asks for no retry at all:
    [MAX_RETRIES=0 RETRY_DELAY=5 RETRY_BACKOFF=3]. *)
Definition no_retry_config : Config := {|
  aws_access_key_id := "test_key";
  aws_secret_access_key := "test_secret";
  aws_region := "us-east-1";
  gcp_credentials_path := None;
  gcp_project_id := "";
  target_gcs_bucket := "test-bucket";
  host := "0.0.0.0";
  port := 8080;
  debug := false;
  max_retries := 0;
  retry_delay := 5;
  retry_backoff := 3;
  chunk_size := 8192
|}.

(** The destination object is absent and the source store fails every
    fetch a call can make. *)
Definition failing_source_sdk : SDK nat :=
  scripted (Ok false) 100 example_bytes (Ok tt).

(** The same environment, except that a [GoogleCloudError] of the
    existence query is answered [False]. *)
Definition absorbing {E : Type} (sdk : SDK E) : SDK E := {|
  boto3_client := boto3_client sdk;
  storage_Client := storage_Client sdk;
  client_bucket := client_bucket sdk;
  blob_exists := fun name s =>
    match blob_exists sdk name s with
    | (Raise e, s') =>
        if is_GoogleCloudError e then (Ok false, s') else (Raise e, s')
    | answer => answer
    end;
  head_object := head_object sdk;
  get_object := get_object sdk;
  upload_from_file := upload_from_file sdk;
  clock := clock sdk;
  slept := slept sdk
|}.

(** The environment's answers along a run of the backoff executor: the
    call of [func] fails [n] times, each failure followed by the sleep
    the executor takes (starting at [d], multiplied by [backoff]), and
    the next call returns [a]. *)
Inductive fails_then_succeeds {E A : Type} (sdk : SDK E) (fname : string)
          (func : M E A) (backoff : Q)
  : nat -> Q -> World E -> A -> World E -> Prop :=
| succeeds_now : forall d w a w',
    call fname func w = (Ok a, w') ->
    fails_then_succeeds sdk fname func backoff 0 d w a w'
| fails_first : forall n d w e w1 w2 a w',
    call fname func w = (Raise e, w1) ->
    time_sleep sdk d w1 = (Ok tt, w2) ->
    fails_then_succeeds sdk fname func backoff n (d * backoff)%Q w2 a w' ->
    fails_then_succeeds sdk fname func backoff (S n) d w a w'.

(** The delays of the executor's loop as it computes them:
    [current_delay *= backoff] after each sleep. *)
Fixpoint delays (d m : Q) (n : nat) : list Q :=
  match n with
  | O => []
  | S n' => d :: delays (d * m)%Q m n'
  end.

(* ================================================================== *)
(** ** Further observations on traces *)

(** Upload requests. *)
Definition is_upload_request (ev : event) : bool :=
  match ev with
  | UploadFromFile _ _ _ => true
  | _ => false
  end.

(** Existence queries. *)
Definition is_exists_query (ev : event) : bool :=
  match ev with
  | BlobExists _ => true
  | _ => false
  end.

(** Requests that build a client or a bucket handle. *)
Definition is_handle_request (ev : event) : bool :=
  match ev with
  | Boto3Client | StorageClient | ClientBucket _ => true
  | _ => false
  end.

(** The time slept, in seconds. *)
Definition total_sleep (evs : list event) : Q :=
  fold_right Qplus 0 (sleeps evs).

(** The destination object is absent, the fetch succeeds, and the
    destination store refuses every upload. *)
Definition rejecting_sdk : SDK nat :=
  scripted (Ok false) 0 example_bytes
           (Raise (GoogleCloudError "429 Too Many Requests")).

(** Events of the write phase of [replicate]. *)
Definition write_event (ev : event) : bool :=
  match ev with
  | Invoke fname => String.eqb fname "_upload_to_gcs"
  | Sleep _ | StorageClient | ClientBucket _ | UploadFromFile _ _ _ => true
  | _ => false
  end.

(* ================================================================== *)
(** ** [src/config.py]: [Config.validate] *)

(** [not value], for a [str]. *)
Definition is_empty (s : string) : bool :=
  match s with
  | EmptyString => true
  | String _ _ => false
  end.

(** [Config.validate(self)] *)
Definition validate (cfg : Config) : result unit :=
  let required_fields :=
    [ ("aws_access_key_id", aws_access_key_id cfg);
      ("aws_secret_access_key", aws_secret_access_key cfg);
      ("target_gcs_bucket", target_gcs_bucket cfg) ] in
  let missing_fields :=
    map fst (filter (fun field => is_empty (snd field)) required_fields) in
  match missing_fields with
  | [] => Ok tt
  | _ :: _ =>
      Raise (ValueError ("Missing required configuration: "
                           ++ String.concat ", " missing_fields))
  end.

(* ================================================================== *)
(** ** [src/app.py] *)

(** [ConfigurationError(message)], of [src/exceptions.py]: a subclass of
    [ReplicationError] that no [except] clause of the source names. *)
Definition ConfigurationError (message : string) : exn :=
  OtherException "ConfigurationError" message.

(** [except ValueError] *)
Definition is_ValueError (e : exn) : bool :=
  match e with ValueError _ => true | _ => false end.

(** The configuration steps of [create_app(config)]: [from_env] is what
    [Config.from_env()] gives when [config] is [None].  The application
    returned is represented by the replicator its routes close over. *)
Definition create_app (from_env : result Config) (config : option Config)
  : result CrossCloudReplicator :=
  match (match config with
         | None => from_env
         | Some cfg => Ok cfg
         end) with
  | Raise e => Raise e
  | Ok cfg =>
      match validate cfg with
      | Raise e =>
          if is_ValueError e
          then Raise (ConfigurationError ("Invalid configuration: " ++ str e))
          else Raise e
      | Ok _ => Ok (new_replicator cfg)
      end
  end.

(** The characters [c] with [c.isspace()], among the first 256. *)
Definition whitespace : string :=
  string_of_list_ascii
    (map ascii_of_nat
       [9%nat; 10%nat; 11%nat; 12%nat; 13%nat; 28%nat; 29%nat; 30%nat;
        31%nat; 32%nat; 133%nat; 160%nat]).

(** [s.rstrip(chars)] *)
Fixpoint rstrip (chars : string) (s : string) : string :=
  match s with
  | EmptyString => EmptyString
  | String c rest =>
      match rstrip chars rest with
      | EmptyString =>
          if Utils.mem_char c chars then EmptyString else String c EmptyString
      | String _ _ as kept => String c kept
      end
  end.

(** [s.strip()] *)
Definition strip (s : string) : string :=
  rstrip whitespace (Utils.lstrip whitespace s).

(** [int(t)] for a float: truncation toward zero. *)
Definition int_of_float (t : Q) : Z := Z.quot (Qnum t) (Zpos (Qden t)).

(** [a == b] *)
Definition value_eqb (a b : value) : bool :=
  match a, b with
  | VStr x, VStr y => String.eqb x y
  | VInt x, VInt y => Z.eqb x y
  | VFloat x, VFloat y => Qeq_bool x y
  | VInt x, VFloat y | VFloat y, VInt x => Qeq_bool (inject_Z x) y
  | _, _ => false
  end.

(** [v in values] *)
Definition value_in (v : value) (values : list value) : bool :=
  existsb (value_eqb v) values.

(** [d[key] = v]: replaces the value of a key that is present, appends
    the key otherwise. *)
Fixpoint dict_set (key : string) (v : value) (d : dict) : dict :=
  match d with
  | [] => [(key, v)]
  | (k, old) :: rest =>
      if String.eqb key k then (k, v) :: rest
      else (k, old) :: dict_set key v rest
  end.

(** What [request_schema.load(request.json)] gives: the validated data,
    a [MarshmallowValidationError] with its [messages], or another
    exception. *)
Inductive load_result : Type :=
| Loaded (s3_bucket s3_key : string)
| Rejected (messages : value)
| LoadError (e : exn).

(** What the handler reads of the Flask request. *)
Record Request : Type := {
  is_json : bool;
  load : load_result
}.

Section App.

Variable E : Type.
Variable sdk : SDK E.

(** [int(time.time())] *)
Definition timestamp : M E value :=
  t <- time_time sdk ;; ret (VInt (int_of_float t)).

(** [replicate_endpoint()]: the body and the status code of the
    response. *)
Definition replicate_endpoint (request : Request) : M E (dict * Z) :=
  try_except
    (if negb (is_json request) then
       stamp <- timestamp ;;
       ret ([ ("error", VStr "invalid_content_type");
              ("message", VStr "Content-Type must be application/json");
              ("timestamp", stamp) ], 400%Z)
     else
       match load request with
       | Rejected messages =>
           stamp <- timestamp ;;
           ret ([ ("error", VStr "validation_error");
                  ("message", VStr "Invalid request payload");
                  ("details", messages);
                  ("timestamp", stamp) ], 400%Z)
       | LoadError e => raise e
       | Loaded s3_bucket s3_key =>
           result <- replicate sdk (strip s3_bucket) (strip s3_key) ;;
           stamp <- timestamp ;;
           let result := dict_set "timestamp" stamp result in
           match dict_get "status" result with
           | None => raise (OtherException "KeyError" "'status'")
           | Some status =>
               let status_code :=
                 if value_in status [VStr "success"; VStr "skipped"]
                 then 200%Z else 500%Z in
               ret (result, status_code)
           end
       end)
    [ (is_Exception,
       fun e =>
         stamp <- timestamp ;;
         ret ([ ("error", VStr "internal_server_error");
                ("message",
                 VStr "An unexpected error occurred during replication");
                ("timestamp", stamp) ], 500%Z)) ].

End App.

Arguments timestamp {E} sdk _.
Arguments replicate_endpoint {E} sdk request _.

(** A well-formed request for the example object. *)
Definition example_request : Request :=
  {| is_json := true; load := Loaded " src " "/data/file.csv " |}.

(** Both lazy handles that [replicate] needs have been built. *)
Definition handles_cached (this : CrossCloudReplicator) : Prop :=
  _s3_client this <> None /\ _target_bucket this <> None.

(** From a world whose handles are built: the replicator is left as it
    is and no handle is requested. *)
Definition reuses_handles {E : Type} (w w' : World E) : Prop :=
  handles_cached (self w) ->
  self w' = self w /\ extends (fun ev => negb (is_handle_request ev)) w w'.

(** A length [time.sleep] accepts. *)
Definition sleepable (d : Q) : Prop := 0 <= d /\ d <= sleep_limit.

(** The function's answers along a run of the backoff executor in which
    every attempt fails: [n] failed calls, each followed by the sleep of
    the executor (starting at [d], multiplied by [backoff]), and a last
    call, which raises [e] and leaves [w']. *)
Inductive fails_every_attempt {E A : Type} (sdk : SDK E) (fname : string)
          (func : M E A) (backoff : Q)
  : nat -> Q -> World E -> exn -> World E -> Prop :=
| fails_last : forall d w e w',
    call fname func w = (Raise e, w') ->
    fails_every_attempt sdk fname func backoff 0 d w e w'
| fails_again : forall n d w e1 w1 e w',
    call fname func w = (Raise e1, w1) ->
    fails_every_attempt sdk fname func backoff n (d * backoff)%Q
                        (after_sleep sdk d w1) e w' ->
    fails_every_attempt sdk fname func backoff (S n) d w e w'.

(** The destination object is absent and every request succeeds, while
    the wall clock is being set back: each reading shows one second less
    than the one before. *)
Definition rewound_sdk : SDK nat := {|
  boto3_client := boto3_client absent_sdk;
  storage_Client := storage_Client absent_sdk;
  client_bucket := client_bucket absent_sdk;
  blob_exists := blob_exists absent_sdk;
  head_object := head_object absent_sdk;
  get_object := get_object absent_sdk;
  upload_from_file := upload_from_file absent_sdk;
  clock := fun i => inject_Z (100 - Z.of_nat i);
  slept := slept absent_sdk
|}.

(** A configuration with [CHUNK_SIZE=0]. *)
Definition unchunked_config : Config := {|
  aws_access_key_id := "test_key";
  aws_secret_access_key := "test_secret";
  aws_region := "us-east-1";
  gcp_credentials_path := None;
  gcp_project_id := "";
  target_gcs_bucket := "test-bucket";
  host := "0.0.0.0";
  port := 8080;
  debug := false;
  max_retries := 3;
  retry_delay := 1;
  retry_backoff := 2;
  chunk_size := 0
|}.

(** The destination object is absent and the source store answers every
    [head_object] with an error response that has no ['Error'] entry. *)
Definition codeless_sdk : SDK nat := {|
  boto3_client := boto3_client absent_sdk;
  storage_Client := storage_Client absent_sdk;
  client_bucket := client_bucket absent_sdk;
  blob_exists := blob_exists absent_sdk;
  head_object := fun _ _ n =>
    (Raise (ClientError NoErrorEntry
              "An error occurred (Unknown) when calling the HeadObject operation: Unknown"),
     S n);
  get_object := get_object absent_sdk;
  upload_from_file := upload_from_file absent_sdk;
  clock := clock absent_sdk;
  slept := slept absent_sdk
|}.

(** The names of the required fields that are empty, in the order
    [validate] lists them. *)
Definition missing_fields (cfg : Config) : list string :=
  ((if is_empty (aws_access_key_id cfg) then ["aws_access_key_id"] else [])
   ++ (if is_empty (aws_secret_access_key cfg)
       then ["aws_secret_access_key"] else [])
   ++ (if is_empty (target_gcs_bucket cfg)
       then ["target_gcs_bucket"] else []))%list.

(* ================================================================== *)
(** * Properties *)

(** ** Object names *)

Import Utils.

Lemma mem_char_slash (c : ascii) :
  mem_char c "/" = Ascii.eqb c "/".
Proof. simpl. apply orb_false_r. Qed.

Lemma sanitize_cons (c : ascii) (k : string) :
  sanitize_gcs_object_name (String c k) =
  if Ascii.eqb c "/" then sanitize_gcs_object_name k else String c k.
Proof.
  unfold sanitize_gcs_object_name. simpl lstrip at 1.
  rewrite orb_false_r. reflexivity.
Qed.

Lemma sanitize_prefix (k : string) :
  exists n, k = slashes n ++ sanitize_gcs_object_name k.
Proof.
  induction k as [|c k [n IH]].
  - exists 0%nat. reflexivity.
  - rewrite sanitize_cons. destruct (Ascii.eqb c "/") eqn:Hc.
    + apply Ascii.eqb_eq in Hc. subst c.
      exists (S n). simpl. now rewrite <- IH.
    + exists 0%nat. reflexivity.
Qed.

Lemma sanitize_no_leading_slash (k : string) :
  starts_with_slash (sanitize_gcs_object_name k) = false.
Proof.
  induction k as [|c k IH]; [reflexivity|].
  rewrite sanitize_cons. destruct (Ascii.eqb c "/") eqn:Hc; [exact IH|].
  simpl. exact Hc.
Qed.

Lemma sanitize_fixed_point (s : string) :
  starts_with_slash s = false -> sanitize_gcs_object_name s = s.
Proof.
  destruct s as [|c s]; [reflexivity|].
  simpl. intros Hc. rewrite sanitize_cons, Hc. reflexivity.
Qed.

Lemma sanitize_slashes (n : nat) :
  sanitize_gcs_object_name (slashes n) = "".
Proof.
  induction n as [|n IH]; [reflexivity|].
  simpl slashes. rewrite sanitize_cons. simpl. exact IH.
Qed.

(** C7.  For every key [k], [sanitize_gcs_object_name k] is [k] without its
    leading run of ["/"]: [k] is some number of slashes followed by the
    result, kept as it is, and the result does not start with a slash;
    applying the function to its own output changes nothing. *)
Theorem sanitize_strips_exactly_leading_slashes (k : string) :
  (exists n, k = slashes n ++ sanitize_gcs_object_name k)
  /\ starts_with_slash (sanitize_gcs_object_name k) = false
  /\ sanitize_gcs_object_name (sanitize_gcs_object_name k)
     = sanitize_gcs_object_name k.
Proof.
  split; [apply sanitize_prefix|].
  split; [apply sanitize_no_leading_slash|].
  apply sanitize_fixed_point, sanitize_no_leading_slash.
Qed.

(* ------------------------------------------------------------------ *)
(** ** Relations kept by every run *)

Section Respects.

Context {E : Type}.
Variable sdk : SDK E.
Variable R : World E -> World E -> Prop.
Variable allowed : event -> bool.

Hypothesis R_refl : forall w, R w w.
Hypothesis R_trans : forall w1 w2 w3, R w1 w2 -> R w2 w3 -> R w1 w3.
Hypothesis R_log : forall ev w, allowed ev = true -> R w (log ev w).
Hypothesis R_env : forall s w, R w (set_env s w).
Hypothesis R_tick : forall w, R w (tick w).
Hypothesis R_s3 : forall c w, R w (snd (assign_s3_client c w)).
Hypothesis R_gcs : forall c w, R w (snd (assign_gcs_client c w)).
Hypothesis R_bucket : forall b w, R w (snd (assign_target_bucket b w)).

Lemma respects_ret {A : Type} (a : A) : respects R (ret a : M E A).
Proof. intros w r w' H. inversion H. apply R_refl. Qed.

Lemma respects_raise {A : Type} (e : exn) : respects R (raise e : M E A).
Proof. intros w r w' H. inversion H. apply R_refl. Qed.

Lemma respects_lift {A : Type} (r : result A) : respects R (lift r : M E A).
Proof. intros w r' w' H. inversion H. apply R_refl. Qed.

Lemma respects_bind {A B : Type} (m : M E A) (k : A -> M E B) :
  respects R m -> (forall a, respects R (k a)) -> respects R (bind m k).
Proof.
  intros Hm Hk w r w' H. unfold bind in H.
  destruct (m w) as [[a|e] w1] eqn:Em.
  - eapply R_trans; [eapply Hm; eassumption | eapply Hk; eassumption].
  - inversion H; subst. eapply Hm; eassumption.
Qed.

Lemma respects_dispatch {A : Type} (clauses : list (clause E A)) (e : exn) :
  Forall (fun c => forall e', respects R (snd c e')) clauses ->
  respects R (dispatch clauses e).
Proof.
  induction 1 as [|[isinstance handler] others Hc _ IH]; simpl.
  - apply respects_raise.
  - destruct (isinstance e); [apply Hc | exact IH].
Qed.

Lemma respects_try_except {A : Type} (body : M E A)
      (clauses : list (clause E A)) :
  respects R body ->
  Forall (fun c => forall e, respects R (snd c e)) clauses ->
  respects R (try_except body clauses).
Proof.
  intros Hb Hc w r w' H. unfold try_except in H.
  destruct (body w) as [[a|e] w1] eqn:Eb.
  - inversion H; subst. eapply Hb; eassumption.
  - eapply R_trans; [eapply Hb; eassumption|].
    eapply respects_dispatch; eassumption.
Qed.

Lemma respects_request {A : Type} (ev : event) (op : E -> result A * E) :
  allowed ev = true -> respects R (request ev op).
Proof.
  intros Hev w r w' H. unfold request in H.
  destruct (op (env (log ev w))) as [r1 s1]. inversion H; subst.
  eapply R_trans; [apply R_log; exact Hev | apply R_env].
Qed.

Lemma respects_call {A : Type} (fname : string) (func : M E A) :
  allowed (Invoke fname) = true -> respects R func ->
  respects R (call fname func).
Proof.
  intros Hev Hf w r w' H. unfold call in H.
  eapply R_trans; [apply R_log; exact Hev | eapply Hf; eassumption].
Qed.

Lemma respects_get_self : respects R (@get_self E).
Proof. intros w r w' H. inversion H. apply R_refl. Qed.

Lemma respects_time_time : respects R (time_time sdk).
Proof. intros w r w' H. inversion H. apply R_tick. Qed.

Lemma respects_time_sleep (d : Q) :
  allowed (Sleep d) = true -> respects R (time_sleep sdk d).
Proof.
  intros Hev w r w' H. unfold time_sleep in H.
  destruct (negb (Qle_bool (- sleep_limit) d && Qle_bool d sleep_limit)).
  - inversion H. apply R_refl.
  - destruct (Qle_bool 0 d).
    + inversion H; subst. unfold after_sleep.
      eapply R_trans; [apply R_log; exact Hev | apply R_env].
    + inversion H. apply R_refl.
Qed.

Lemma respects_assign_s3_client c : respects R (assign_s3_client (E:=E) c).
Proof. intros w r w' H. pose proof (R_s3 c w) as HR. rewrite H in HR. exact HR. Qed.

Lemma respects_assign_gcs_client c : respects R (assign_gcs_client (E:=E) c).
Proof. intros w r w' H. pose proof (R_gcs c w) as HR. rewrite H in HR. exact HR. Qed.

Lemma respects_assign_target_bucket b :
  respects R (assign_target_bucket (E:=E) b).
Proof.
  intros w r w' H. pose proof (R_bucket b w) as HR. rewrite H in HR. exact HR.
Qed.

(** Decomposes a goal [respects R m] along the structure of [m]. *)
Ltac respects_step :=
  first
    [ apply respects_ret
    | apply respects_raise
    | apply respects_lift
    | apply respects_get_self
    | apply respects_time_time
    | apply respects_assign_s3_client
    | apply respects_assign_gcs_client
    | apply respects_assign_target_bucket
    | apply respects_bind; [| intro]
    | apply respects_try_except
    | apply Forall_cons; [intro; simpl snd|]
    | apply Forall_nil
    | apply respects_request; assumption ].

Lemma respects_s3_client :
  allowed Boto3Client = true -> respects R (s3_client sdk).
Proof.
  intros H1. unfold s3_client.
  apply respects_bind; [apply respects_get_self|]. intros this.
  destruct (_s3_client this); repeat respects_step.
Qed.

Lemma respects_gcs_client :
  allowed StorageClient = true -> respects R (gcs_client sdk).
Proof.
  intros H1. unfold gcs_client.
  apply respects_bind; [apply respects_get_self|]. intros this.
  destruct (_gcs_client this); repeat respects_step.
Qed.

Lemma respects_target_bucket :
  allowed StorageClient = true ->
  (forall name, allowed (ClientBucket name) = true) ->
  respects R (target_bucket sdk).
Proof.
  intros H1 H2. unfold target_bucket.
  apply respects_bind; [apply respects_get_self|]. intros this.
  destruct (_target_bucket this); [apply respects_ret|].
  apply respects_try_except.
  - apply respects_bind; [apply respects_gcs_client; exact H1|]. intros _.
    apply respects_bind; [apply respects_request; apply H2|]. intros b.
    repeat respects_step.
  - repeat respects_step.
Qed.

Lemma respects_check (object_name : string) :
  allowed StorageClient = true ->
  (forall name, allowed (ClientBucket name) = true) ->
  allowed (BlobExists object_name) = true ->
  respects R (_check_file_exists_in_gcs sdk object_name).
Proof.
  intros H1 H2 H3. unfold _check_file_exists_in_gcs.
  apply respects_try_except.
  - apply respects_bind; [apply respects_target_bucket; assumption|].
    intros _. apply respects_request. exact H3.
  - repeat respects_step.
Qed.

Lemma respects_download_wrapped (bucket key : string) :
  allowed Boto3Client = true ->
  allowed (HeadObject bucket key) = true ->
  allowed (GetObject bucket key) = true ->
  respects R (_download_from_s3_wrapped sdk bucket key).
Proof.
  intros H1 H2 H3. unfold _download_from_s3_wrapped.
  apply respects_try_except.
  - apply respects_bind; [apply respects_s3_client; exact H1|]. intros _.
    apply respects_bind; [apply respects_request; exact H2|]. intros _.
    apply respects_bind; [apply respects_s3_client; exact H1|]. intros _.
    apply respects_bind; [apply respects_request; exact H3|]. intros body.
    repeat respects_step.
  - apply Forall_cons; [intro e; simpl snd|].
    + apply respects_bind; [apply respects_lift|]. intros code.
      destruct (String.eqb code "NoSuchKey"); [apply respects_raise|].
      destruct (String.eqb code "NoSuchBucket"); apply respects_raise.
    + repeat respects_step.
Qed.

Lemma respects_upload_wrapped (stream : BytesIO) (object_name : string)
      (metadata : option (list (string * string))) :
  allowed StorageClient = true ->
  (forall name, allowed (ClientBucket name) = true) ->
  (forall md data, allowed (UploadFromFile object_name md data) = true) ->
  respects R (_upload_to_gcs_wrapped sdk stream object_name metadata).
Proof.
  intros H1 H2 H3. unfold _upload_to_gcs_wrapped.
  apply respects_try_except.
  - apply respects_bind; [apply respects_target_bucket; assumption|].
    intros _. apply respects_request. apply H3.
  - repeat respects_step.
Qed.

Lemma respects_raise_last {A : Type} (last : option exn) :
  respects R (raise_last last : M E A).
Proof. destruct last; apply respects_raise. Qed.

Lemma respects_retry_for {A : Type} (max_retries : Z) (backoff : Q)
      (fname : string) (func : M E A) (attempts : list Z) :
  allowed (Invoke fname) = true ->
  (forall d, allowed (Sleep d) = true) ->
  respects R func ->
  forall current_delay last_exception,
    respects R (retry_for sdk max_retries backoff fname func attempts
                          current_delay last_exception).
Proof.
  intros H1 H2 Hf.
  induction attempts as [|attempt later IH]; intros d last; simpl.
  - apply respects_raise_last.
  - intros w r w' H.
    destruct (call fname func w) as [[a|e] w1] eqn:Ec.
    + inversion H; subst. eapply respects_call; eassumption.
    + assert (R w w1) as Hw1 by (eapply respects_call; eassumption).
      destruct (attempt =? max_retries)%Z.
      * inversion H; subst. exact Hw1.
      * destruct (time_sleep sdk d w1) as [[u|e'] w2] eqn:Es.
        -- eapply R_trans; [exact Hw1|].
           eapply R_trans; [eapply respects_time_sleep; [apply H2|exact Es]|].
           eapply IH; eassumption.
        -- inversion H; subst.
           eapply R_trans; [exact Hw1|].
           eapply respects_time_sleep; [apply H2|exact Es].
Qed.

(** A value the loop returns was returned by a call of the function, made
    in a world related to the first. *)
Lemma retry_for_returns_a_call {A : Type} (max_retries : Z) (backoff : Q)
      (fname : string) (func : M E A) (attempts : list Z) :
  allowed (Invoke fname) = true ->
  (forall d, allowed (Sleep d) = true) ->
  respects R func ->
  forall (d : Q) (last : option exn) (w : World E) (a : A) (w' : World E),
    retry_for sdk max_retries backoff fname func attempts d last w
    = (Ok a, w') ->
    exists w_last, R w w_last /\ call fname func w_last = (Ok a, w').
Proof.
  intros H1 H2 Hf.
  induction attempts as [|attempt later IH]; intros d last w a w' H.
  - destruct last; discriminate H.
  - simpl in H. destruct (call fname func w) as [[a1|e] w1] eqn:Ec.
    + inversion H; subst. exists w. split; [apply R_refl | exact Ec].
    + destruct (attempt =? max_retries)%Z; [discriminate H|].
      destruct (time_sleep sdk d w1) as [[u|e'] w2] eqn:Es; [|discriminate H].
      destruct (IH _ _ _ _ _ H) as [w_last [HR Hcall]].
      exists w_last. split; [|exact Hcall].
      eapply R_trans; [eapply respects_call; eassumption|].
      eapply R_trans; [eapply respects_time_sleep; [apply H2|exact Es]|].
      exact HR.
Qed.

Lemma respects_retry_with_backoff {A : Type} (max_retries : Z)
      (delay backoff : Q) (fname : string) (func : M E A) :
  allowed (Invoke fname) = true ->
  (forall d, allowed (Sleep d) = true) ->
  respects R func ->
  respects R (retry_with_backoff sdk max_retries delay backoff fname func).
Proof. intros. unfold retry_with_backoff. now apply respects_retry_for. Qed.

Lemma respects_replicate (s3_bucket s3_key : string) :
  allowed StorageClient = true ->
  (forall name, allowed (ClientBucket name) = true) ->
  allowed (BlobExists (sanitize_gcs_object_name s3_key)) = true ->
  allowed Boto3Client = true ->
  allowed (HeadObject s3_bucket s3_key) = true ->
  allowed (GetObject s3_bucket s3_key) = true ->
  (forall md data,
      allowed (UploadFromFile (sanitize_gcs_object_name s3_key) md data)
      = true) ->
  (forall fname, allowed (Invoke fname) = true) ->
  (forall d, allowed (Sleep d) = true) ->
  respects R (replicate sdk s3_bucket s3_key).
Proof.
  intros H1 H2 H3 H4 H5 H6 H7 H8 H9. unfold replicate.
  apply respects_bind; [apply respects_time_time|]. intros start_time.
  apply respects_bind; [apply respects_get_self|]. intros this.
  apply respects_try_except.
  - apply respects_bind; [apply respects_check; assumption|].
    intros [|].
    + repeat respects_step.
    + apply respects_bind.
      { apply respects_retry_with_backoff; [apply H8 | exact H9 |].
        apply respects_download_wrapped; assumption. }
      intros stream.
      apply respects_bind; [apply respects_time_time|]. intros stamp.
      apply respects_bind.
      { apply respects_retry_with_backoff; [apply H8 | exact H9 |].
        apply respects_upload_wrapped; assumption. }
      intros _. repeat respects_step.
  - repeat respects_step.
Qed.

End Respects.

(* ------------------------------------------------------------------ *)
(** ** Traces only grow, and the bucket handle stays cached *)

Section Frames.

Context {E : Type}.

Lemma new_events_app (w w' : World E) (evs : list event) :
  trace w' = (trace w ++ evs)%list -> new_events w w' = evs.
Proof.
  intros H. unfold new_events. rewrite H, skipn_app, skipn_all, Nat.sub_diag.
  reflexivity.
Qed.

Lemma extends_refl (allowed : event -> bool) (w : World E) :
  extends allowed w w.
Proof. exists []. split; [now rewrite app_nil_r | reflexivity]. Qed.

Lemma extends_trans (allowed : event -> bool) (w1 w2 w3 : World E) :
  extends allowed w1 w2 -> extends allowed w2 w3 -> extends allowed w1 w3.
Proof.
  intros [l1 [H1 A1]] [l2 [H2 A2]]. exists (l1 ++ l2)%list. split.
  - now rewrite H2, H1, app_assoc.
  - rewrite forallb_app, A1, A2. reflexivity.
Qed.

Lemma extends_log (allowed : event -> bool) (ev : event) (w : World E) :
  allowed ev = true -> extends allowed w (log ev w).
Proof.
  intros H. exists [ev]. split; [reflexivity|]. simpl. now rewrite H.
Qed.

Lemma extends_same_trace (allowed : event -> bool) (w w' : World E) :
  trace w' = trace w -> extends allowed w w'.
Proof.
  intros H. exists []. split; [now rewrite app_nil_r | reflexivity].
Qed.

Lemma extends_weaken (P Q : event -> bool) (w w' : World E) :
  (forall ev, P ev = true -> Q ev = true) ->
  extends P w w' -> extends Q w w'.
Proof.
  intros HPQ [evs [Ht Hall]]. exists evs. split; [exact Ht|].
  rewrite forallb_forall in *. auto.
Qed.

Lemma frame_refl (w : World E) : frame w w.
Proof. unfold frame. auto. Qed.

Lemma frame_trans (w1 w2 w3 : World E) :
  frame w1 w2 -> frame w2 w3 -> frame w1 w3.
Proof.
  unfold frame. intros [T1 [C1 B1]] [T2 [C2 B2]].
  split; [lia|]. split; [congruence | auto].
Qed.

End Frames.

(** Instantiates the lemmas of [Respects] at [extends allowed]. *)
Ltac by_extends :=
  intros;
  match goal with
  | |- respects (extends ?P) _ =>
      first
        [ eapply (@respects_check _ _ (extends P) P)
        | eapply (@respects_download_wrapped _ _ (extends P) P)
        | eapply (@respects_upload_wrapped _ _ (extends P) P)
        | eapply (@respects_target_bucket _ _ (extends P) P)
        | eapply (@respects_retry_with_backoff _ _ (extends P) P)
        | eapply (@respects_retry_for _ _ (extends P) P)
        | eapply (@respects_time_sleep _ _ (extends P) P)
        | eapply (@respects_replicate _ _ (extends P) P)
        | eapply (@respects_time_time _ _ (extends P)) ]
  end;
  try first
      [ apply extends_refl
      | apply extends_trans
      | apply extends_log
      | (intros; apply extends_same_trace; reflexivity) ].

(** Instantiates the lemmas of [Respects] at [frame]. *)
Ltac by_frame :=
  intros;
  first
    [ eapply (@respects_check _ _ frame (fun _ => true))
    | eapply (@respects_download_wrapped _ _ frame (fun _ => true))
    | eapply (@respects_upload_wrapped _ _ frame (fun _ => true))
    | eapply (@respects_target_bucket _ _ frame (fun _ => true))
    | eapply (@respects_s3_client _ _ frame (fun _ => true))
    | eapply (@respects_retry_with_backoff _ _ frame (fun _ => true))
    | eapply (@respects_retry_for _ _ frame (fun _ => true))
    | eapply (@respects_time_sleep _ _ frame (fun _ => true))
    | eapply (@respects_time_time _ _ frame) ];
  try first
      [ apply frame_refl
      | apply frame_trans
      | (intros; unfold frame; simpl;
         split; [lia | split; [reflexivity | congruence]])
      | reflexivity ].

Section ComponentFrames.

Context {E : Type}.
Variable sdk : SDK E.

Lemma check_extends (object_name : string) :
  respects (extends check_event) (_check_file_exists_in_gcs sdk object_name).
Proof. by_extends; reflexivity. Qed.

Lemma check_frame (object_name : string) :
  respects frame (_check_file_exists_in_gcs sdk object_name).
Proof. by_frame. Qed.

Lemma target_bucket_extends :
  respects (extends check_event) (target_bucket sdk).
Proof. by_extends; reflexivity. Qed.

Lemma s3_client_frame : respects frame (s3_client sdk).
Proof. by_frame. Qed.

Lemma download_wrapped_frame (bucket key : string) :
  respects frame (_download_from_s3_wrapped sdk bucket key).
Proof. by_frame. Qed.

Lemma upload_wrapped_frame (stream : BytesIO) (object_name : string)
      (metadata : option (list (string * string))) :
  respects frame (_upload_to_gcs_wrapped sdk stream object_name metadata).
Proof. by_frame. Qed.

Lemma download_wrapped_only_requests (bucket key : string) :
  only_requests (_download_from_s3_wrapped sdk bucket key).
Proof. unfold only_requests. by_extends; reflexivity. Qed.

Lemma upload_wrapped_only_requests (stream : BytesIO) (object_name : string)
      (metadata : option (list (string * string))) :
  only_requests (_upload_to_gcs_wrapped sdk stream object_name metadata).
Proof. unfold only_requests. by_extends; reflexivity. Qed.

Lemma download_frame (bucket key : string) :
  respects frame (_download_from_s3 sdk bucket key).
Proof. unfold _download_from_s3. by_frame. apply download_wrapped_frame. Qed.

Lemma upload_frame (stream : BytesIO) (object_name : string)
      (metadata : option (list (string * string))) :
  respects frame (_upload_to_gcs sdk stream object_name metadata).
Proof. unfold _upload_to_gcs. by_frame. apply upload_wrapped_frame. Qed.

(** Events of the fetch, sleeps included. *)
Lemma download_extends (bucket key : string) :
  respects (extends (fun ev => is_fetch_event ev || is_sleep ev))
           (_download_from_s3 sdk bucket key).
Proof.
  unfold _download_from_s3. by_extends; try reflexivity.
  by_extends; reflexivity.
Qed.

Lemma upload_extends (stream : BytesIO) (object_name : string)
      (metadata : option (list (string * string))) :
  respects (extends (fun _ => true))
           (_upload_to_gcs sdk stream object_name metadata).
Proof.
  unfold _upload_to_gcs. by_extends; try reflexivity.
  by_extends; reflexivity.
Qed.

Lemma time_sleep_extends (allowed : event -> bool) (d : Q) :
  allowed (Sleep d) = true ->
  respects (extends allowed) (time_sleep sdk d).
Proof. by_extends. assumption. Qed.

Lemma retry_for_extends {A : Type} (allowed : event -> bool)
      (max_retries : Z) (backoff : Q) (fname : string) (func : M E A)
      (attempts : list Z) (d : Q) (last : option exn) :
  allowed (Invoke fname) = true ->
  (forall d', allowed (Sleep d') = true) ->
  respects (extends allowed) func ->
  respects (extends allowed)
           (retry_for sdk max_retries backoff fname func attempts d last).
Proof. by_extends; assumption. Qed.

End ComponentFrames.

(* ------------------------------------------------------------------ *)
(** ** The paths of [replicate] *)

Section Paths.

Context {E : Type}.
Variable sdk : SDK E.
Variables s3_bucket s3_key : string.

(** What the two [except] clauses of [replicate] return for [e]. *)
Lemma replicate_handlers (w w1 : World E) (e : exn) :
  dispatch
    [ (is_S3DownloadError_or_GCSUploadError,
       fun e0 =>
         now <- time_time sdk ;;
         ret (failed_outcome (str e0) (source_uri s3_bucket s3_key)
                (destination_uri (config (self w)) s3_key)
                (now - clock sdk (ticks w))));
      (is_Exception,
       fun e0 =>
         now <- time_time sdk ;;
         ret (failed_outcome ("Unexpected error: " ++ str e0)
                (source_uri s3_bucket s3_key)
                (destination_uri (config (self w)) s3_key)
                (now - clock sdk (ticks w)))) ] e w1
  = (Ok (failed_outcome (error_text e) (source_uri s3_bucket s3_key)
           (destination_uri (config (self w)) s3_key)
           (clock sdk (ticks w1) - clock sdk (ticks w))),
     tick w1).
Proof.
  unfold error_text. simpl.
  destruct (is_S3DownloadError_or_GCSUploadError e); reflexivity.
Qed.

Lemma replicate_skips (w w1 : World E) :
  _check_file_exists_in_gcs sdk (sanitize_gcs_object_name s3_key) (tick w) = (Ok true, w1) ->
  replicate sdk s3_bucket s3_key w =
  (Ok (skipped_outcome (source_uri s3_bucket s3_key)
         (destination_uri (config (self w)) s3_key)
         (clock sdk (ticks w1) - clock sdk (ticks w))),
   tick w1).
Proof.
  intros H. unfold replicate.
  cbv [bind time_time get_self try_except ret]. cbn [self tick].
  rewrite H. reflexivity.
Qed.

Lemma replicate_check_raises (w w1 : World E) (e : exn) :
  _check_file_exists_in_gcs sdk (sanitize_gcs_object_name s3_key) (tick w) = (Raise e, w1) ->
  replicate sdk s3_bucket s3_key w =
  (Ok (failed_outcome (error_text e) (source_uri s3_bucket s3_key)
         (destination_uri (config (self w)) s3_key)
         (clock sdk (ticks w1) - clock sdk (ticks w))),
   tick w1).
Proof.
  intros H. unfold replicate.
  cbv [bind time_time get_self try_except ret]. cbn [self tick].
  rewrite H. apply replicate_handlers.
Qed.

Lemma replicate_fetch_raises (w w1 w2 : World E) (e : exn) :
  _check_file_exists_in_gcs sdk (sanitize_gcs_object_name s3_key) (tick w) = (Ok false, w1) ->
  _download_from_s3 sdk s3_bucket s3_key w1 = (Raise e, w2) ->
  replicate sdk s3_bucket s3_key w =
  (Ok (failed_outcome (error_text e) (source_uri s3_bucket s3_key)
         (destination_uri (config (self w)) s3_key)
         (clock sdk (ticks w2) - clock sdk (ticks w))),
   tick w2).
Proof.
  intros H1 H2. unfold replicate.
  cbv [bind time_time get_self try_except ret]. cbn [self tick].
  rewrite H1, H2. apply replicate_handlers.
Qed.

Lemma replicate_write_raises (w w1 w2 w3 : World E) (stream : BytesIO)
      (e : exn) :
  _check_file_exists_in_gcs sdk (sanitize_gcs_object_name s3_key) (tick w) = (Ok false, w1) ->
  _download_from_s3 sdk s3_bucket s3_key w1 = (Ok stream, w2) ->
  _upload_to_gcs sdk stream (sanitize_gcs_object_name s3_key)
    (Some (transfer_metadata s3_bucket s3_key (clock sdk (ticks w2))))
    (tick w2) = (Raise e, w3) ->
  replicate sdk s3_bucket s3_key w =
  (Ok (failed_outcome (error_text e) (source_uri s3_bucket s3_key)
         (destination_uri (config (self w)) s3_key)
         (clock sdk (ticks w3) - clock sdk (ticks w))),
   tick w3).
Proof.
  intros H1 H2 H3. unfold replicate.
  cbv [bind time_time get_self try_except ret]. cbn [self tick].
  rewrite H1, H2.
  unfold transfer_metadata in H3. rewrite H3. apply replicate_handlers.
Qed.

Lemma replicate_succeeds (w w1 w2 w3 : World E) (stream : BytesIO) :
  _check_file_exists_in_gcs sdk (sanitize_gcs_object_name s3_key) (tick w) = (Ok false, w1) ->
  _download_from_s3 sdk s3_bucket s3_key w1 = (Ok stream, w2) ->
  _upload_to_gcs sdk stream (sanitize_gcs_object_name s3_key)
    (Some (transfer_metadata s3_bucket s3_key (clock sdk (ticks w2))))
    (tick w2) = (Ok tt, w3) ->
  replicate sdk s3_bucket s3_key w =
  (Ok (success_outcome (source_uri s3_bucket s3_key)
         (destination_uri (config (self w)) s3_key)
         (clock sdk (ticks w3) - clock sdk (ticks w))
         (nbytes stream)),
   tick w3).
Proof.
  intros H1 H2 H3. unfold replicate.
  cbv [bind time_time get_self try_except ret]. cbn [self tick].
  rewrite H1, H2.
  unfold transfer_metadata in H3. rewrite H3. reflexivity.
Qed.

Lemma replicate_returns (w : World E) :
  exists o w', replicate sdk s3_bucket s3_key w = (Ok o, w')
               /\ outcome_shape o.
Proof.
  destruct (_check_file_exists_in_gcs sdk (sanitize_gcs_object_name s3_key) (tick w))
    as [[[|]|e] w1] eqn:H1.
  - eexists; eexists; split; [eapply replicate_skips; eassumption | constructor].
  - destruct (_download_from_s3 sdk s3_bucket s3_key w1)
      as [[stream|e] w2] eqn:H2.
    + destruct (_upload_to_gcs sdk stream (sanitize_gcs_object_name s3_key)
                  (Some (transfer_metadata s3_bucket s3_key
                           (clock sdk (ticks w2)))) (tick w2))
        as [[[]|e] w3] eqn:H3.
      * eexists; eexists; split;
          [eapply replicate_succeeds; eassumption | constructor].
      * eexists; eexists; split;
          [eapply replicate_write_raises; eassumption | constructor].
    + eexists; eexists; split;
        [eapply replicate_fetch_raises; eassumption | constructor].
  - eexists; eexists; split; [eapply replicate_check_raises; eassumption | constructor].
Qed.

End Paths.

(* ------------------------------------------------------------------ *)
(** ** The outcome of [replicate] *)

(** C1.  Whatever the two strings and whatever the environment answers or
    raises, [replicate] returns a dictionary and raises nothing; its status
    is ["skipped"], ["success"] or ["failed"], and it is ["failed"] exactly
    when the dictionary carries an ["error"] message. *)
Theorem replicate_never_raises {E : Type} (sdk : SDK E)
        (s3_bucket s3_key : string) (w : World E) :
  exists o w',
    replicate sdk s3_bucket s3_key w = (Ok o, w')
    /\ (status o = Some (VStr "skipped")
        \/ status o = Some (VStr "success")
        \/ status o = Some (VStr "failed"))
    /\ (status o = Some (VStr "failed")
        <-> exists message, dict_get "error" o = Some (VStr message)).
Proof.
  destruct (replicate_returns sdk s3_bucket s3_key w) as [o [w' [Hrun Hshape]]].
  exists o, w'. split; [exact Hrun|].
  destruct Hshape; unfold status; simpl.
  - split; [now left|]. split; [discriminate | intros [m Hm]; discriminate].
  - split; [now right; left|].
    split; [discriminate | intros [m Hm]; discriminate].
  - split; [now right; right|]. split; [intros _; now exists err | reflexivity].
Qed.

(** C6.  The outcome [replicate] returns has exactly one of the keys
    ["size_bytes"], ["reason"] and ["error"]: ["size_bytes"] exactly when
    the status is ["success"], ["reason"] exactly when it is ["skipped"],
    ["error"] exactly when it is ["failed"]. *)
Theorem outcome_has_one_detail_field {E : Type} (sdk : SDK E)
        (s3_bucket s3_key : string) (w : World E) :
  exists o w',
    replicate sdk s3_bucket s3_key w = (Ok o, w')
    /\ (dict_has "size_bytes" o = true <-> status o = Some (VStr "success"))
    /\ (dict_has "reason" o = true <-> status o = Some (VStr "skipped"))
    /\ (dict_has "error" o = true <-> status o = Some (VStr "failed"))
    /\ List.length
         (filter (fun key => dict_has key o) ["size_bytes"; "reason"; "error"])
       = 1%nat.
Proof.
  destruct (replicate_returns sdk s3_bucket s3_key w) as [o [w' [Hrun Hshape]]].
  exists o, w'. split; [exact Hrun|].
  destruct Hshape; unfold status, dict_has; simpl;
    repeat split; intros; solve [reflexivity | discriminate].
Qed.

(** C2, as the specification words it, fails: with the destination object
    present the reason reported is not ["destination already exists"]. *)
Lemma skip_reason_is_not_the_specified_text :
  _check_file_exists_in_gcs present_sdk "data/file.csv" (tick example_world)
  = (Ok true,
     snd (_check_file_exists_in_gcs present_sdk "data/file.csv"
            (tick example_world)))
  /\ exists o w',
      replicate present_sdk "src" "/data/file.csv" example_world = (Ok o, w')
      /\ dict_get "reason" o <> Some (VStr "destination already exists").
Proof.
  split; [reflexivity|].
  eexists; eexists; split; [vm_compute; reflexivity|].
  simpl. discriminate.
Qed.

(** C2, amended.  When the existence check answers [True] for the derived
    object name, [replicate] returns status ["skipped"] with reason
    ["file_already_exists"], and nothing it did is a fetch or a write: no
    call of [_download_from_s3] or [_upload_to_gcs], no request to the
    source store, no upload. *)
Theorem existing_destination_is_skipped {E : Type} (sdk : SDK E)
        (s3_bucket s3_key : string) (w w1 : World E) :
  _check_file_exists_in_gcs sdk (sanitize_gcs_object_name s3_key) (tick w)
  = (Ok true, w1) ->
  exists o w',
    replicate sdk s3_bucket s3_key w = (Ok o, w')
    /\ status o = Some (VStr "skipped")
    /\ dict_get "reason" o = Some (VStr "file_already_exists")
    /\ filter is_fetch_event (new_events w w') = []
    /\ filter is_write_event (new_events w w') = [].
Proof.
  intros Hcheck.
  eexists; eexists; split; [eapply replicate_skips; exact Hcheck|].
  split; [reflexivity|]. split; [reflexivity|].
  destruct (check_extends sdk _ _ _ _ Hcheck) as [evs [Ht Hall]].
  assert (new_events w (tick w1) = evs) as ->
      by (apply new_events_app; exact Ht).
  clear Ht. induction evs as [|ev evs IH]; [now split|].
  simpl in Hall. apply andb_prop in Hall as [Hev Hall].
  destruct (IH Hall) as [IH1 IH2].
  destruct ev; try discriminate Hev; simpl; now split.
Qed.

Lemma existing_destination_is_skipped_witness :
  exists o w',
    replicate present_sdk "src" "/data/file.csv" example_world = (Ok o, w')
    /\ status o = Some (VStr "skipped")
    /\ dict_get "reason" o = Some (VStr "file_already_exists")
    /\ filter is_fetch_event (new_events example_world w') = []
    /\ filter is_write_event (new_events example_world w') = [].
Proof.
  apply (@existing_destination_is_skipped nat present_sdk "src"
           "/data/file.csv" example_world
           (snd (_check_file_exists_in_gcs present_sdk "data/file.csv"
                   (tick example_world)))).
  vm_compute. reflexivity.
Defined.

(* ------------------------------------------------------------------ *)
(** ** Errors of the existence check *)

Lemma invocations_app (fname : string) (l1 l2 : list event) :
  invocations fname (l1 ++ l2) = (invocations fname l1 + invocations fname l2)%nat.
Proof.
  induction l1 as [|ev l1 IH]; [reflexivity|].
  destruct ev; simpl; rewrite ?IH; try reflexivity. apply Nat.add_assoc.
Qed.

Lemma sleeps_app (l1 l2 : list event) :
  sleeps (l1 ++ l2) = (sleeps l1 ++ sleeps l2)%list.
Proof.
  induction l1 as [|ev l1 IH]; [reflexivity|].
  destruct ev; simpl; rewrite ?IH; reflexivity.
Qed.

Lemma uploads_app (l1 l2 : list event) :
  uploads (l1 ++ l2) = (uploads l1 ++ uploads l2)%list.
Proof.
  induction l1 as [|ev l1 IH]; [reflexivity|].
  destruct ev; simpl; rewrite ?IH; reflexivity.
Qed.

Lemma check_absorbing {E : Type} (sdk : SDK E) (object_name : string)
      (w : World E) :
  _check_file_exists_in_gcs (absorbing sdk) object_name w
  = _check_file_exists_in_gcs sdk object_name w.
Proof.
  unfold _check_file_exists_in_gcs, try_except, bind.
  change (target_bucket (absorbing sdk)) with (target_bucket sdk).
  destruct (target_bucket sdk w) as [[b|e] w1]; [|reflexivity].
  unfold request. simpl.
  destruct (blob_exists sdk object_name (env w1)) as [[found|e] s'];
    simpl; [reflexivity|].
  destruct (is_GoogleCloudError e) eqn:He; simpl; rewrite ?He; reflexivity.
Qed.

Lemma replicate_absorbing {E : Type} (sdk : SDK E) (s3_bucket s3_key : string)
      (w : World E) :
  replicate (absorbing sdk) s3_bucket s3_key w
  = replicate sdk s3_bucket s3_key w.
Proof.
  unfold replicate.
  cbv [bind time_time get_self try_except ret]. cbn [self tick].
  rewrite check_absorbing. reflexivity.
Qed.

(* ------------------------------------------------------------------ *)
(** ** The backoff executor *)

Lemma requests_have_no_invocations (fname : string) (evs : list event) :
  forallb is_request_event evs = true -> invocations fname evs = 0%nat.
Proof.
  induction evs as [|ev evs IH]; [reflexivity|]. simpl.
  intros H. apply andb_prop in H as [Hev H].
  destruct ev; try discriminate Hev; simpl; auto.
Qed.

Lemma requests_have_no_sleeps (evs : list event) :
  forallb is_request_event evs = true -> sleeps evs = [].
Proof.
  induction evs as [|ev evs IH]; [reflexivity|]. simpl.
  intros H. apply andb_prop in H as [Hev H].
  destruct ev; try discriminate Hev; simpl; auto.
Qed.

Lemma range_succ (n : Z) :
  (0 <= n)%Z -> range (n + 1) = map Z.of_nat (seq 0 (S (Z.to_nat n))).
Proof.
  intros Hn. unfold range. f_equal. f_equal.
  rewrite Z.add_1_r. apply Z2Nat.inj_succ. exact Hn.
Qed.


Lemma delays_from (d m : Q) (n a : nat) (d' : Q) :
  d' == d * m ^ Z.of_nat a ->
  Forall2 Qeq (delays d' m n)
          (map (fun i => d * m ^ Z.of_nat i) (seq a n)).
Proof.
  revert a d'. induction n as [|n IH]; intros a d' Hd; simpl.
  - constructor.
  - constructor; [exact Hd|]. apply IH.
    rewrite Hd, Nat2Z.inj_succ, <- Z.add_1_r.
    rewrite Qpower_plus' by lia. rewrite Qpower_1_r. ring.
Qed.

Lemma delays_schedule (d m : Q) (n : nat) :
  Forall2 Qeq (delays d m n) (schedule d m n).
Proof.
  apply delays_from. rewrite Qpower_0_r. ring.
Qed.



(** The delays of the two decorators, 1, 2 and 4 seconds, are lengths
    that [time.sleep] accepts. *)
Lemma decorator_delays_sleepable : Forall sleepable (delays 1 2 3).
Proof. repeat constructor; discriminate. Qed.

Section RetryFacts.

Context {E A : Type}.
Variable sdk : SDK E.
Variable max_retries : Z.
Variable backoff : Q.
Variable fname : string.
Variable func : M E A.

(** The executor calls the function before anything else. *)
Lemma retry_for_calls_first (attempt : Z) (later : list Z) (d : Q)
      (last : option exn) (w : World E) (r : result A) (w' : World E) :
  respects (extends (fun _ => true)) func ->
  retry_for sdk max_retries backoff fname func (attempt :: later) d last w
  = (r, w') ->
  exists evs, trace w' = (trace w ++ Invoke fname :: evs)%list.
Proof.
  intros Hf H. simpl in H. unfold call in H.
  destruct (func (log (Invoke fname) w)) as [[a|e] w1] eqn:Ef.
  - inversion H; subst. destruct (Hf _ _ _ Ef) as [evs [Ht _]].
    exists evs. rewrite Ht. simpl. now rewrite <- app_assoc.
  - destruct (Hf _ _ _ Ef) as [evs1 [Ht1 _]].
    assert (extends (fun _ => true) w1 w') as [evs2 [Ht2 _]].
    { destruct (attempt =? max_retries)%Z.
      - inversion H; subst. apply extends_refl.
      - destruct (time_sleep sdk d w1) as [[u|e'] w2] eqn:Es.
        + eapply extends_trans.
          * eapply time_sleep_extends; [reflexivity | exact Es].
          * eapply retry_for_extends; [reflexivity | reflexivity | exact Hf |].
            exact H.
        + inversion H; subst.
          eapply time_sleep_extends; [reflexivity | exact Es]. }
    exists (evs1 ++ evs2)%list. rewrite Ht2, Ht1. simpl.
    now rewrite <- !app_assoc.
Qed.

(** A length [time.sleep] accepts is slept. *)
Lemma time_sleep_sleepable (d : Q) (w : World E) :
  sleepable d -> time_sleep sdk d w = (Ok tt, after_sleep sdk d w).
Proof.
  intros [H0 Hlim]. unfold time_sleep.
  assert (Qle_bool (- sleep_limit) d = true) as ->.
  { apply Qle_bool_iff. eapply Qle_trans; [|exact H0]. discriminate. }
  assert (Qle_bool d sleep_limit = true) as ->
      by (apply Qle_bool_iff; exact Hlim).
  assert (Qle_bool 0 d = true) as -> by (apply Qle_bool_iff; exact H0).
  reflexivity.
Qed.

(** [time.sleep] either sleeps a length it accepts, or raises and does
    nothing else. *)
Lemma time_sleep_inv (d : Q) (w : World E) (r : result unit) (w' : World E) :
  time_sleep sdk d w = (r, w') ->
  (r = Ok tt /\ w' = after_sleep sdk d w /\ sleepable d)
  \/ (exists e, r = Raise e /\ w' = w /\ ~ sleepable d).
Proof.
  unfold time_sleep.
  destruct (Qle_bool (- sleep_limit) d) eqn:Hlo; cbn [andb negb].
  - destruct (Qle_bool d sleep_limit) eqn:Hhi; cbn [negb].
    + destruct (Qle_bool 0 d) eqn:H0; intros H; inversion H.
      * left. repeat split; apply Qle_bool_iff; assumption.
      * right. eexists. repeat split. intros [Hd _].
        apply Qle_bool_iff in Hd. congruence.
    + intros H; inversion H. right. eexists. repeat split. intros [_ Hd].
      apply Qle_bool_iff in Hd. congruence.
  - intros H; inversion H. right. eexists. repeat split. intros [Hd _].
    assert (Qle_bool (- sleep_limit) d = true); [|congruence].
    apply Qle_bool_iff. eapply Qle_trans; [|exact Hd]. discriminate.
Qed.

(** When every attempt fails and every delay is accepted by [time.sleep],
    the loop runs every attempt, sleeps between them and raises what the
    last call raised. *)
Lemma retry_for_fails_every_attempt :
  only_requests func ->
  forall (n : nat) (d : Q) (w : World E) (e : exn) (w' : World E),
    fails_every_attempt sdk fname func backoff n d w e w' ->
    Forall sleepable (delays d backoff n) ->
    forall (a : nat) (last : option exn),
      Z.of_nat (a + n) = max_retries ->
      exists w_last before after,
        retry_for sdk max_retries backoff fname func
                  (map Z.of_nat (seq a (S n))) d last w = (Raise e, w')
        /\ call fname func w_last = (Raise e, w')
        /\ trace w_last = (trace w ++ before)%list
        /\ trace w' = (trace w_last ++ Invoke fname :: after)%list
        /\ forallb is_request_event after = true
        /\ invocations fname before = n
        /\ sleeps before = delays d backoff n.
Proof.
  intros Hreq.
  induction 1 as [d w e w' Hcall | n d w e1 w1 e w' Hcall _ IH];
    intros Hsl a last Ha.
  - pose proof Hcall as Ef. unfold call in Ef.
    destruct (Hreq _ _ _ Ef) as [evs [Ht Hall]].
    exists w, [], evs. simpl. rewrite Hcall.
    replace (Z.of_nat a =? max_retries)%Z with true
      by (symmetry; apply Z.eqb_eq; lia).
    repeat split; try reflexivity.
    + now rewrite app_nil_r.
    + rewrite Ht. simpl. now rewrite <- app_assoc.
    + exact Hall.
  - pose proof Hcall as Ef. unfold call in Ef.
    destruct (Hreq _ _ _ Ef) as [evs [Ht Hall]].
    simpl in Hsl. apply Forall_cons_iff in Hsl as [Hd Hrest].
    destruct (IH Hrest (S a) (Some e1))
      as [w_last [before [after [Hrun [Hlast [Hb [Ha' [Hr [Hi Hs]]]]]]]]].
    { lia. }
    exists w_last, (Invoke fname :: evs ++ Sleep d :: before)%list, after.
    split.
    { change (map Z.of_nat (seq a (S (S n))))
        with (Z.of_nat a :: map Z.of_nat (seq (S a) (S n))).
      cbn [retry_for]. rewrite Hcall.
      replace (Z.of_nat a =? max_retries)%Z with false
        by (symmetry; apply Z.eqb_neq; lia).
      rewrite (time_sleep_sleepable _ _ Hd). exact Hrun. }
    split; [exact Hlast|]. split.
    { rewrite Hb. unfold after_sleep. simpl. rewrite Ht. simpl.
      rewrite <- !app_assoc. reflexivity. }
    split; [exact Ha'|]. split; [exact Hr|]. split.
    { simpl. rewrite String.eqb_refl, invocations_app. simpl.
      rewrite (requests_have_no_invocations _ _ Hall), Hi. reflexivity. }
    { simpl. rewrite sleeps_app. simpl.
      rewrite (requests_have_no_sleeps _ Hall), Hs. reflexivity. }
Qed.

(** A function that fails wherever it is called fails at every attempt
    of any run. *)
Lemma always_fails_every_attempt :
  always_fails func ->
  forall (n : nat) (d : Q) (w : World E),
    exists e w', fails_every_attempt sdk fname func backoff n d w e w'.
Proof.
  intros Hfail. induction n as [|n IH]; intros d w.
  - destruct (Hfail (log (Invoke fname) w)) as [e [w' Ef]].
    exists e, w'. now constructor.
  - destruct (Hfail (log (Invoke fname) w)) as [e1 [w1 Ef]].
    destruct (IH (d * backoff) (after_sleep sdk d w1)) as [e [w' Hrest]].
    exists e, w'. econstructor; [exact Ef | exact Hrest].
Qed.

Lemma retry_for_exhausts :
  always_fails func -> only_requests func ->
  forall (n a : nat) (d : Q) (last : option exn) (w : World E),
    Forall sleepable (delays d backoff n) ->
    Z.of_nat (a + n) = max_retries ->
    exists e w_last w' before after,
      retry_for sdk max_retries backoff fname func
                (map Z.of_nat (seq a (S n))) d last w = (Raise e, w')
      /\ call fname func w_last = (Raise e, w')
      /\ trace w_last = (trace w ++ before)%list
      /\ trace w' = (trace w_last ++ Invoke fname :: after)%list
      /\ forallb is_request_event after = true
      /\ invocations fname before = n
      /\ sleeps before = delays d backoff n.
Proof.
  intros Hfail Hreq n a d last w Hsl Ha.
  destruct (always_fails_every_attempt Hfail n d w) as [e [w' Hrun]].
  destruct (retry_for_fails_every_attempt Hreq _ _ _ _ _ Hrun Hsl a last Ha)
    as [w_last [before [after H]]].
  exists e, w_last, w', before, after. exact H.
Qed.

(** When the call fails [n] times and then returns, with [n] attempts to
    spare, the loop returns what the call returned. *)
Lemma retry_for_recovers (n : nat) (d : Q) (w : World E) (a : A)
      (w' : World E) :
  fails_then_succeeds sdk fname func backoff n d w a w' ->
  forall (first : nat) (later : list Z) (last : option exn),
    (Z.of_nat (first + n) <= max_retries)%Z ->
    retry_for sdk max_retries backoff fname func
              (map Z.of_nat (seq first (S n)) ++ later) d last w
    = (Ok a, w').
Proof.
  induction 1 as [d w a w' Hcall | n d w e w1 w2 a w' Hcall Hsleep _ IH];
    intros first later last Hle.
  - simpl. rewrite Hcall. reflexivity.
  - change (map Z.of_nat (seq first (S (S n))) ++ later)%list
      with (Z.of_nat first :: (map Z.of_nat (seq (S first) (S n)) ++ later))%list.
    cbn [retry_for]. rewrite Hcall.
    replace (Z.of_nat first =? max_retries)%Z with false
      by (symmetry; apply Z.eqb_neq; lia).
    rewrite Hsleep. apply IH. lia.
Qed.

End RetryFacts.




(* ------------------------------------------------------------------ *)
(** ** What follows the existence check *)

Section AfterCheck.

Context {E : Type}.
Variable sdk : SDK E.
Variables s3_bucket s3_key : string.

(** Whatever the check answers, [replicate] only adds to what the check
    left. *)
Lemma replicate_after_check (w w1 w' : World E) (r1 : result bool)
      (r : result dict) :
  _check_file_exists_in_gcs sdk (sanitize_gcs_object_name s3_key) (tick w)
  = (r1, w1) ->
  replicate sdk s3_bucket s3_key w = (r, w') ->
  extends (fun _ => true) w1 w'.
Proof.
  intros H1 H. destruct r1 as [[|]|e].
  - rewrite (@replicate_skips _ sdk s3_bucket _ _ _ H1) in H. inversion H.
    apply extends_same_trace. reflexivity.
  - destruct (_download_from_s3 sdk s3_bucket s3_key w1)
      as [[stream|e] w2] eqn:H2.
    + assert (extends (fun _ => true) w1 w2) as X12.
      { eapply extends_weaken; [|eapply download_extends; exact H2]. auto. }
      destruct (_upload_to_gcs sdk stream (sanitize_gcs_object_name s3_key)
                  (Some (transfer_metadata s3_bucket s3_key
                           (clock sdk (ticks w2)))) (tick w2))
        as [[[]|e] w3] eqn:H3.
      * rewrite (@replicate_succeeds _ sdk _ _ _ _ _ _ _ H1 H2 H3) in H. inversion H.
        eapply extends_trans; [exact X12|].
        destruct (upload_extends sdk _ _ _ _ _ _ H3) as [evs [Ht Hall]].
        exists evs. split; [exact Ht | exact Hall].
      * rewrite (@replicate_write_raises _ sdk _ _ _ _ _ _ _ _ H1 H2 H3) in H. inversion H.
        eapply extends_trans; [exact X12|].
        destruct (upload_extends sdk _ _ _ _ _ _ H3) as [evs [Ht Hall]].
        exists evs. split; [exact Ht | exact Hall].
    + rewrite (@replicate_fetch_raises _ sdk _ _ _ _ _ _ H1 H2) in H. inversion H.
      change (extends (fun _ : event => true) w1 w2).
      eapply extends_weaken; [|eapply download_extends; exact H2]. auto.
  - rewrite (@replicate_check_raises _ sdk s3_bucket _ _ _ _ H1) in H. inversion H.
    apply extends_same_trace. reflexivity.
Qed.

(** After a check that answered [False], the fetch is called. *)
Lemma replicate_calls_fetch (w w1 w' : World E) (r : result dict) :
  _check_file_exists_in_gcs sdk (sanitize_gcs_object_name s3_key) (tick w)
  = (Ok false, w1) ->
  replicate sdk s3_bucket s3_key w = (r, w') ->
  (1 <= invocations "_download_from_s3" (new_events w w'))%nat.
Proof.
  intros H1 H.
  destruct (check_extends sdk _ _ _ _ H1) as [evs1 [Ht1 _]]. simpl in Ht1.
  destruct (_download_from_s3 sdk s3_bucket s3_key w1) as [r2 w2] eqn:H2.
  assert (exists evs2, trace w2 = (trace w1 ++ Invoke "_download_from_s3"
                                      :: evs2)%list) as [evs2 Ht2].
  { unfold _download_from_s3, retry_with_backoff in H2.
    change (range (3 + 1)) with [0; 1; 2; 3]%Z in H2.
    eapply retry_for_calls_first; [|exact H2].
    intros w0 r0 w0' H0.
    eapply extends_weaken; [|eapply download_wrapped_only_requests; exact H0].
    auto. }
  assert (extends (fun _ => true) w2 w') as [evs3 [Ht3 _]].
  { destruct r2 as [stream|e].
    - destruct (_upload_to_gcs sdk stream (sanitize_gcs_object_name s3_key)
                  (Some (transfer_metadata s3_bucket s3_key
                           (clock sdk (ticks w2)))) (tick w2))
        as [[[]|e] w3] eqn:H3.
      + rewrite (@replicate_succeeds _ sdk _ _ _ _ _ _ _ H1 H2 H3) in H. inversion H.
        destruct (upload_extends sdk _ _ _ _ _ _ H3) as [evs [Ht Hall]].
        exists evs. split; [exact Ht | exact Hall].
      + rewrite (@replicate_write_raises _ sdk _ _ _ _ _ _ _ _ H1 H2 H3) in H. inversion H.
        destruct (upload_extends sdk _ _ _ _ _ _ H3) as [evs [Ht Hall]].
        exists evs. split; [exact Ht | exact Hall].
    - rewrite (@replicate_fetch_raises _ sdk _ _ _ _ _ _ H1 H2) in H. inversion H.
      apply extends_same_trace. reflexivity. }
  rewrite (new_events_app w w'
             (evs1 ++ Invoke "_download_from_s3" :: evs2 ++ evs3)%list).
  - rewrite invocations_app. simpl. lia.
  - rewrite Ht3, Ht2, Ht1. rewrite <- !app_assoc. reflexivity.
Qed.

End AfterCheck.

(** C5, as the specification words it, fails: a transport error of the
    existence query is not answered [False]; the check raises it, no fetch
    is attempted, and the outcome is ["failed"] with that error in it. *)
Lemma existence_check_error_can_fail_replication :
  fst (_check_file_exists_in_gcs unreachable_sdk "data/file.csv"
         (tick example_world))
  = Raise (OtherException "ConnectionError" "Connection reset by peer")
  /\ exists o w',
      replicate unreachable_sdk "src" "/data/file.csv" example_world
      = (Ok o, w')
      /\ status o = Some (VStr "failed")
      /\ dict_get "error" o
         = Some (VStr "Unexpected error: Connection reset by peer")
      /\ invocations "_download_from_s3" (new_events example_world w') = 0%nat.
Proof.
  split; [reflexivity|].
  eexists; eexists; split; [vm_compute; reflexivity|].
  repeat split.
Qed.

(** The same happens when the error comes from building the destination
    client, inside the [target_bucket] property. *)
Lemma bucket_handle_error_fails_replication :
  exists o w',
    replicate no_gcs_credentials "src" "/data/file.csv" example_world
    = (Ok o, w')
    /\ status o = Some (VStr "failed")
    /\ dict_get "error" o
       = Some (VStr ("Unexpected error: Failed to access target GCS bucket: "
                       ++ "GCS client initialization failed: "
                       ++ "could not determine credentials"))
    /\ new_events example_world w' = [StorageClient].
Proof.
  eexists; eexists; split; [vm_compute; reflexivity|].
  repeat split.
Qed.

(* ------------------------------------------------------------------ *)
(** ** Fetch and write *)

Lemma invocations_none (fname : string) (allowed : event -> bool)
      (evs : list event) :
  (forall f, allowed (Invoke f) = true -> String.eqb f fname = false) ->
  forallb allowed evs = true -> invocations fname evs = 0%nat.
Proof.
  intros Hno. induction evs as [|ev evs IH]; [reflexivity|]. simpl.
  intros H. apply andb_prop in H as [Hev H].
  destruct ev; simpl; auto. now rewrite (Hno _ Hev), IH.
Qed.

Lemma uploads_none (allowed : event -> bool) (evs : list event) :
  (forall name md data, allowed (UploadFromFile name md data) = false) ->
  forallb allowed evs = true -> uploads evs = [].
Proof.
  intros Hno. induction evs as [|ev evs IH]; [reflexivity|]. simpl.
  intros H. apply andb_prop in H as [Hev H].
  destruct ev; simpl; auto. now rewrite Hno in Hev.
Qed.

Section FetchAndWrite.

Context {E : Type}.
Variable sdk : SDK E.

(** A successful sleep records itself and nothing else. *)
Lemma time_sleep_ok (d : Q) (w w' : World E) :
  time_sleep sdk d w = (Ok tt, w') ->
  trace w' = (trace w ++ [Sleep d])%list.
Proof.
  intros H.
  destruct (time_sleep_inv sdk _ _ _ _ H) as [[_ [-> _]] | [e [He _]]];
    [reflexivity | discriminate He].
Qed.

(** Along a run of failures ended by a success, the function is called
    once more than it failed and each failure is followed by one sleep. *)
Lemma fails_then_succeeds_counts {A : Type} (fname : string) (func : M E A)
      (backoff : Q) (n : nat) (d : Q) (w : World E) (a : A) (w' : World E) :
  only_requests func ->
  fails_then_succeeds sdk fname func backoff n d w a w' ->
  exists evs,
    trace w' = (trace w ++ evs)%list
    /\ invocations fname evs = S n
    /\ sleeps evs = delays d backoff n.
Proof.
  intros Hreq.
  induction 1 as [d w a w' Hcall | n d w e w1 w2 a w' Hcall Hsleep _ IH].
  - unfold call in Hcall. destruct (Hreq _ _ _ Hcall) as [evs [Ht Hall]].
    exists (Invoke fname :: evs). split; [|split].
    + rewrite Ht. simpl. now rewrite <- app_assoc.
    + simpl. now rewrite String.eqb_refl,
        (requests_have_no_invocations _ _ Hall).
    + simpl. apply requests_have_no_sleeps. exact Hall.
  - unfold call in Hcall. destruct (Hreq _ _ _ Hcall) as [evs [Ht Hall]].
    destruct IH as [evs' [Ht' [Hi Hs]]].
    exists (Invoke fname :: evs ++ Sleep d :: evs')%list. split; [|split].
    + rewrite Ht', (time_sleep_ok _ _ _ Hsleep), Ht. simpl.
      rewrite <- !app_assoc. reflexivity.
    + simpl. rewrite String.eqb_refl, invocations_app. simpl.
      rewrite (requests_have_no_invocations _ _ Hall), Hi. reflexivity.
    + simpl. rewrite sleeps_app. simpl.
      rewrite (requests_have_no_sleeps _ Hall), Hs. reflexivity.
Qed.

(** The handlers of [_upload_to_gcs] always raise. *)
Lemma upload_wrapped_ok (stream : BytesIO) (object_name : string)
      (metadata : option (list (string * string))) (w w' : World E) :
  _upload_to_gcs_wrapped sdk stream object_name metadata w = (Ok tt, w') ->
  exists evs,
    trace w' = (trace w ++ evs
                  ++ [UploadFromFile object_name
                        (if truthy metadata then metadata else None)
                        (buffer stream)])%list
    /\ forallb check_event evs = true.
Proof.
  unfold _upload_to_gcs_wrapped, try_except, bind. intros H.
  destruct (target_bucket sdk w) as [[b|e] w1] eqn:Hb.
  - destruct (target_bucket_extends sdk _ _ _ Hb) as [evs [Ht Hall]].
    unfold request in H. simpl in H.
    destruct (upload_from_file sdk object_name
                (if truthy metadata then metadata else None)
                (BytesIO_read (BytesIO_seek stream 0)) (env w1))
      as [[[]|e] s'] eqn:Hu.
    + inversion H; subst. exists evs. split; [|exact Hall].
      simpl. rewrite Ht. now rewrite <- app_assoc.
    + simpl in H. destruct (is_GoogleCloudError e); discriminate H.
  - simpl in H. destruct (is_GoogleCloudError e); discriminate H.
Qed.

End FetchAndWrite.

Lemma check_events_have_no_calls (fname : string) (evs : list event) :
  forallb check_event evs = true ->
  invocations fname evs = 0%nat /\ uploads evs = [] /\ sleeps evs = [].
Proof.
  induction evs as [|ev evs IH]; [now repeat split|]. simpl.
  intros H. apply andb_prop in H as [Hev H].
  destruct ev; try discriminate Hev; simpl; auto.
Qed.

Lemma fetch_events_have_no_write (evs : list event) :
  forallb (fun ev => is_fetch_event ev || is_sleep ev) evs = true ->
  invocations "_upload_to_gcs" evs = 0%nat /\ uploads evs = [].
Proof.
  intros H. split.
  - eapply invocations_none; [|exact H]. simpl. intros f Hf.
    rewrite orb_false_r in Hf. apply String.eqb_eq in Hf. now subst f.
  - eapply uploads_none; [|exact H]. reflexivity.
Qed.

(** C9.  When the existence check answers [False], the fetch fails on
    three calls in a row (the retry budget of the decorator) and returns
    on the fourth, and the write returns on its first call, [replicate]
    returns status ["success"]; the fetch was called four times, the write
    once, and one upload was requested, of the bytes fetched, under the
    derived object name. *)
Theorem write_once_after_fetch_recovers {E : Type} (sdk : SDK E)
        (s3_bucket s3_key : string) (w w1 w2 w3 : World E)
        (stream : BytesIO) :
  _check_file_exists_in_gcs sdk (sanitize_gcs_object_name s3_key) (tick w)
  = (Ok false, w1) ->
  fails_then_succeeds sdk "_download_from_s3"
    (_download_from_s3_wrapped sdk s3_bucket s3_key) 2 3 1 w1 stream w2 ->
  call "_upload_to_gcs"
    (_upload_to_gcs_wrapped sdk stream (sanitize_gcs_object_name s3_key)
       (Some (transfer_metadata s3_bucket s3_key (clock sdk (ticks w2)))))
    (tick w2) = (Ok tt, w3) ->
  exists o w',
    replicate sdk s3_bucket s3_key w = (Ok o, w')
    /\ status o = Some (VStr "success")
    /\ invocations "_download_from_s3" (new_events w w') = 4%nat
    /\ invocations "_upload_to_gcs" (new_events w w') = 1%nat
    /\ uploads (new_events w w')
       = [(sanitize_gcs_object_name s3_key, buffer stream)].
Proof.
  intros Hcheck Hfetch Hwrite.
  assert (_download_from_s3 sdk s3_bucket s3_key w1 = (Ok stream, w2)) as Hdl.
  { unfold _download_from_s3, retry_with_backoff.
    change (range (3 + 1)) with (map Z.of_nat (seq 0 4) ++ [])%list.
    eapply retry_for_recovers; [exact Hfetch | simpl; lia]. }
  assert (_upload_to_gcs sdk stream (sanitize_gcs_object_name s3_key)
            (Some (transfer_metadata s3_bucket s3_key (clock sdk (ticks w2))))
            (tick w2) = (Ok tt, w3)) as Hul.
  { unfold _upload_to_gcs, retry_with_backoff.
    change (range (3 + 1)) with (map Z.of_nat (seq 0 1) ++ [1; 2; 3]%Z)%list.
    eapply retry_for_recovers; [apply succeeds_now; exact Hwrite | simpl; lia]. }
  eexists; eexists.
  split; [eapply replicate_succeeds; eassumption|].
  split; [reflexivity|].
  destruct (check_extends sdk _ _ _ _ Hcheck) as [evs_c [Hc Hc_all]].
  simpl in Hc.
  destruct (@fails_then_succeeds_counts _ sdk _ _ _ _ _ _ _ _ _
              (download_wrapped_only_requests sdk s3_bucket s3_key) Hfetch)
    as [evs_f [Hf [Hf_calls _]]].
  destruct (download_extends sdk _ _ _ _ _ Hdl) as [evs_f' [Hf' Hf_all]].
  assert (evs_f' = evs_f) as ->
      by (eapply app_inv_head; rewrite <- Hf, <- Hf'; reflexivity).
  unfold call in Hwrite.
  destruct (upload_wrapped_ok sdk _ _ _ _ _ Hwrite) as [evs_u [Hu Hu_all]].
  simpl in Hu.
  rewrite (new_events_app w (tick w3)
             (evs_c ++ evs_f ++ Invoke "_upload_to_gcs" :: evs_u
                ++ [UploadFromFile (sanitize_gcs_object_name s3_key)
                      (Some (transfer_metadata s3_bucket s3_key
                               (clock sdk (ticks w2))))
                      (buffer stream)])%list).
  2:{ simpl. rewrite Hu, Hf, Hc. rewrite <- !app_assoc. reflexivity. }
  destruct (check_events_have_no_calls "_download_from_s3" _ Hc_all)
    as [Hc1 _].
  destruct (check_events_have_no_calls "_upload_to_gcs" _ Hc_all)
    as [Hc2 [Hc3 _]].
  destruct (check_events_have_no_calls "_download_from_s3" _ Hu_all)
    as [Hu1 _].
  destruct (check_events_have_no_calls "_upload_to_gcs" _ Hu_all)
    as [Hu2 [Hu3 _]].
  destruct (fetch_events_have_no_write _ Hf_all) as [Hf2 Hf3].
  repeat rewrite ?invocations_app, ?uploads_app; simpl.
  repeat rewrite ?invocations_app, ?uploads_app; simpl.
  rewrite Hc1, Hc2, Hc3, Hu1, Hu2, Hu3, Hf_calls, Hf2, Hf3.
  repeat split.
Qed.

Lemma write_once_after_fetch_recovers_witness :
  exists o w',
    replicate recovering_sdk "src" "/data/file.csv" example_world = (Ok o, w')
    /\ status o = Some (VStr "success")
    /\ invocations "_download_from_s3" (new_events example_world w') = 4%nat
    /\ invocations "_upload_to_gcs" (new_events example_world w') = 1%nat
    /\ uploads (new_events example_world w')
       = [(sanitize_gcs_object_name "/data/file.csv",
           buffer {| buffer := example_bytes; position := 0 |})].
Proof.
  eapply (@write_once_after_fetch_recovers nat recovering_sdk
            "src" "/data/file.csv" example_world).
  - vm_compute. reflexivity.
  - eapply fails_first; [vm_compute; reflexivity | vm_compute; reflexivity |].
    eapply fails_first; [vm_compute; reflexivity | vm_compute; reflexivity |].
    eapply fails_first; [vm_compute; reflexivity | vm_compute; reflexivity |].
    apply succeeds_now. vm_compute. reflexivity.
  - vm_compute. reflexivity.
Defined.

(* ------------------------------------------------------------------ *)
(** ** The bytes fetched *)

Lemma BytesIO_write_at_end (stream : BytesIO) (chunk : list byte) :
  position stream = List.length (buffer stream) ->
  buffer (BytesIO_write stream chunk) = (buffer stream ++ chunk)%list
  /\ position (BytesIO_write stream chunk)
     = List.length (buffer (BytesIO_write stream chunk)).
Proof.
  intros Hp. unfold BytesIO_write. simpl. rewrite Hp.
  rewrite firstn_all, skipn_all2 by lia. rewrite app_nil_r.
  split; [reflexivity|]. now rewrite length_app.
Qed.

(** The loop of [_download_from_s3] collects what the body streams. *)
Lemma read_chunks_streamed (amt : Z) (body : StreamingBody) :
  forall stream stream',
    position stream = List.length (buffer stream) ->
    read_chunks amt body stream = Ok stream' ->
    buffer stream' = (buffer stream ++ streamed amt body)%list
    /\ position stream' = List.length (buffer stream').
Proof.
  induction body as [|e|chunk rest IH]; intros stream stream' Hp H; simpl in *.
  - inversion H; subst. now rewrite app_nil_r.
  - discriminate H.
  - destruct (chunk amt) as [|c0 cs] eqn:Ec.
    + inversion H; subst. now rewrite app_nil_r.
    + destruct (BytesIO_write_at_end stream (c0 :: cs) Hp) as [Hb Hp'].
      destruct (IH amt _ _ Hp' H) as [Hb' Hp''].
      split; [|exact Hp''].
      rewrite Hb', Hb, <- app_assoc. reflexivity.
Qed.

(** An object body read without error streams all of its content to a
    reader that asks for one byte or more at a time. *)
Lemma streamed_body_with (amt : Z) (reads : nat) :
  (0 < amt)%Z ->
  forall content,
    (List.length content <= reads)%nat ->
    streamed amt (body_with reads content) = content.
Proof.
  intros Hamt. induction reads as [|reads IH]; intros content Hlen.
  - destruct content; [reflexivity | simpl in Hlen; lia].
  - simpl. unfold take_amt, drop_amt.
    replace (amt <? 0)%Z with false by (symmetry; apply Z.ltb_ge; lia).
    destruct content as [|c content]; [now rewrite firstn_nil|].
    destruct (Z.to_nat amt) as [|k] eqn:Ek; [lia|].
    cbn [firstn skipn]. rewrite IH.
    + cbn [app]. now rewrite firstn_skipn.
    + rewrite length_skipn. simpl in Hlen. lia.
Qed.

Lemma streamed_body_of_bytes (amt : Z) (content : list byte) :
  (0 < amt)%Z -> streamed amt (body_of_bytes content) = content.
Proof. intros H. apply streamed_body_with; [exact H | apply Nat.le_refl]. Qed.

(** A reader that asks for everything at once ([read(-1)]) gets all of
    the content in one chunk. *)
Lemma streamed_body_with_all (amt : Z) (reads : nat) :
  (amt < 0)%Z ->
  forall content,
    (List.length content <= reads)%nat ->
    streamed amt (body_with reads content) = content.
Proof.
  intros Hamt. induction reads as [|reads IH]; intros content Hlen.
  - destruct content; [reflexivity | simpl in Hlen; lia].
  - simpl. unfold take_amt, drop_amt.
    replace (amt <? 0)%Z with true by (symmetry; apply Z.ltb_lt; lia).
    destruct content as [|c content]; [reflexivity|].
    rewrite IH by (simpl; lia). now rewrite app_nil_r.
Qed.

Lemma streamed_whole_content (amt : Z) (content : list byte) :
  amt <> 0%Z -> streamed amt (body_of_bytes content) = content.
Proof.
  intros H. destruct (Z.lt_trichotomy amt 0) as [Hlt | [Heq | Hgt]].
  - apply streamed_body_with_all; [exact Hlt | apply Nat.le_refl].
  - contradiction.
  - apply streamed_body_of_bytes. lia.
Qed.

Section Fetched.

Context {E : Type}.
Variable sdk : SDK E.

Lemma later_than_refl (w : World E) : later_than w w.
Proof. split; [apply frame_refl | apply extends_refl]. Qed.

Lemma later_than_trans (w1 w2 w3 : World E) :
  later_than w1 w2 -> later_than w2 w3 -> later_than w1 w3.
Proof.
  intros [F1 X1] [F2 X2].
  split; [eapply frame_trans | eapply extends_trans]; eassumption.
Qed.

Lemma later_than_same (w w' : World E) :
  (ticks w <= ticks w')%nat ->
  config (self w') = config (self w) ->
  (_target_bucket (self w) <> None -> _target_bucket (self w') <> None) ->
  (exists evs, trace w' = (trace w ++ evs)%list) ->
  later_than w w'.
Proof.
  intros H1 H2 H3 [evs H4]. split; [now repeat split|].
  exists evs. split; [exact H4|]. apply forallb_forall. reflexivity.
Qed.

(** A value a decorated function returns was returned by a call of the
    function, made later than the decorated call. *)
Lemma decorated_returns_a_call {A : Type} (max_retries : Z)
      (delay backoff : Q) (fname : string) (func : M E A)
      (w : World E) (a : A) (w' : World E) :
  respects later_than func ->
  retry_with_backoff sdk max_retries delay backoff fname func w = (Ok a, w') ->
  exists w_last, later_than w w_last /\ call fname func w_last = (Ok a, w').
Proof.
  intros Hf H. unfold retry_with_backoff in H.
  eapply (@retry_for_returns_a_call E sdk later_than (fun _ => true));
    try eassumption; try reflexivity.
  - apply later_than_refl.
  - apply later_than_trans.
  - intros ev w0 _. apply later_than_same; simpl; auto. now exists [ev].
  - intros s w0. apply later_than_same; simpl; auto.
    exists []. now rewrite app_nil_r.
Qed.

Lemma download_wrapped_later (bucket key : string) :
  respects later_than (_download_from_s3_wrapped sdk bucket key).
Proof.
  intros w r w' H. split.
  - eapply download_wrapped_frame; exact H.
  - eapply extends_weaken;
      [|eapply download_wrapped_only_requests; exact H]. auto.
Qed.

Lemma upload_wrapped_later (stream : BytesIO) (object_name : string)
      (metadata : option (list (string * string))) :
  respects later_than (_upload_to_gcs_wrapped sdk stream object_name metadata).
Proof.
  intros w r w' H. split.
  - eapply upload_wrapped_frame; exact H.
  - eapply extends_weaken;
      [|eapply upload_wrapped_only_requests; exact H]. auto.
Qed.

(** What [_download_from_s3] returns, when it returns: the bytes streamed
    by the body of a [get_object] response, rewound. *)
Lemma download_wrapped_ok (bucket key : string) (w w' : World E)
      (stream : BytesIO) :
  _download_from_s3_wrapped sdk bucket key w = (Ok stream, w') ->
  exists w_get body s',
    get_object sdk bucket key (env w_get) = (Ok body, s')
    /\ w' = set_env s' (log (GetObject bucket key) w_get)
    /\ buffer stream = streamed (chunk_size (config (self w))) body
    /\ position stream = 0%nat.
Proof.
  unfold _download_from_s3_wrapped, try_except. intros H.
  match type of H with
  | (let (_, _) := ?m w in _) = _ => destruct (m w) as [[s|e] w1] eqn:Hbody
  end.
  2:{ cbn [dispatch] in H. destruct (is_ClientError e).
      - unfold bind, lift, raise in H.
        destruct (error_code e) as [code|e1]; [|discriminate H].
        destruct (String.eqb code "NoSuchKey"); [discriminate H|].
        destruct (String.eqb code "NoSuchBucket"); discriminate H.
      - discriminate H. }
  inversion H; subst s w1. clear H. unfold bind in Hbody.
  destruct (s3_client sdk w) as [[c|e] wa] eqn:Ea; [|discriminate Hbody].
  unfold request at 1 in Hbody. simpl in Hbody.
  destruct (head_object sdk bucket key (env wa)) as [[size|e] sb];
    [|discriminate Hbody].
  match type of Hbody with
  | context [s3_client sdk ?wb] =>
      destruct (s3_client sdk wb) as [[c'|e] wc] eqn:Ec;
        [|discriminate Hbody];
        assert (config (self wc) = config (self w)) as Hcfg
  end.
  { destruct (s3_client_frame sdk _ _ _ Ec) as [_ [C2 _]].
    destruct (s3_client_frame sdk _ _ _ Ea) as [_ [C1 _]].
    rewrite C2. simpl. exact C1. }
  unfold request in Hbody. simpl in Hbody.
  destruct (get_object sdk bucket key (env wc)) as [[body|e] sd] eqn:Eg;
    [|discriminate Hbody].
  unfold get_self, lift, ret in Hbody. simpl in Hbody.
  rewrite Hcfg in Hbody.
  destruct (read_chunks (chunk_size (config (self w))) body BytesIO_new)
    as [s0|e] eqn:Er; [|discriminate Hbody].
  inversion Hbody; subst. exists wc, body, sd.
  split; [exact Eg|]. split; [reflexivity|].
  destruct (read_chunks_streamed _ body BytesIO_new s0 eq_refl Er) as [Hb _].
  simpl. split; [exact Hb | reflexivity].
Qed.

End Fetched.

(** C8, as the specification words it, fails.  [duration_seconds] is the
    difference of two readings of the wall clock: when the clock is set
    back during the call, a successful replication reports a negative
    duration.  And the bytes the fetch produces are those of the reads it
    makes: with a chunk size of zero the first read is empty, and the
    replication of a four-byte object succeeds with an empty upload and
    [size_bytes = 0]. *)
Lemma success_can_report_negative_duration :
  (exists o w',
      replicate rewound_sdk "src" "/data/file.csv" example_world = (Ok o, w')
      /\ status o = Some (VStr "success")
      /\ dict_get "size_bytes" o = Some (VInt 4)
      /\ exists duration,
          dict_get "duration_seconds" o = Some (VFloat duration)
          /\ duration < 0)
  /\ (exists o w',
         replicate absent_sdk "src" "/data/file.csv"
                   (initial_world unchunked_config 0%nat) = (Ok o, w')
         /\ status o = Some (VStr "success")
         /\ dict_get "size_bytes" o = Some (VInt 0)
         /\ uploads (new_events (initial_world unchunked_config 0%nat) w')
            = [("data/file.csv", [])]
         /\ (forall n, get_object absent_sdk "src" "/data/file.csv" n
                       = (Ok (body_of_bytes example_bytes), n))
         /\ List.length example_bytes = 4%nat).
Proof.
  split.
  - eexists; eexists. split; [vm_compute; reflexivity|].
    split; [reflexivity|]. split; [reflexivity|].
    eexists. split; reflexivity.
  - eexists; eexists. split; [vm_compute; reflexivity|].
    repeat split.
Qed.

(** C8, amended.  When the existence check answers [False] and both the
    fetch and the write return, [replicate] returns status ["success"].
    ["size_bytes"] is the number of bytes of the stream the fetch
    returned: the bytes that the body of the [get_object] response, the
    last request of the fetch, delivers up to its first empty read when
    asked for [chunk_size] bytes at a time, which are all the bytes of the
    object unless [chunk_size] is zero; they are the bytes sent in the
    upload.  ["duration_seconds"] is the reading of the clock at the end
    less the reading at the start, taken earlier: at least zero when the
    clock did not go back. *)
Theorem success_reports_bytes_fetched {E : Type} (sdk : SDK E)
        (s3_bucket s3_key : string) (w w1 w2 w3 : World E)
        (stream : BytesIO) :
  _check_file_exists_in_gcs sdk (sanitize_gcs_object_name s3_key) (tick w)
  = (Ok false, w1) ->
  _download_from_s3 sdk s3_bucket s3_key w1 = (Ok stream, w2) ->
  _upload_to_gcs sdk stream (sanitize_gcs_object_name s3_key)
    (Some (transfer_metadata s3_bucket s3_key (clock sdk (ticks w2))))
    (tick w2) = (Ok tt, w3) ->
  replicate sdk s3_bucket s3_key w
  = (Ok (success_outcome (source_uri s3_bucket s3_key)
           (destination_uri (config (self w)) s3_key)
           (clock sdk (ticks w3) - clock sdk (ticks w))
           (Z.of_nat (List.length (buffer stream)))),
     tick w3)
  /\ (ticks w < ticks w3)%nat
  /\ (clock sdk (ticks w) <= clock sdk (ticks w3) ->
      0 <= clock sdk (ticks w3) - clock sdk (ticks w))
  /\ (monotone_clock sdk ->
      0 <= clock sdk (ticks w3) - clock sdk (ticks w))
  /\ (exists w_get body s',
         get_object sdk s3_bucket s3_key (env w_get) = (Ok body, s')
         /\ w2 = set_env s' (log (GetObject s3_bucket s3_key) w_get)
         /\ buffer stream = streamed (chunk_size (config (self w))) body
         /\ forall content,
             body = body_of_bytes content ->
             chunk_size (config (self w)) <> 0%Z ->
             buffer stream = content)
  /\ In (UploadFromFile (sanitize_gcs_object_name s3_key)
            (Some (transfer_metadata s3_bucket s3_key (clock sdk (ticks w2))))
            (buffer stream))
        (new_events w (tick w3)).
Proof.
  intros Hcheck Hdl Hul.
  destruct (check_frame sdk _ _ _ _ Hcheck) as [Tc [Cc _]].
  destruct (check_extends sdk _ _ _ _ Hcheck) as [evs_c [Hc _]].
  destruct (download_frame sdk _ _ _ _ _ Hdl) as [Td _].
  destruct (download_extends sdk _ _ _ _ _ Hdl) as [evs_f [Hf _]].
  destruct (upload_frame sdk _ _ _ _ _ _ Hul) as [Tu _].
  simpl in Tc, Cc, Hc, Tu.
  split; [eapply replicate_succeeds; eassumption|].
  split; [lia|].
  split.
  { intros Hle. unfold Qminus. apply -> Qle_minus_iff. exact Hle. }
  split.
  { intros Hclock. unfold Qminus. apply -> Qle_minus_iff. apply Hclock. lia. }
  split.
  - destruct (@decorated_returns_a_call _ sdk _ _ _ _ _ _ _ _ _
                (download_wrapped_later sdk s3_bucket s3_key) Hdl)
      as [w_last [[[_ [Cl _]] _] Hcall]].
    unfold call in Hcall.
    destruct (download_wrapped_ok sdk _ _ _ _ _ Hcall)
      as [w_get [body [s' [Hg [Hw [Hb _]]]]]].
    simpl in Hb. rewrite Cl, Cc in Hb.
    exists w_get, body, s'. split; [exact Hg|]. split; [exact Hw|].
    split; [exact Hb|].
    intros content -> Hchunk. rewrite Hb.
    apply streamed_whole_content. exact Hchunk.
  - destruct (@decorated_returns_a_call _ sdk _ _ _ _ _ _ _ _ _
                (upload_wrapped_later sdk stream
                   (sanitize_gcs_object_name s3_key)
                   (Some (transfer_metadata s3_bucket s3_key
                            (clock sdk (ticks w2))))) Hul)
      as [w_last [[_ [evs_r [Hr _]]] Hcall]].
    unfold call in Hcall.
    destruct (upload_wrapped_ok sdk _ _ _ _ _ Hcall) as [evs_u [Hu _]].
    simpl in Hr, Hu.
    rewrite (new_events_app w (tick w3)
               (evs_c ++ evs_f ++ evs_r ++ Invoke "_upload_to_gcs" :: evs_u
                  ++ [UploadFromFile (sanitize_gcs_object_name s3_key)
                        (Some (transfer_metadata s3_bucket s3_key
                                 (clock sdk (ticks w2))))
                        (buffer stream)])%list).
    + rewrite !in_app_iff. right. right. right. simpl. right.
      rewrite in_app_iff. right. now left.
    + simpl. rewrite Hu, Hr, Hf, Hc. rewrite <- !app_assoc. reflexivity.
Qed.

Lemma success_reports_bytes_fetched_witness :
  exists o w',
    replicate absent_sdk "src" "/data/file.csv" example_world = (Ok o, w')
    /\ status o = Some (VStr "success")
    /\ dict_get "size_bytes" o = Some (VInt 4)
    /\ dict_get "duration_seconds" o = Some (VFloat (2 - 0)).
Proof.
  pose (w1 := snd (_check_file_exists_in_gcs absent_sdk "data/file.csv"
                     (tick example_world))).
  pose (w2 := snd (_download_from_s3 absent_sdk "src" "/data/file.csv" w1)).
  pose (stream := {| buffer := example_bytes; position := 0 |}).
  pose (w3 := snd (_upload_to_gcs absent_sdk stream "data/file.csv"
                     (Some (transfer_metadata "src" "/data/file.csv"
                              (clock absent_sdk (ticks w2))))
                     (tick w2))).
  destruct (@success_reports_bytes_fetched nat absent_sdk
              "src" "/data/file.csv" example_world w1 w2 w3 stream)
    as [Hrun _].
  - vm_compute. reflexivity.
  - vm_compute. reflexivity.
  - vm_compute. reflexivity.
  - eexists; eexists. split; [exact Hrun|]. repeat split.
Defined.

(* ------------------------------------------------------------------ *)
(** ** Keys made of separators *)

Section SlashKeys.

Context {E : Type}.
Variable sdk : SDK E.

Lemma replicate_addresses (s3_bucket s3_key : string) :
  respects (extends (addressed_to s3_bucket s3_key))
           (replicate sdk s3_bucket s3_key).
Proof.
  by_extends; try reflexivity; simpl; intros;
    rewrite ?String.eqb_refl; reflexivity.
Qed.

(** A [try] whose only clause catches everything and raises [wrap e]
    raises nothing else. *)
Lemma try_except_wraps {A : Type} (body : M E A) (wrap : exn -> exn)
      (w w' : World E) (e : exn) :
  try_except body [(is_Exception, fun e0 => raise (wrap e0))] w = (Raise e, w')
  -> exists e0, e = wrap e0.
Proof.
  unfold try_except. destruct (body w) as [[a|e0] w1]; simpl; intros H;
    inversion H. now exists e0.
Qed.

(** The [target_bucket] property raises [ReplicationError] only. *)
Lemma target_bucket_raises (w w' : World E) (e : exn) :
  target_bucket sdk w = (Raise e, w') -> is_GoogleCloudError e = false.
Proof.
  unfold target_bucket. unfold bind at 1. unfold get_self.
  destruct (_target_bucket (self w)); [discriminate|].
  intros H. apply try_except_wraps in H as [e0 ->]. reflexivity.
Qed.

(** When it returns, the handle is cached. *)
Lemma target_bucket_caches (w w' : World E) (b : Bucket) :
  target_bucket sdk w = (Ok b, w') -> _target_bucket (self w') <> None.
Proof.
  unfold target_bucket, bind, get_self.
  destruct (_target_bucket (self w)) as [b0|] eqn:Hcached.
  - intros H. inversion H; subst. rewrite Hcached. discriminate.
  - unfold try_except.
    destruct (gcs_client sdk w) as [[c|e0] w1]; [|simpl; discriminate].
    unfold request. simpl.
    destruct (client_bucket sdk (target_gcs_bucket (config (self w))) (env w1))
      as [[b1|e1] s1]; [|simpl; discriminate].
    simpl. intros H. inversion H. simpl. discriminate.
Qed.

(** With the handle at hand, the check sends the existence query for the
    name it is given. *)
Lemma check_sends_query (object_name : string) (w w0 : World E) (b : Bucket) :
  target_bucket sdk w = (Ok b, w0) ->
  exists r s,
    _check_file_exists_in_gcs sdk object_name w
    = (r, set_env s (log (BlobExists object_name) w0)).
Proof.
  intros Hb. unfold _check_file_exists_in_gcs, try_except, bind. rewrite Hb.
  unfold request. simpl.
  destruct (blob_exists sdk object_name (env w0)) as [[found|e] s].
  - now exists (Ok found), s.
  - simpl. destruct (is_GoogleCloudError e).
    + now exists (Ok false), s.
    + now exists (Raise e), s.
Qed.

(** A check that returns leaves the handle cached. *)
Lemma check_caches (object_name : string) (w w' : World E) (found : bool) :
  _check_file_exists_in_gcs sdk object_name w = (Ok found, w') ->
  _target_bucket (self w') <> None.
Proof.
  unfold _check_file_exists_in_gcs, try_except, bind.
  destruct (target_bucket sdk w) as [[b|e] w0] eqn:Hb.
  - unfold request. simpl.
    destruct (blob_exists sdk object_name (env w0)) as [[f|e] s]; simpl.
    + intros H. inversion H. simpl. eapply target_bucket_caches; exact Hb.
    + destruct (is_GoogleCloudError e); intros H; inversion H. simpl.
      eapply target_bucket_caches; exact Hb.
  - simpl. rewrite (target_bucket_raises _ _ _ Hb). discriminate.
Qed.

(** With the handle cached, a call of the write sends one upload request,
    for the name and the bytes it is given. *)
Lemma upload_wrapped_sends (stream : BytesIO) (object_name : string)
      (metadata : option (list (string * string))) (w w' : World E)
      (r : result unit) :
  _target_bucket (self w) <> None ->
  _upload_to_gcs_wrapped sdk stream object_name metadata w = (r, w') ->
  trace w' = (trace w ++ [UploadFromFile object_name
                            (if truthy metadata then metadata else None)
                            (buffer stream)])%list.
Proof.
  intros Hcached. unfold _upload_to_gcs_wrapped, try_except, bind.
  unfold target_bucket at 1, bind, get_self.
  destruct (_target_bucket (self w)) as [b|]; [|congruence].
  unfold ret, request.
  change (BytesIO_read (BytesIO_seek stream 0)) with (buffer stream).
  cbn [env log].
  destruct (upload_from_file sdk object_name
              (if truthy metadata then metadata else None)
              (buffer stream) (env w)) as [[[]|e] s].
  - intros H. inversion H. reflexivity.
  - cbn [dispatch]. unfold raise.
    destruct (is_GoogleCloudError e); intros H; inversion H; reflexivity.
Qed.

(** The first thing a decorated function does is a call of the function;
    the rest only adds to the trace. *)
Lemma decorated_first_call {A : Type} (max_retries : Z) (delay backoff : Q)
      (fname : string) (func : M E A) (w w' : World E) (r : result A) :
  (0 <= max_retries)%Z ->
  respects (extends (fun _ => true)) func ->
  retry_with_backoff sdk max_retries delay backoff fname func w = (r, w') ->
  exists r1 w1,
    func (log (Invoke fname) w) = (r1, w1)
    /\ extends (fun _ => true) w1 w'.
Proof.
  intros Hn Hf. unfold retry_with_backoff. rewrite range_succ by exact Hn.
  cbn [seq map retry_for]. unfold call.
  destruct (func (log (Invoke fname) w)) as [[a|e] w1] eqn:Ef; intros H.
  - inversion H; subst. exists (Ok a), w'. split; [reflexivity|].
    apply extends_refl.
  - exists (Raise e), w1. split; [reflexivity|].
    destruct (Z.of_nat 0 =? max_retries)%Z.
    + inversion H; subst. apply extends_refl.
    + destruct (time_sleep sdk delay w1) as [[u|e'] w2] eqn:Es.
      * eapply extends_trans.
        -- eapply time_sleep_extends; [reflexivity | exact Es].
        -- eapply retry_for_extends; [reflexivity | reflexivity | exact Hf |].
           exact H.
      * inversion H; subst.
        eapply time_sleep_extends; [reflexivity | exact Es].
Qed.

End SlashKeys.

(** C5, amended.  When the bucket handle is available and the existence
    query raises a [GoogleCloudError], the check returns [False];
    [replicate] then behaves exactly as if the query had answered [False]
    (same outcome, same final world), and it goes on to the fetch.  Any
    other exception leaves the check, and nothing else does: the
    [ReplicationError] of a destination client or bucket handle that
    cannot be built, or what the query raised when that is not a
    [GoogleCloudError].  [replicate] then calls neither the fetch nor the
    write and returns ["failed"] with that exception in its error:
    "Unexpected error: " and its text, or the text alone for an
    [S3DownloadError] or a [GCSUploadError]. *)
Theorem gcs_error_in_existence_check_is_absorbed {E : Type} (sdk : SDK E)
        (s3_bucket s3_key : string) (w : World E) :
  (forall (w1 : World E) (b : Bucket) (e : exn) (s' : E),
      target_bucket sdk (tick w) = (Ok b, w1) ->
      blob_exists sdk (sanitize_gcs_object_name s3_key) (env w1)
      = (Raise e, s') ->
      is_GoogleCloudError e = true ->
      _check_file_exists_in_gcs sdk (sanitize_gcs_object_name s3_key) (tick w)
      = (Ok false,
         set_env s' (log (BlobExists (sanitize_gcs_object_name s3_key)) w1))
      /\ replicate sdk s3_bucket s3_key w
         = replicate (absorbing sdk) s3_bucket s3_key w
      /\ exists r w',
          replicate sdk s3_bucket s3_key w = (r, w')
          /\ (1 <= invocations "_download_from_s3" (new_events w w'))%nat)
  /\ (forall (e : exn) (w1 : World E),
         _check_file_exists_in_gcs sdk (sanitize_gcs_object_name s3_key)
                                   (tick w)
         = (Raise e, w1) ->
         is_GoogleCloudError e = false
         /\ ((exists text,
                 e = ReplicationError
                       ("Failed to access target GCS bucket: " ++ text)
                 /\ target_bucket sdk (tick w) = (Raise e, w1))
             \/ (exists b w0 s',
                    target_bucket sdk (tick w) = (Ok b, w0)
                    /\ blob_exists sdk (sanitize_gcs_object_name s3_key)
                                   (env w0) = (Raise e, s')
                    /\ w1 = set_env s'
                              (log (BlobExists
                                      (sanitize_gcs_object_name s3_key)) w0)))
         /\ replicate sdk s3_bucket s3_key w
            = (Ok (failed_outcome (error_text e) (source_uri s3_bucket s3_key)
                     (destination_uri (config (self w)) s3_key)
                     (clock sdk (ticks w1) - clock sdk (ticks w))),
               tick w1)
         /\ invocations "_download_from_s3" (new_events w (tick w1)) = 0%nat
         /\ uploads (new_events w (tick w1)) = [])
  /\ (forall (e : exn) (w1 : World E),
         target_bucket sdk (tick w) = (Raise e, w1) ->
         _check_file_exists_in_gcs sdk (sanitize_gcs_object_name s3_key)
                                   (tick w)
         = (Raise e, w1))
  /\ (forall (w0 : World E) (b : Bucket) (e : exn) (s' : E),
         target_bucket sdk (tick w) = (Ok b, w0) ->
         blob_exists sdk (sanitize_gcs_object_name s3_key) (env w0)
         = (Raise e, s') ->
         is_GoogleCloudError e = false ->
         _check_file_exists_in_gcs sdk (sanitize_gcs_object_name s3_key)
                                   (tick w)
         = (Raise e,
            set_env s'
              (log (BlobExists (sanitize_gcs_object_name s3_key)) w0))).
Proof.
  split; [|split; [|split]].
  - intros w1 b e s' Hb Hq He.
    assert (_check_file_exists_in_gcs sdk (sanitize_gcs_object_name s3_key)
              (tick w)
            = (Ok false,
               set_env s'
                 (log (BlobExists (sanitize_gcs_object_name s3_key)) w1)))
      as Hcheck.
    { unfold _check_file_exists_in_gcs, try_except, bind. rewrite Hb.
      unfold request. simpl. rewrite Hq. simpl. rewrite He. reflexivity. }
    split; [exact Hcheck|].
    split; [symmetry; apply replicate_absorbing|].
    destruct (replicate sdk s3_bucket s3_key w) as [r w'] eqn:Hrun.
    exists r, w'. split; [reflexivity|].
    eapply replicate_calls_fetch; eassumption.
  - intros e w1 Hcheck.
    assert (is_GoogleCloudError e = false
            /\ ((exists text,
                    e = ReplicationError
                          ("Failed to access target GCS bucket: " ++ text)
                    /\ target_bucket sdk (tick w) = (Raise e, w1))
                \/ (exists b w0 s',
                       target_bucket sdk (tick w) = (Ok b, w0)
                       /\ blob_exists sdk (sanitize_gcs_object_name s3_key)
                                      (env w0) = (Raise e, s')
                       /\ w1 = set_env s'
                                 (log (BlobExists
                                         (sanitize_gcs_object_name s3_key))
                                      w0)))) as [Hclass Horigin].
    { pose proof Hcheck as H.
      unfold _check_file_exists_in_gcs, try_except, bind in H.
      destruct (target_bucket sdk (tick w)) as [[b|e0] w0] eqn:Hb.
      - unfold request in H. cbn [env log] in H.
        destruct (blob_exists sdk (sanitize_gcs_object_name s3_key) (env w0))
          as [[found|e1] s'] eqn:Hq; [discriminate H|].
        cbn [dispatch] in H. unfold ret, raise in H.
        destruct (is_GoogleCloudError e1) eqn:Hg; inversion H; subst.
        split; [exact Hg|]. right. exists b, w0, s'. now repeat split.
      - cbn [dispatch] in H. unfold ret, raise in H.
        pose proof (target_bucket_raises sdk _ _ _ Hb) as Hg.
        rewrite Hg in H. inversion H; subst.
        split; [exact Hg|]. left.
        unfold target_bucket in Hb. unfold bind at 1 in Hb.
        unfold get_self in Hb.
        destruct (_target_bucket (self (tick w))); [discriminate Hb|].
        pose proof Hb as Hb'.
        apply try_except_wraps in Hb' as [e0 ->].
        exists (str e0). split; reflexivity. }
    split; [exact Hclass|]. split; [exact Horigin|].
    split; [apply (replicate_check_raises sdk s3_bucket _ _ _ _ Hcheck)|].
    destruct (check_extends sdk _ _ _ _ Hcheck) as [evs [Ht Hall]].
    simpl in Ht.
    rewrite (new_events_app w (tick w1) evs) by exact Ht.
    destruct (check_events_have_no_calls "_download_from_s3" _ Hall)
      as [Hi [Hu _]].
    split; [exact Hi | exact Hu].
  - intros e w1 Hb.
    unfold _check_file_exists_in_gcs, try_except, bind. rewrite Hb.
    cbn [dispatch]. rewrite (target_bucket_raises sdk _ _ _ Hb).
    reflexivity.
  - intros w0 b e s' Hb Hq He.
    unfold _check_file_exists_in_gcs, try_except, bind. rewrite Hb.
    unfold request. cbn [env log]. rewrite Hq. cbn [dispatch].
    rewrite He. reflexivity.
Qed.

Lemma gcs_error_in_existence_check_is_absorbed_witness :
  (replicate unavailable_sdk "src" "/data/file.csv" example_world
   = replicate (absorbing unavailable_sdk) "src" "/data/file.csv"
               example_world
   /\ exists r w',
       replicate unavailable_sdk "src" "/data/file.csv" example_world
       = (r, w')
       /\ (1 <= invocations "_download_from_s3"
                  (new_events example_world w'))%nat)
  /\ replicate unreachable_sdk "src" "/data/file.csv" example_world
     = (Ok (failed_outcome "Unexpected error: Connection reset by peer"
              "s3://src//data/file.csv" "gs://test-bucket/data/file.csv" 1),
        tick (snd (_check_file_exists_in_gcs unreachable_sdk "data/file.csv"
                     (tick example_world)))).
Proof.
  split.
  - apply (proj1 (@gcs_error_in_existence_check_is_absorbed nat
                    unavailable_sdk "src" "/data/file.csv" example_world)
             (snd (target_bucket unavailable_sdk (tick example_world)))
             MkBucket (GoogleCloudError "503 Service Unavailable") 0%nat).
    + vm_compute. reflexivity.
    + reflexivity.
    + reflexivity.
  - destruct (proj1 (proj2 (@gcs_error_in_existence_check_is_absorbed nat
                       unreachable_sdk "src" "/data/file.csv" example_world))
                (OtherException "ConnectionError" "Connection reset by peer")
                (snd (_check_file_exists_in_gcs unreachable_sdk
                        "data/file.csv" (tick example_world))))
      as [_ [_ [Hrun _]]].
    + vm_compute. reflexivity.
    + rewrite Hrun. vm_compute. reflexivity.
Defined.

(** C10.  For a key made of [n] slashes the derived object name is empty,
    and [replicate] goes on with it: every request it sends names the
    source object by the key as given and the destination object by the
    empty name; with the bucket handle at hand it sends the existence
    query for the empty name; when the check answers [False] it calls the
    fetch, and when the fetch returns it requests the upload of the bytes
    fetched under the empty name. *)
Theorem slash_only_key_is_replicated_under_empty_name {E : Type}
        (sdk : SDK E) (n : nat) (s3_bucket : string) (w : World E) :
  sanitize_gcs_object_name (slashes n) = ""
  /\ (forall r w',
         replicate sdk s3_bucket (slashes n) w = (r, w') ->
         forall ev, In ev (new_events w w') ->
           match ev with
           | BlobExists name | UploadFromFile name _ _ => name = ""
           | HeadObject bucket key | GetObject bucket key =>
               bucket = s3_bucket /\ key = slashes n
           | _ => True
           end)
  /\ (forall b w0,
         target_bucket sdk (tick w) = (Ok b, w0) ->
         forall r w',
           replicate sdk s3_bucket (slashes n) w = (r, w') ->
           In (BlobExists "") (new_events w w'))
  /\ (forall w1,
         _check_file_exists_in_gcs sdk "" (tick w) = (Ok false, w1) ->
         forall r w',
           replicate sdk s3_bucket (slashes n) w = (r, w') ->
           (1 <= invocations "_download_from_s3" (new_events w w'))%nat
           /\ forall stream w2,
               _download_from_s3 sdk s3_bucket (slashes n) w1
               = (Ok stream, w2) ->
               exists md,
                 In (UploadFromFile "" md (buffer stream))
                    (new_events w w')).
Proof.
  split; [apply sanitize_slashes|]. split; [|split].
  - intros r w' Hrun ev Hin.
    destruct (replicate_addresses sdk _ _ _ _ _ Hrun) as [evs [Ht Hall]].
    rewrite (new_events_app _ _ _ Ht) in Hin.
    rewrite forallb_forall in Hall. specialize (Hall ev Hin).
    destruct ev; simpl in Hall; try exact I.
    + rewrite sanitize_slashes in Hall. now apply String.eqb_eq in Hall.
    + apply andb_prop in Hall as [Hb Hk].
      apply String.eqb_eq in Hb, Hk. now split.
    + apply andb_prop in Hall as [Hb Hk].
      apply String.eqb_eq in Hb, Hk. now split.
    + rewrite sanitize_slashes in Hall. now apply String.eqb_eq in Hall.
  - intros b w0 Hb r w' Hrun.
    destruct (check_sends_query sdk (sanitize_gcs_object_name (slashes n))
                _ _ _ Hb)
      as [r1 [s Hcheck]].
    destruct (target_bucket_extends sdk _ _ _ Hb) as [evs0 [Ht0 _]].
    destruct (@replicate_after_check _ sdk _ _ _ _ _ _ _ Hcheck Hrun)
      as [evs1 [Ht1 _]].
    simpl in Ht0, Ht1.
    rewrite (new_events_app w w'
               (evs0 ++ BlobExists (sanitize_gcs_object_name (slashes n))
                  :: evs1)%list).
    + rewrite sanitize_slashes, in_app_iff. right. now left.
    + rewrite Ht1, Ht0. rewrite <- !app_assoc. reflexivity.
  - intros w1 Hcheck r w' Hrun.
    rewrite <- (sanitize_slashes n) in Hcheck at 1.
    split; [eapply replicate_calls_fetch; eassumption|].
    intros stream w2 Hdl.
    destruct (check_extends sdk _ _ _ _ Hcheck) as [evs_c [Hc _]].
    destruct (download_extends sdk _ _ _ _ _ Hdl) as [evs_f [Hf _]].
    assert (_target_bucket (self w2) <> None) as Hcached.
    { apply (download_frame sdk _ _ _ _ _ Hdl).
      eapply check_caches; exact Hcheck. }
    destruct (_upload_to_gcs sdk stream
                (sanitize_gcs_object_name (slashes n))
                (Some (transfer_metadata s3_bucket (slashes n)
                         (clock sdk (ticks w2)))) (tick w2))
      as [r3 w3] eqn:Hul.
    assert (w' = tick w3) as ->.
    { destruct r3 as [[]|e].
      - rewrite (@replicate_succeeds _ sdk _ _ _ _ _ _ _ Hcheck Hdl Hul)
          in Hrun. now inversion Hrun.
      - rewrite (@replicate_write_raises _ sdk _ _ _ _ _ _ _ _ Hcheck Hdl Hul)
          in Hrun. now inversion Hrun. }
    unfold _upload_to_gcs in Hul.
    assert (respects (extends (fun _ => true))
              (_upload_to_gcs_wrapped sdk stream
                 (sanitize_gcs_object_name (slashes n))
                 (Some (transfer_metadata s3_bucket (slashes n)
                          (clock sdk (ticks w2)))))) as Hgrow.
    { intros w5 r5 w5' H5.
      eapply extends_weaken;
        [|eapply upload_wrapped_only_requests; exact H5]. auto. }
    destruct (@decorated_first_call _ sdk _ 3 _ _ _ _ _ _ _
                ltac:(lia) Hgrow Hul)
      as [r1 [w4 [Hcall [evs_r [Hr _]]]]].
    apply upload_wrapped_sends in Hcall; [|exact Hcached].
    simpl in Hc, Hcall.
    rewrite sanitize_slashes in Hcall.
    exists (Some (transfer_metadata s3_bucket (slashes n)
                    (clock sdk (ticks w2)))).
    rewrite (new_events_app w (tick w3)
               (evs_c ++ evs_f ++ Invoke "_upload_to_gcs"
                  :: UploadFromFile ""
                       (Some (transfer_metadata s3_bucket (slashes n)
                                (clock sdk (ticks w2))))
                       (buffer stream) :: evs_r)%list).
    + rewrite !in_app_iff. right. right. right. now left.
    + simpl. rewrite Hr, Hcall, Hf, Hc. rewrite <- !app_assoc. reflexivity.
Qed.

Lemma slash_only_key_is_replicated_under_empty_name_witness :
  sanitize_gcs_object_name "///" = ""
  /\ exists r w',
      replicate absent_sdk "src" "///" example_world = (r, w')
      /\ In (BlobExists "") (new_events example_world w')
      /\ (1 <= invocations "_download_from_s3" (new_events example_world w'))%nat
      /\ exists md,
          In (UploadFromFile "" md example_bytes) (new_events example_world w').
Proof.
  destruct (@slash_only_key_is_replicated_under_empty_name nat absent_sdk 3
              "src" example_world) as [Hname [_ [Hquery Hfetch]]].
  split; [exact Hname|].
  exists (fst (replicate absent_sdk "src" "///" example_world)),
    (snd (replicate absent_sdk "src" "///" example_world)).
  split; [vm_compute; reflexivity|]. split.
  - apply (Hquery MkBucket (snd (target_bucket absent_sdk (tick example_world)))
             ltac:(vm_compute; reflexivity)
             (fst (replicate absent_sdk "src" "///" example_world))).
    vm_compute. reflexivity.
  - destruct (Hfetch (snd (_check_file_exists_in_gcs absent_sdk ""
                             (tick example_world)))
                ltac:(vm_compute; reflexivity)
                (fst (replicate absent_sdk "src" "///" example_world))
                (snd (replicate absent_sdk "src" "///" example_world))
                ltac:(vm_compute; reflexivity)) as [Hcalls Hwrite].
    split; [exact Hcalls|].
    apply (Hwrite {| buffer := example_bytes; position := 0 |}
             (snd (_download_from_s3 absent_sdk "src" "///"
                     (snd (_check_file_exists_in_gcs absent_sdk ""
                             (tick example_world)))))).
    vm_compute. reflexivity.
Defined.

(* ------------------------------------------------------------------ *)
(** ** The retry parameters of the configuration *)

(** Whatever the configuration says, a fetch that always fails is called
    four times, with sleeps of 1, 2 and 4 seconds: the arguments of the
    decorator. *)
Lemma fetch_retries_follow_the_decorator {E : Type} (sdk : SDK E)
      (s3_bucket s3_key : string) (w : World E) :
  always_fails (_download_from_s3_wrapped sdk s3_bucket s3_key) ->
  exists e w',
    _download_from_s3 sdk s3_bucket s3_key w = (Raise e, w')
    /\ invocations "_download_from_s3" (new_events w w') = 4%nat
    /\ sleeps (new_events w w') = delays 1 2 3.
Proof.
  intros Hfail.
  destruct (@retry_for_exhausts E BytesIO sdk 3 2 "_download_from_s3"
              (_download_from_s3_wrapped sdk s3_bucket s3_key) Hfail
              (download_wrapped_only_requests sdk s3_bucket s3_key)
              3%nat 0%nat 1 None w decorator_delays_sleepable eq_refl)
    as [e [w_last [w' [before [after [Hrun [_ [Hb [Ha [Hr [Hi Hs]]]]]]]]]]].
  exists e, w'. split; [exact Hrun|].
  rewrite (new_events_app w w' (before ++ Invoke "_download_from_s3" :: after)).
  - rewrite invocations_app, sleeps_app. simpl.
    rewrite (requests_have_no_invocations _ _ Hr),
      (requests_have_no_sleeps _ Hr), Hi, Hs, app_nil_r.
    split; reflexivity.
  - rewrite Ha, Hb, <- app_assoc. reflexivity.
Qed.

(** C3: the code departs from the claim.  With a configuration of
    [max_retries = 0], [retry_delay = 5] and [retry_backoff = 3], and a
    source store that fails every fetch, [replicate] still calls the fetch
    four times and sleeps 1, 2 and 4 seconds between the calls. *)
Theorem configured_retry_parameters_are_ignored :
  max_retries no_retry_config = 0%Z
  /\ retry_delay no_retry_config = 5
  /\ retry_backoff no_retry_config = 3
  /\ exists o w',
      replicate failing_source_sdk "src" "/data/file.csv"
        (initial_world no_retry_config 0%nat) = (Ok o, w')
      /\ status o = Some (VStr "failed")
      /\ invocations "_download_from_s3"
           (new_events (initial_world no_retry_config 0%nat) w') = 4%nat
      /\ sleeps (new_events (initial_world no_retry_config 0%nat) w')
         = [1; 2; 4].
Proof.
  repeat split.
  eexists; eexists. split; [vm_compute; reflexivity|].
  repeat split.
Qed.

(* ------------------------------------------------------------------ *)
(** ** A fetch that never succeeds *)

(** What [_download_from_s3] raises is an [S3DownloadError], unless a
    [ClientError] came without its ['Error'] entry or without the
    ['Code'] in it: the handler then raises the [KeyError] of the missing
    key. *)
Lemma download_wrapped_raises {E : Type} (sdk : SDK E) (bucket key : string)
      (w w' : World E) (e : exn) :
  _download_from_s3_wrapped sdk bucket key w = (Raise e, w') ->
  (exists message, e = S3DownloadError message)
  \/ e = KeyError "Error" \/ e = KeyError "Code".
Proof.
  unfold _download_from_s3_wrapped, try_except.
  match goal with
  | |- (let (_, _) := ?m w in _) = _ -> _ =>
      destruct (m w) as [[s|e0] w1]
  end; [discriminate|].
  cbn [dispatch]. unfold raise, bind, lift.
  destruct e0 as [[| |code] msg|msg|msg|msg|msg|msg|msg|msg|cls msg];
    cbn [is_ClientError is_Exception error_code];
    try (intros H; inversion H; eauto; fail).
  destruct (String.eqb code "NoSuchKey"); [intros H; inversion H; eauto|].
  destruct (String.eqb code "NoSuchBucket"); intros H; inversion H; eauto.
Qed.

(** When the check answers [False] and every call of the fetch fails,
    [replicate] returns ["failed"] with, as its error, the text chosen
    for the exception raised by the fourth and last call. *)
Lemma replicate_reports_last_fetch_failure {E : Type} (sdk : SDK E)
      (s3_bucket s3_key : string) (w w1 : World E) :
  _check_file_exists_in_gcs sdk (sanitize_gcs_object_name s3_key) (tick w)
  = (Ok false, w1) ->
  always_fails (_download_from_s3_wrapped sdk s3_bucket s3_key) ->
  exists e w_last w2,
    call "_download_from_s3" (_download_from_s3_wrapped sdk s3_bucket s3_key)
         w_last = (Raise e, w2)
    /\ invocations "_download_from_s3" (new_events w1 w_last) = 3%nat
    /\ sleeps (new_events w1 w_last) = delays 1 2 3
    /\ replicate sdk s3_bucket s3_key w
       = (Ok (failed_outcome (error_text e) (source_uri s3_bucket s3_key)
                (destination_uri (config (self w)) s3_key)
                (clock sdk (ticks w2) - clock sdk (ticks w))),
          tick w2).
Proof.
  intros Hcheck Hfail.
  destruct (@retry_for_exhausts E BytesIO sdk 3 2 "_download_from_s3"
              (_download_from_s3_wrapped sdk s3_bucket s3_key) Hfail
              (download_wrapped_only_requests sdk s3_bucket s3_key)
              3%nat 0%nat 1 None w1 decorator_delays_sleepable eq_refl)
    as [e [w_last [w2 [before [after [Hrun [Hcall [Hb [_ [_ [Hi Hs]]]]]]]]]]].
  exists e, w_last, w2. split; [exact Hcall|].
  rewrite (new_events_app _ _ _ Hb). split; [exact Hi|]. split; [exact Hs|].
  exact (@replicate_fetch_raises _ sdk _ _ _ _ _ _ Hcheck Hrun).
Qed.

(* ================================================================== *)
(** * Further properties of the backoff executor *)



Section ExecutorInvariants.

Context {E A : Type}.
Variable sdk : SDK E.
Variable max_retries : Z.
Variable backoff : Q.
Variable fname : string.
Variable func : M E A.

Hypothesis func_only_requests : only_requests func.

(** One call of the function: the events it leaves. *)
Lemma call_events (w w1 : World E) (r : result A) :
  call fname func w = (r, w1) ->
  exists reqs,
    trace w1 = (trace w ++ Invoke fname :: reqs)%list
    /\ forallb is_request_event reqs = true.
Proof.
  unfold call. intros H.
  destruct (func_only_requests _ _ _ H) as [reqs [Ht Hall]].
  exists reqs. split; [|exact Hall]. rewrite Ht. simpl.
  now rewrite <- app_assoc.
Qed.

(** The loop over the attempts [a .. max_retries]: it makes between one and
    all of the calls, and between two calls it sleeps once, the delays
    being those of the schedule. *)
Lemma retry_for_schedule (n : nat) :
  forall (a : nat) (d : Q) (last : option exn) (w w' : World E)
         (r : result A),
    Z.of_nat (a + n) = (max_retries + 1)%Z ->
    retry_for sdk max_retries backoff fname func
              (map Z.of_nat (seq a n)) d last w = (r, w') ->
    exists evs,
      trace w' = (trace w ++ evs)%list
      /\ (invocations fname evs <= n)%nat
      /\ (1 <= n -> 1 <= invocations fname evs)%nat
      /\ sleeps evs = delays d backoff (pred (invocations fname evs)).
Proof.
  induction n as [|n IH]; intros a d last w w' r Ha H.
  - simpl in H. exists []. rewrite app_nil_r.
    destruct last; inversion H; repeat split; auto; lia.
  - change (map Z.of_nat (seq a (S n)))
      with (Z.of_nat a :: map Z.of_nat (seq (S a) n)) in H.
    cbn [retry_for] in H.
    destruct (call fname func w) as [[v|e] w1] eqn:Ec.
    + inversion H; subst. destruct (call_events _ _ _ Ec) as [reqs [Ht Hall]].
      exists (Invoke fname :: reqs). simpl.
      rewrite String.eqb_refl, (requests_have_no_invocations _ _ Hall),
        (requests_have_no_sleeps _ Hall).
      repeat split; auto; lia.
    + destruct (call_events _ _ _ Ec) as [reqs [Ht Hall]].
      destruct (Z.of_nat a =? max_retries)%Z eqn:Hlast.
      * inversion H; subst. exists (Invoke fname :: reqs). simpl.
        rewrite String.eqb_refl, (requests_have_no_invocations _ _ Hall),
          (requests_have_no_sleeps _ Hall).
        repeat split; auto; lia.
      * apply Z.eqb_neq in Hlast.
        destruct (time_sleep sdk d w1) as [[u|e'] w2] eqn:Es.
        -- destruct u. pose proof (time_sleep_ok _ _ _ _ Es) as Hs.
           destruct (IH (S a) (d * backoff) (Some e) w2 w' r
                        ltac:(lia) H)
             as [evs [Ht' [Hle [Hge Hsl]]]].
           assert (1 <= n)%nat as Hn by lia. specialize (Hge Hn).
           exists (Invoke fname :: reqs ++ Sleep d :: evs)%list.
           split; [|split; [|split]].
           ++ rewrite Ht', Hs, Ht. simpl. rewrite <- !app_assoc.
              reflexivity.
           ++ simpl. rewrite String.eqb_refl, invocations_app. simpl.
              rewrite (requests_have_no_invocations _ _ Hall). lia.
           ++ intros _. simpl. rewrite String.eqb_refl. lia.
           ++ simpl. rewrite String.eqb_refl, invocations_app, sleeps_app.
              simpl. rewrite (requests_have_no_invocations _ _ Hall),
                (requests_have_no_sleeps _ Hall), Hsl. simpl.
              destruct (invocations fname evs); [lia | reflexivity].
        -- inversion H; subst.
           assert (trace w' = trace w1) as Hsame.
           { destruct (time_sleep_inv sdk _ _ _ _ Es)
               as [[Hok _] | [e1 [_ [-> _]]]];
               [discriminate Hok | reflexivity]. }
           exists (Invoke fname :: reqs). simpl.
           rewrite String.eqb_refl, (requests_have_no_invocations _ _ Hall),
             (requests_have_no_sleeps _ Hall), Hsame.
           repeat split; auto; lia.
Qed.

(** With delays that [time.sleep] accepts, the loop raises only once the
    last attempt has failed, and what it raises is what that call
    raised. *)
Lemma retry_for_raises_last (n : nat) :
  forall (a : nat) (d : Q) (last : option exn) (w w' : World E) (e : exn),
    Forall sleepable (delays d backoff n) ->
    Z.of_nat (a + n) = max_retries ->
    retry_for sdk max_retries backoff fname func
              (map Z.of_nat (seq a (S n))) d last w = (Raise e, w') ->
    exists w_last evs,
      call fname func w_last = (Raise e, w')
      /\ trace w' = (trace w ++ evs)%list
      /\ invocations fname evs = S n
      /\ sleeps evs = delays d backoff n.
Proof.
  induction n as [|n IH]; intros a d last w w' e Hd Ha H;
    change (map Z.of_nat (seq a (S ?k)))
      with (Z.of_nat a :: map Z.of_nat (seq (S a) k)) in H;
    cbn [retry_for] in H;
    destruct (call fname func w) as [[v|e0] w1] eqn:Ec; try discriminate H;
    destruct (call_events _ _ _ Ec) as [reqs [Ht Hall]].
  - replace (Z.of_nat a =? max_retries)%Z with true in H
      by (symmetry; apply Z.eqb_eq; lia).
    inversion H; subst. exists w, (Invoke fname :: reqs).
    simpl. rewrite String.eqb_refl, (requests_have_no_invocations _ _ Hall),
      (requests_have_no_sleeps _ Hall). repeat split; auto.
  - replace (Z.of_nat a =? max_retries)%Z with false in H
      by (symmetry; apply Z.eqb_neq; lia).
    simpl in Hd. apply Forall_cons_iff in Hd as [Hd Hrest].
    rewrite (time_sleep_sleepable sdk _ w1 Hd) in H.
    destruct (IH (S a) (d * backoff) (Some e0) _ w' e Hrest ltac:(lia) H)
      as [w_last [evs [Hcall [Ht' [Hi Hs]]]]].
    exists w_last, (Invoke fname :: reqs ++ Sleep d :: evs)%list.
    split; [exact Hcall|]. split; [|split].
    + rewrite Ht'. unfold after_sleep. simpl. rewrite Ht.
      rewrite <- !app_assoc. reflexivity.
    + simpl. rewrite String.eqb_refl, invocations_app. simpl.
      rewrite (requests_have_no_invocations _ _ Hall), Hi. reflexivity.
    + simpl. rewrite sleeps_app. simpl.
      rewrite (requests_have_no_sleeps _ Hall), Hs. reflexivity.
Qed.

End ExecutorInvariants.

(** X1.  With [max_retries >= 0], whatever the decorated function does,
    the executor calls it at least once and at most [max_retries + 1]
    times, and it sleeps once between two calls and never otherwise: the
    delays slept are the first ones of the schedule, one fewer than the
    calls. *)
Theorem backoff_calls_within_budget {E A : Type} (sdk : SDK E)
        (max_retries : Z) (delay backoff : Q) (fname : string)
        (func : M E A) (w w' : World E) (r : result A) :
  (0 <= max_retries)%Z ->
  only_requests func ->
  retry_with_backoff sdk max_retries delay backoff fname func w = (r, w') ->
  (1 <= invocations fname (new_events w w') <= S (Z.to_nat max_retries))%nat
  /\ sleeps (new_events w w')
     = delays delay backoff (pred (invocations fname (new_events w w'))).
Proof.
  intros Hn Hreq H. unfold retry_with_backoff in H.
  rewrite range_succ in H by exact Hn.
  destruct (@retry_for_schedule E A sdk max_retries backoff fname func Hreq
              (S (Z.to_nat max_retries)) 0%nat delay None w w' r
              ltac:(simpl; lia) H)
    as [evs [Ht [Hle [Hge Hs]]]].
  rewrite (new_events_app _ _ _ Ht).
  split; [split; [apply Hge; lia | exact Hle] | exact Hs].
Qed.

Lemma backoff_calls_within_budget_witness :
  (1 <= invocations "fetch"
          (new_events example_world
             (snd (retry_with_backoff absent_sdk 3 1 2 "fetch"
                     failing_operation example_world)))
   <= 4)%nat.
Proof.
  apply (@backoff_calls_within_budget nat unit absent_sdk 3 1 2 "fetch"
           failing_operation example_world
           (snd (retry_with_backoff absent_sdk 3 1 2 "fetch"
                   failing_operation example_world))
           (fst (retry_with_backoff absent_sdk 3 1 2 "fetch"
                   failing_operation example_world))).
  - lia.
  - intros w r w' H. inversion H. apply extends_refl.
  - vm_compute. reflexivity.
Defined.





(** X4.  With [max_retries < 0] the executor never calls the function: the
    loop is empty and [raise last_exception] raises [TypeError], in the
    world it started from. *)
Theorem backoff_without_budget_raises_type_error {E A : Type} (sdk : SDK E)
        (max_retries : Z) (delay backoff : Q) (fname : string)
        (func : M E A) (w : World E) :
  (max_retries < 0)%Z ->
  retry_with_backoff sdk max_retries delay backoff fname func w
  = (Raise (TypeError "exceptions must derive from BaseException"), w).
Proof.
  intros Hn. unfold retry_with_backoff, range.
  replace (Z.to_nat (max_retries + 1)) with 0%nat by lia. reflexivity.
Qed.

Lemma backoff_without_budget_raises_type_error_witness :
  retry_with_backoff absent_sdk (-1) 1 2 "fetch" failing_operation
    example_world
  = (Raise (TypeError "exceptions must derive from BaseException"),
     example_world).
Proof.
  apply (@backoff_without_budget_raises_type_error nat unit absent_sdk (-1)
           1 2 "fetch" failing_operation example_world).
  lia.
Defined.



(* ================================================================== *)
(** * Further properties of the replicator *)

Section Handles.

Context {E : Type}.
Variable sdk : SDK E.

Lemma s3_client_cached (w w1 : World E) (c : S3Client) :
  s3_client sdk w = (Ok c, w1) -> s3_client sdk w1 = (Ok c, w1).
Proof.
  unfold s3_client, bind, get_self.
  destruct (_s3_client (self w)) as [c0|] eqn:Hc.
  - intros H. inversion H; subst. rewrite Hc. reflexivity.
  - unfold try_except, request. simpl.
    destruct (boto3_client sdk (aws_access_key_id (config (self w)))
                (aws_secret_access_key (config (self w)))
                (aws_region (config (self w))) (env w)) as [[c1|e] s]; simpl.
    + intros H. inversion H; subst. reflexivity.
    + destruct (is_NoCredentialsError e); discriminate.
Qed.

Lemma s3_client_failure_not_cached (w w1 : World E) (e : exn) :
  s3_client sdk w = (Raise e, w1) -> _s3_client (self w1) = None.
Proof.
  unfold s3_client, bind, get_self.
  destruct (_s3_client (self w)) as [c0|] eqn:Hc; [discriminate|].
  unfold try_except, request. simpl.
  destruct (boto3_client sdk (aws_access_key_id (config (self w)))
              (aws_secret_access_key (config (self w)))
              (aws_region (config (self w))) (env w)) as [[c1|e0] s]; simpl.
  - discriminate.
  - destruct (is_NoCredentialsError e0); intros H; inversion H; exact Hc.
Qed.

Lemma gcs_client_cached (w w1 : World E) (c : GCSClient) :
  gcs_client sdk w = (Ok c, w1) -> gcs_client sdk w1 = (Ok c, w1).
Proof.
  unfold gcs_client, bind, get_self.
  destruct (_gcs_client (self w)) as [c0|] eqn:Hc.
  - intros H. inversion H; subst. rewrite Hc. reflexivity.
  - unfold try_except, request. simpl.
    destruct (storage_Client sdk (gcp_project_id (config (self w))) (env w))
      as [[c1|e] s]; simpl.
    + intros H. inversion H; subst. reflexivity.
    + discriminate.
Qed.

Lemma gcs_client_failure_not_cached (w w1 : World E) (e : exn) :
  gcs_client sdk w = (Raise e, w1) -> _gcs_client (self w1) = None.
Proof.
  unfold gcs_client, bind, get_self.
  destruct (_gcs_client (self w)) as [c0|] eqn:Hc; [discriminate|].
  unfold try_except, request. simpl.
  destruct (storage_Client sdk (gcp_project_id (config (self w))) (env w))
    as [[c1|e0] s]; simpl.
  - discriminate.
  - intros H; inversion H; exact Hc.
Qed.

(** Accessing a cached bucket handle does nothing. *)
Lemma target_bucket_when_cached (w : World E) (b : Bucket) :
  _target_bucket (self w) = Some b -> target_bucket sdk w = (Ok b, w).
Proof.
  intros Hc. unfold target_bucket, bind, get_self. rewrite Hc. reflexivity.
Qed.

Lemma target_bucket_cached (w w1 : World E) (b : Bucket) :
  target_bucket sdk w = (Ok b, w1) -> target_bucket sdk w1 = (Ok b, w1).
Proof.
  intros H. apply target_bucket_when_cached.
  pose proof (target_bucket_caches sdk _ _ _ H) as Hc.
  destruct (_target_bucket (self w1)) as [[]|]; [now destruct b | congruence].
Qed.

Lemma target_bucket_failure_not_cached (w w1 : World E) (e : exn) :
  target_bucket sdk w = (Raise e, w1) -> _target_bucket (self w1) = None.
Proof.
  unfold target_bucket. unfold bind at 1. unfold get_self.
  destruct (_target_bucket (self w)) as [b0|] eqn:Hc; [discriminate|].
  unfold try_except, bind.
  destruct (gcs_client sdk w) as [[c|e0] w0] eqn:Hg.
  - assert (_target_bucket (self w0) = None) as Hc0.
    { revert Hg. unfold gcs_client, bind, get_self.
      destruct (_gcs_client (self w)).
      - intros H. inversion H; subst. exact Hc.
      - unfold try_except, request. simpl.
        destruct (storage_Client sdk (gcp_project_id (config (self w)))
                    (env w)) as [[c1|e1] s]; simpl; intros H;
          inversion H; subst; exact Hc. }
    unfold request. simpl.
    destruct (client_bucket sdk (target_gcs_bucket (config (self w)))
                (env w0)) as [[b1|e1] s]; simpl.
    + discriminate.
    + intros H. inversion H. exact Hc0.
  - simpl. intros H. inversion H; subst.
    revert Hg. unfold gcs_client, bind, get_self.
    destruct (_gcs_client (self w)); [discriminate|].
    unfold try_except, request. simpl.
    destruct (storage_Client sdk (gcp_project_id (config (self w)))
                (env w)) as [[c1|e1] s]; simpl; intros H0;
      inversion H0; subst; exact Hc.
Qed.

End Handles.

(** X6.  The three lazy properties build their handle once: after an
    access that returned, the next access returns the same handle, sends
    no request and changes nothing; after an access that raised, nothing
    is cached, so that the next access tries again. *)
Theorem handles_are_built_once {E : Type} (sdk : SDK E) (w w1 : World E) :
  (forall c, s3_client sdk w = (Ok c, w1) ->
             s3_client sdk w1 = (Ok c, w1))
  /\ (forall c, gcs_client sdk w = (Ok c, w1) ->
                gcs_client sdk w1 = (Ok c, w1))
  /\ (forall b, target_bucket sdk w = (Ok b, w1) ->
                target_bucket sdk w1 = (Ok b, w1))
  /\ (forall e, s3_client sdk w = (Raise e, w1) ->
                _s3_client (self w1) = None)
  /\ (forall e, gcs_client sdk w = (Raise e, w1) ->
                _gcs_client (self w1) = None)
  /\ (forall e, target_bucket sdk w = (Raise e, w1) ->
                _target_bucket (self w1) = None).
Proof.
  repeat split; intros.
  - eapply s3_client_cached; eassumption.
  - eapply gcs_client_cached; eassumption.
  - eapply target_bucket_cached; eassumption.
  - eapply s3_client_failure_not_cached; eassumption.
  - eapply gcs_client_failure_not_cached; eassumption.
  - eapply target_bucket_failure_not_cached; eassumption.
Qed.

Lemma handles_are_built_once_witness :
  target_bucket absent_sdk
    (snd (target_bucket absent_sdk example_world))
  = (Ok MkBucket, snd (target_bucket absent_sdk example_world))
  /\ _gcs_client
       (self (snd (gcs_client no_gcs_credentials example_world))) = None.
Proof.
  split.
  - apply (@handles_are_built_once nat absent_sdk example_world
             (snd (target_bucket absent_sdk example_world))).
    vm_compute. reflexivity.
  - destruct (@handles_are_built_once nat no_gcs_credentials example_world
                (snd (gcs_client no_gcs_credentials example_world)))
      as [_ [_ [_ [_ [H _]]]]].
    apply (H (ReplicationError
                "GCS client initialization failed: could not determine credentials")).
    vm_compute. reflexivity.
Defined.

(* ------------------------------------------------------------------ *)
(** ** Errors of the fetch and of the write *)

Section TransferErrors.

Context {E : Type}.
Variable sdk : SDK E.

(** What [_download_from_s3] raises: an [S3DownloadError] with one of
    four messages, or, for a [ClientError] whose response lacks the
    ['Error'] entry or its ['Code'], the [KeyError] of the handler's own
    lookup. *)
Lemma download_wrapped_raises_shape (bucket key : string) (w w' : World E)
      (e : exn) :
  _download_from_s3_wrapped sdk bucket key w = (Raise e, w') ->
  (exists message,
      e = S3DownloadError message
      /\ (message = "File not found: s3://" ++ bucket ++ "/" ++ key
          \/ message = "Bucket not found: " ++ bucket
          \/ (exists text, message = "S3 download failed: " ++ text)
          \/ (exists text,
                 message = "Unexpected error during S3 download: " ++ text)))
  \/ e = KeyError "Error" \/ e = KeyError "Code".
Proof.
  unfold _download_from_s3_wrapped, try_except.
  match goal with
  | |- (let (_, _) := ?m w in _) = _ -> _ =>
      destruct (m w) as [[s|e0] w1]
  end; [discriminate|].
  cbn [dispatch]. unfold raise, bind, lift.
  destruct e0 as [[| |code] msg|msg|msg|msg|msg|msg|msg|msg|cls msg];
    cbn [is_ClientError is_Exception error_code];
    try (intros H; inversion H; auto; fail);
    try (intros H; inversion H; left; eexists; split; [reflexivity|];
         right; right; right; eexists; reflexivity).
  destruct (String.eqb code "NoSuchKey").
  { intros H; inversion H. left. eexists. split; [reflexivity|]. now left. }
  destruct (String.eqb code "NoSuchBucket");
    intros H; inversion H; left; eexists; (split; [reflexivity|]).
  - right. now left.
  - right. right. left. eexists. reflexivity.
Qed.

(** The messages of the [GCSUploadError]s that [_upload_to_gcs] raises. *)
Lemma upload_wrapped_raises_shape (stream : BytesIO) (object_name : string)
      (metadata : option (list (string * string))) (w w' : World E)
      (e : exn) :
  _upload_to_gcs_wrapped sdk stream object_name metadata w = (Raise e, w') ->
  exists message,
    e = GCSUploadError message
    /\ ((exists text, message = "GCS upload failed: " ++ text)
        \/ (exists text,
               message = "Unexpected error during GCS upload: " ++ text)).
Proof.
  unfold _upload_to_gcs_wrapped, try_except.
  match goal with
  | |- (let (_, _) := ?m w in _) = _ -> _ =>
      destruct (m w) as [[s|e0] w1]
  end; [discriminate|].
  cbn [dispatch]. unfold raise. destruct (is_GoogleCloudError e0).
  - intros H; inversion H. eexists. split; [reflexivity|]. left.
    now exists (str e0).
  - cbn [is_Exception]. intros H. inversion H.
    eexists. split; [reflexivity|]. right. now exists (str e0).
Qed.

End TransferErrors.

(** X7.  With the source client at hand, an error of [head_object] is
    turned by [_download_from_s3] into an [S3DownloadError]: for a
    [ClientError] with code [NoSuchKey], "File not found" with the source
    URI; with code [NoSuchBucket], "Bucket not found" with the bucket;
    with any other code, "S3 download failed" with its text; for any
    exception that is not a [ClientError], "Unexpected error during S3
    download" with its text.  A [ClientError] whose response has no
    ['Error'] entry, or no ['Code'] in it, is not converted: the lookup of
    the code in the handler raises [KeyError], which leaves the function.
    No [get_object] request is sent. *)
Theorem head_object_errors_are_classified {E : Type} (sdk : SDK E)
        (bucket key : string) (w w1 : World E) (c : S3Client) (e : exn)
        (s' : E) :
  s3_client sdk w = (Ok c, w1) ->
  head_object sdk bucket key (env w1) = (Raise e, s') ->
  _download_from_s3_wrapped sdk bucket key w
  = (Raise match e with
           | ClientError (Code code) text =>
               S3DownloadError
                 (if String.eqb code "NoSuchKey"
                  then "File not found: s3://" ++ bucket ++ "/" ++ key
                  else if String.eqb code "NoSuchBucket"
                       then "Bucket not found: " ++ bucket
                       else "S3 download failed: " ++ text)
           | ClientError NoErrorEntry _ => KeyError "Error"
           | ClientError NoCodeEntry _ => KeyError "Code"
           | _ =>
               S3DownloadError
                 ("Unexpected error during S3 download: " ++ str e)
           end,
     set_env s' (log (HeadObject bucket key) w1)).
Proof.
  intros Hc Hh. unfold _download_from_s3_wrapped, try_except, bind.
  rewrite Hc. unfold request at 1. cbn [env log]. rewrite Hh.
  cbn [dispatch]. unfold raise, lift.
  destruct e as [[| |code] msg|msg|msg|msg|msg|msg|msg|msg|cls msg];
    cbn [is_ClientError is_Exception error_code str]; try reflexivity.
  destruct (String.eqb code "NoSuchKey"); [reflexivity|].
  destruct (String.eqb code "NoSuchBucket"); reflexivity.
Qed.

Lemma head_object_errors_are_classified_witness :
  _download_from_s3_wrapped failing_source_sdk "src" "/data/file.csv"
    example_world
  = (Raise (S3DownloadError
              "S3 download failed: Please reduce your request rate."),
     set_env 1%nat
       (log (HeadObject "src" "/data/file.csv")
          (snd (s3_client failing_source_sdk example_world))))
  /\ _download_from_s3_wrapped codeless_sdk "src" "/data/file.csv"
       example_world
     = (Raise (KeyError "Error"),
        set_env 1%nat
          (log (HeadObject "src" "/data/file.csv")
             (snd (s3_client codeless_sdk example_world)))).
Proof.
  split.
  - apply (@head_object_errors_are_classified nat failing_source_sdk
             "src" "/data/file.csv" example_world
             (snd (s3_client failing_source_sdk example_world)) MkS3Client
             (ClientError (Code "SlowDown")
                          "Please reduce your request rate.")
             1%nat).
    + vm_compute. reflexivity.
    + reflexivity.
  - apply (@head_object_errors_are_classified nat codeless_sdk
             "src" "/data/file.csv" example_world
             (snd (s3_client codeless_sdk example_world)) MkS3Client
             (ClientError NoErrorEntry
                "An error occurred (Unknown) when calling the HeadObject operation: Unknown")
             1%nat).
    + vm_compute. reflexivity.
    + reflexivity.
Defined.

(** X8.  Whatever the SDKs raise, the decorated [_upload_to_gcs] raises
    nothing but [GCSUploadError], with one of its two messages, and the
    decorated [_download_from_s3] raises [S3DownloadError], with one of
    its four messages, with one exception: a [ClientError] that comes
    without ['Error'] entry or without ['Code'] leaves it as the
    [KeyError] of that key. *)
Theorem transfers_raise_their_own_errors {E : Type} (sdk : SDK E)
        (bucket key : string) (stream : BytesIO) (object_name : string)
        (metadata : option (list (string * string))) (w w' : World E)
        (e : exn) :
  (_download_from_s3 sdk bucket key w = (Raise e, w') ->
   (exists message,
       e = S3DownloadError message
       /\ (message = "File not found: s3://" ++ bucket ++ "/" ++ key
           \/ message = "Bucket not found: " ++ bucket
           \/ (exists text, message = "S3 download failed: " ++ text)
           \/ (exists text,
                  message = "Unexpected error during S3 download: " ++ text)))
   \/ e = KeyError "Error" \/ e = KeyError "Code")
  /\ (_upload_to_gcs sdk stream object_name metadata w = (Raise e, w') ->
      exists message,
        e = GCSUploadError message
        /\ ((exists text, message = "GCS upload failed: " ++ text)
            \/ (exists text,
                   message = "Unexpected error during GCS upload: " ++ text))).
Proof.
  split; intros H.
  - unfold _download_from_s3, retry_with_backoff in H.
    change (range (3 + 1)) with (map Z.of_nat (seq 0 4)) in H.
    destruct (@retry_for_raises_last E BytesIO sdk 3 2 "_download_from_s3"
                (_download_from_s3_wrapped sdk bucket key)
                (download_wrapped_only_requests sdk bucket key)
                3%nat 0%nat 1 None w w' e
                decorator_delays_sleepable eq_refl H)
      as [w_last [_ [Hcall _]]].
    eapply download_wrapped_raises_shape. exact Hcall.
  - unfold _upload_to_gcs, retry_with_backoff in H.
    change (range (3 + 1)) with (map Z.of_nat (seq 0 4)) in H.
    destruct (@retry_for_raises_last E unit sdk 3 2 "_upload_to_gcs"
                (_upload_to_gcs_wrapped sdk stream object_name metadata)
                (upload_wrapped_only_requests sdk stream object_name metadata)
                3%nat 0%nat 1 None w w' e
                decorator_delays_sleepable eq_refl H)
      as [w_last [_ [Hcall _]]].
    eapply upload_wrapped_raises_shape. exact Hcall.
Qed.

Lemma transfers_raise_their_own_errors_witness :
  (exists message,
      S3DownloadError "S3 download failed: Please reduce your request rate."
      = S3DownloadError message
      /\ (message = "File not found: s3://" ++ "src" ++ "/" ++ "/data/file.csv"
          \/ message = "Bucket not found: " ++ "src"
          \/ (exists text, message = "S3 download failed: " ++ text)
          \/ (exists text,
                 message = "Unexpected error during S3 download: " ++ text)))
  \/ S3DownloadError "S3 download failed: Please reduce your request rate."
     = KeyError "Error"
  \/ S3DownloadError "S3 download failed: Please reduce your request rate."
     = KeyError "Code".
Proof.
  apply (proj1 (@transfers_raise_their_own_errors nat failing_source_sdk
                  "src" "/data/file.csv" BytesIO_new "" None example_world
                  (snd (_download_from_s3 failing_source_sdk "src"
                          "/data/file.csv" example_world))
                  (S3DownloadError
                     "S3 download failed: Please reduce your request rate."))).
  vm_compute. reflexivity.
Defined.

(* ------------------------------------------------------------------ *)
(** ** Retried uploads *)

Section RetriedUploads.

Context {E : Type}.
Variable sdk : SDK E.
Variable stream : BytesIO.
Variable object_name : string.
Variable metadata : option (list (string * string)).

(** With the bucket handle cached, every attempt of the write sends the
    same upload request: the whole buffer, under the same name, with the
    same metadata. *)
Lemma upload_attempts_resend (max_retries : Z) (backoff : Q)
      (attempts : list Z) :
  forall (d : Q) (last : option exn) (w w' : World E) (r : result unit),
    _target_bucket (self w) <> None ->
    retry_for sdk max_retries backoff "_upload_to_gcs"
              (_upload_to_gcs_wrapped sdk stream object_name metadata)
              attempts d last w = (r, w') ->
    exists evs,
      trace w' = (trace w ++ evs)%list
      /\ filter is_upload_request evs
         = repeat (UploadFromFile object_name
                     (if truthy metadata then metadata else None)
                     (buffer stream))
                  (invocations "_upload_to_gcs" evs)
      /\ filter is_handle_request evs = []
      /\ filter is_exists_query evs = []
      /\ invocations "_download_from_s3" evs = 0%nat.
Proof.
  induction attempts as [|attempt later IH]; intros d last w w' r Hcached H.
  - simpl in H. exists []. rewrite app_nil_r.
    destruct last; inversion H; repeat split.
  - cbn [retry_for] in H. unfold call in H.
    destruct (_upload_to_gcs_wrapped sdk stream object_name metadata
                (log (Invoke "_upload_to_gcs") w)) as [r1 w1] eqn:Ec.
    pose proof (upload_wrapped_sends sdk stream object_name metadata
                  (log (Invoke "_upload_to_gcs") w) w1 r1 Hcached Ec) as Ht.
    assert (_target_bucket (self w1) <> None) as Hcached1.
    { apply (upload_wrapped_frame sdk _ _ _ _ _ _ Ec). exact Hcached. }
    assert (exists evs1,
               trace w1 = (trace w ++ evs1)%list
               /\ filter is_upload_request evs1
                  = repeat (UploadFromFile object_name
                              (if truthy metadata then metadata else None)
                              (buffer stream))
                           (invocations "_upload_to_gcs" evs1)
               /\ filter is_handle_request evs1 = []
               /\ filter is_exists_query evs1 = []
               /\ invocations "_download_from_s3" evs1 = 0%nat) as Hone.
    { eexists. split; [rewrite Ht; simpl; rewrite <- app_assoc; reflexivity|].
      repeat split. }
    destruct r1 as [v|e].
    + inversion H; subst. exact Hone.
    + destruct (attempt =? max_retries)%Z.
      * inversion H; subst. exact Hone.
      * destruct (time_sleep sdk d w1) as [[u|e'] w2] eqn:Es.
        -- destruct u. pose proof (time_sleep_ok _ _ _ _ Es) as Hs.
           assert (_target_bucket (self w2) <> None) as Hcached2.
           { destruct (time_sleep_inv sdk _ _ _ _ Es)
               as [[_ [-> _]] | [e1 [He1 _]]];
               [exact Hcached1 | discriminate He1]. }
           destruct (IH _ _ _ _ _ Hcached2 H)
             as [evs [Ht' [Hu [Hh [Hq Hi]]]]].
           exists (Invoke "_upload_to_gcs"
                     :: UploadFromFile object_name
                          (if truthy metadata then metadata else None)
                          (buffer stream)
                     :: Sleep d :: evs).
           split; [|repeat split].
           ++ rewrite Ht', Hs, Ht. simpl. rewrite <- !app_assoc.
              reflexivity.
           ++ simpl. rewrite Hu. reflexivity.
           ++ simpl. exact Hh.
           ++ simpl. exact Hq.
           ++ simpl. exact Hi.
        -- inversion H; subst.
           assert (trace w' = trace w1) as Hsame.
           { destruct (time_sleep_inv sdk _ _ _ _ Es)
               as [[Hok _] | [e1 [_ [-> _]]]];
               [discriminate Hok | reflexivity]. }
           destruct Hone as [evs1 Hone]. exists evs1.
           rewrite Hsame. exact Hone.
Qed.

End RetriedUploads.

(* ------------------------------------------------------------------ *)
(** ** The three phases of [replicate] *)

Lemma filter_none (keep allowed : event -> bool) (evs : list event) :
  (forall ev, allowed ev = true -> keep ev = false) ->
  forallb allowed evs = true -> filter keep evs = [].
Proof.
  intros Hno. induction evs as [|ev evs IH]; [reflexivity|]. simpl.
  intros H. apply andb_prop in H as [Hev H].
  now rewrite (Hno _ Hev), IH.
Qed.

Lemma total_sleep_app (l1 l2 : list event) :
  total_sleep (l1 ++ l2) == total_sleep l1 + total_sleep l2.
Proof.
  unfold total_sleep. rewrite sleeps_app.
  induction (sleeps l1) as [|d l IH]; simpl.
  - ring.
  - rewrite IH. ring.
Qed.

Lemma total_sleep_of_schedule (evs : list event) (calls : nat) :
  (calls <= 4)%nat ->
  sleeps evs = delays 1 2 (pred calls) ->
  (List.length (sleeps evs) <= 3)%nat /\ total_sleep evs <= 7.
Proof.
  intros Hle Hs. unfold total_sleep. rewrite Hs.
  destruct calls as [|[|[|[|[|calls]]]]]; try lia; simpl;
    (split; [lia | discriminate]).
Qed.

Section Phases.

Context {E : Type}.
Variable sdk : SDK E.
Variables s3_bucket s3_key : string.

(** A run of [replicate] is a check, then perhaps a fetch, then perhaps a
    write, with a clock reading before, between and after. *)
Lemma replicate_phases (w w' : World E) (r : result dict) :
  replicate sdk s3_bucket s3_key w = (r, w') ->
  exists r1 w1,
    _check_file_exists_in_gcs sdk (sanitize_gcs_object_name s3_key) (tick w)
    = (r1, w1)
    /\ ((r1 <> Ok false /\ w' = tick w1)
        \/ (r1 = Ok false
            /\ exists r2 w2,
                _download_from_s3 sdk s3_bucket s3_key w1 = (r2, w2)
                /\ ((exists e, r2 = Raise e /\ w' = tick w2)
                    \/ (exists stream r3 w3,
                           r2 = Ok stream
                           /\ _upload_to_gcs sdk stream
                                (sanitize_gcs_object_name s3_key)
                                (Some (transfer_metadata s3_bucket s3_key
                                         (clock sdk (ticks w2))))
                                (tick w2) = (r3, w3)
                           /\ w' = tick w3)))).
Proof.
  intros H.
  destruct (_check_file_exists_in_gcs sdk (sanitize_gcs_object_name s3_key)
              (tick w)) as [r1 w1] eqn:H1.
  exists r1, w1. split; [reflexivity|].
  destruct r1 as [[|]|e].
  - left. rewrite (@replicate_skips _ sdk s3_bucket _ _ _ H1) in H.
    inversion H. split; [discriminate | reflexivity].
  - right. split; [reflexivity|].
    destruct (_download_from_s3 sdk s3_bucket s3_key w1) as [r2 w2] eqn:H2.
    exists r2, w2. split; [reflexivity|].
    destruct r2 as [stream|e].
    + right.
      destruct (_upload_to_gcs sdk stream (sanitize_gcs_object_name s3_key)
                  (Some (transfer_metadata s3_bucket s3_key
                           (clock sdk (ticks w2)))) (tick w2))
        as [r3 w3] eqn:H3.
      exists stream, r3, w3. split; [reflexivity|]. split; [exact H3|].
      destruct r3 as [[]|e].
      * rewrite (@replicate_succeeds _ sdk _ _ _ _ _ _ _ H1 H2 H3) in H.
        now inversion H.
      * rewrite (@replicate_write_raises _ sdk _ _ _ _ _ _ _ _ H1 H2 H3) in H.
        now inversion H.
    + left. exists e. split; [reflexivity|].
      rewrite (@replicate_fetch_raises _ sdk _ _ _ _ _ _ H1 H2) in H.
      now inversion H.
  - left. rewrite (@replicate_check_raises _ sdk s3_bucket _ _ _ _ H1) in H.
    inversion H. split; [discriminate | reflexivity].
Qed.

(** The check sends at most one existence query, and neither sleeps nor
    calls the fetch or the write. *)
Lemma check_queries_once (object_name : string) (w w1 : World E)
      (r : result bool) :
  _check_file_exists_in_gcs sdk object_name w = (r, w1) ->
  exists evs,
    trace w1 = (trace w ++ evs)%list
    /\ (List.length (filter is_exists_query evs) <= 1)%nat
    /\ forallb check_event evs = true.
Proof.
  unfold _check_file_exists_in_gcs, try_except, bind.
  destruct (target_bucket sdk w) as [[b|e] w0] eqn:Hb.
  - assert (extends (fun ev => check_event ev && negb (is_exists_query ev)) w w0) as [evs0 [Ht0 Hall0]].
    { revert Hb. generalize w (Ok b : result Bucket) w0.
      change (respects (extends (fun ev => check_event ev
                                              && negb (is_exists_query ev)))
                        (target_bucket sdk)).
      by_extends; reflexivity. }
    assert (filter is_exists_query evs0 = []) as Hq
        by (eapply filter_none; [|exact Hall0];
            intros ev Hev; apply andb_prop in Hev as [_ Hev];
            now apply negb_true_iff in Hev).
    assert (forallb check_event evs0 = true) as Hc.
    { rewrite forallb_forall in *. intros ev Hin.
      specialize (Hall0 ev Hin). now apply andb_prop in Hall0 as [Hall0 _]. }
    unfold request. cbn [env log].
    destruct (blob_exists sdk object_name (env w0)) as [[found|e] s]; simpl.
    + intros H. inversion H; subst.
      exists (evs0 ++ [BlobExists object_name])%list.
      simpl. rewrite Ht0, <- app_assoc, filter_app, Hq, forallb_app, Hc.
      repeat split. simpl. lia.
    + destruct (is_GoogleCloudError e); intros H; inversion H; subst;
        exists (evs0 ++ [BlobExists object_name])%list;
        simpl; rewrite Ht0, <- app_assoc, filter_app, Hq, forallb_app, Hc;
        repeat split; simpl; lia.
  - assert (extends (fun ev => check_event ev && negb (is_exists_query ev)) w w0) as [evs0 [Ht0 Hall0]].
    { revert Hb. generalize w (Raise e : result Bucket) w0.
      change (respects (extends (fun ev => check_event ev
                                              && negb (is_exists_query ev)))
                        (target_bucket sdk)).
      by_extends; reflexivity. }
    assert (filter is_exists_query evs0 = []) as Hq
        by (eapply filter_none; [|exact Hall0];
            intros ev Hev; apply andb_prop in Hev as [_ Hev];
            now apply negb_true_iff in Hev).
    assert (forallb check_event evs0 = true) as Hc.
    { rewrite forallb_forall in *. intros ev Hin.
      specialize (Hall0 ev Hin). now apply andb_prop in Hall0 as [Hall0 _]. }
    simpl. destruct (is_GoogleCloudError e); intros H; inversion H; subst;
      exists evs0; rewrite Hq; repeat split; auto.
Qed.

End Phases.

Section PhaseEvents.

Context {E : Type}.
Variable sdk : SDK E.

(** What a decorated fetch leaves in the trace. *)
Lemma fetch_phase_events (bucket key : string) (w w' : World E)
      (r : result BytesIO) :
  _download_from_s3 sdk bucket key w = (r, w') ->
  exists evs,
    trace w' = (trace w ++ evs)%list
    /\ (1 <= invocations "_download_from_s3" evs <= 4)%nat
    /\ sleeps evs = delays 1 2 (pred (invocations "_download_from_s3" evs))
    /\ invocations "_upload_to_gcs" evs = 0%nat
    /\ filter is_exists_query evs = []
    /\ filter is_upload_request evs = [].
Proof.
  intros H.
  destruct (download_extends sdk _ _ _ _ _ H) as [evs [Ht Hall]].
  exists evs. split; [exact Ht|].
  unfold _download_from_s3, retry_with_backoff in H.
  change (range (3 + 1)) with (map Z.of_nat (seq 0 4)) in H.
  destruct (@retry_for_schedule E BytesIO sdk 3 2 "_download_from_s3"
              (_download_from_s3_wrapped sdk bucket key)
              (download_wrapped_only_requests sdk bucket key)
              4%nat 0%nat 1 None w w' r eq_refl H)
    as [evs' [Ht' [Hle [Hge Hs]]]].
  assert (evs' = evs) as ->
      by (eapply app_inv_head; rewrite <- Ht, <- Ht'; reflexivity).
  split; [split; [apply Hge; lia | exact Hle]|]. split; [exact Hs|].
  split; [apply (fetch_events_have_no_write _ Hall)|].
  split; (eapply filter_none; [|exact Hall]);
    intros ev Hev; destruct ev; simpl in *; congruence.
Qed.

Lemma upload_phase_extends (stream : BytesIO) (object_name : string)
      (metadata : option (list (string * string))) :
  respects (extends write_event)
           (_upload_to_gcs sdk stream object_name metadata).
Proof.
  unfold _upload_to_gcs. by_extends; try reflexivity.
  by_extends; reflexivity.
Qed.

(** What a decorated write leaves in the trace. *)
Lemma write_phase_events (stream : BytesIO) (object_name : string)
      (metadata : option (list (string * string))) (w w' : World E)
      (r : result unit) :
  _upload_to_gcs sdk stream object_name metadata w = (r, w') ->
  exists evs,
    trace w' = (trace w ++ evs)%list
    /\ (1 <= invocations "_upload_to_gcs" evs <= 4)%nat
    /\ sleeps evs = delays 1 2 (pred (invocations "_upload_to_gcs" evs))
    /\ invocations "_download_from_s3" evs = 0%nat
    /\ filter is_exists_query evs = [].
Proof.
  intros H.
  destruct (upload_phase_extends _ _ _ _ _ _ H) as [evs [Ht Hall]].
  exists evs. split; [exact Ht|].
  unfold _upload_to_gcs, retry_with_backoff in H.
  change (range (3 + 1)) with (map Z.of_nat (seq 0 4)) in H.
  destruct (@retry_for_schedule E unit sdk 3 2 "_upload_to_gcs"
              (_upload_to_gcs_wrapped sdk stream object_name metadata)
              (upload_wrapped_only_requests sdk stream object_name metadata)
              4%nat 0%nat 1 None w w' r eq_refl H)
    as [evs' [Ht' [Hle [Hge Hs]]]].
  assert (evs' = evs) as ->
      by (eapply app_inv_head; rewrite <- Ht, <- Ht'; reflexivity).
  split; [split; [apply Hge; lia | exact Hle]|]. split; [exact Hs|].
  split.
  - eapply invocations_none; [|exact Hall]. simpl. intros f Hf.
    apply String.eqb_eq in Hf. now subst f.
  - eapply filter_none; [|exact Hall].
    intros ev Hev; destruct ev; simpl in *; congruence.
Qed.

End PhaseEvents.

(** X9.  When the existence check answers [False] and the decorated fetch
    raises, the fetch was called four times with sleeps of 1, 2 and 4
    seconds, the exception is the one of the fourth call, and no upload
    was requested.  [replicate] returns ["failed"]; its error is the
    message of that exception when it is an [S3DownloadError], and
    "Unexpected error: " followed by the quoted key when it is the
    [KeyError] of a [ClientError] without ['Error'] entry or ['Code']. *)
Theorem failed_fetch_used_whole_budget {E : Type} (sdk : SDK E)
        (s3_bucket s3_key : string) (w w1 w2 : World E) (e : exn) :
  _check_file_exists_in_gcs sdk (sanitize_gcs_object_name s3_key) (tick w)
  = (Ok false, w1) ->
  _download_from_s3 sdk s3_bucket s3_key w1 = (Raise e, w2) ->
  invocations "_download_from_s3" (new_events w1 w2) = 4%nat
  /\ sleeps (new_events w1 w2) = [1; 2; 4]
  /\ (exists w_last,
         call "_download_from_s3"
              (_download_from_s3_wrapped sdk s3_bucket s3_key) w_last
         = (Raise e, w2))
  /\ replicate sdk s3_bucket s3_key w
     = (Ok (failed_outcome (error_text e) (source_uri s3_bucket s3_key)
              (destination_uri (config (self w)) s3_key)
              (clock sdk (ticks w2) - clock sdk (ticks w))),
        tick w2)
  /\ ((exists message, e = S3DownloadError message /\ error_text e = message)
      \/ (e = KeyError "Error"
          /\ error_text e = "Unexpected error: 'Error'")
      \/ (e = KeyError "Code"
          /\ error_text e = "Unexpected error: 'Code'"))
  /\ filter is_upload_request (new_events w (tick w2)) = [].
Proof.
  intros Hcheck Hdl.
  pose proof Hdl as Hrun. unfold _download_from_s3, retry_with_backoff in Hrun.
  change (range (3 + 1)) with (map Z.of_nat (seq 0 4)) in Hrun.
  destruct (@retry_for_raises_last E BytesIO sdk 3 2 "_download_from_s3"
              (_download_from_s3_wrapped sdk s3_bucket s3_key)
              (download_wrapped_only_requests sdk s3_bucket s3_key)
              3%nat 0%nat 1 None w1 w2 e
              decorator_delays_sleepable eq_refl Hrun)
    as [w_last [evs [Hcall [Ht [Hi Hs]]]]].
  rewrite (new_events_app _ _ _ Ht).
  split; [exact Hi|]. split; [exact Hs|]. split; [now exists w_last|].
  split; [exact (@replicate_fetch_raises _ sdk _ _ _ _ _ _ Hcheck Hdl)|].
  split.
  - pose proof Hcall as Hc. unfold call in Hc.
    destruct (download_wrapped_raises _ _ _ _ _ _ Hc)
      as [[message ->] | [-> | ->]].
    + left. now exists message.
    + right. left. split; reflexivity.
    + right. right. split; reflexivity.
  - destruct (check_extends sdk _ _ _ _ Hcheck) as [evs_c [Hc Hc_all]].
    destruct (fetch_phase_events sdk _ _ _ _ _ Hdl)
      as [evs_f [Hf [_ [_ [_ [_ Hu]]]]]].
    simpl in Hc.
    rewrite (new_events_app w (tick w2) (evs_c ++ evs_f)%list).
    + rewrite filter_app, Hu, app_nil_r.
      eapply filter_none; [|exact Hc_all].
      intros ev Hev; destruct ev; simpl in *; congruence.
    + simpl. rewrite Hf, Hc, <- app_assoc. reflexivity.
Qed.

Lemma failed_fetch_used_whole_budget_witness :
  replicate failing_source_sdk "src" "/data/file.csv" example_world
  = (Ok (failed_outcome
           "S3 download failed: Please reduce your request rate."
           "s3://src//data/file.csv" "gs://test-bucket/data/file.csv" 1),
     snd (replicate failing_source_sdk "src" "/data/file.csv" example_world))
  /\ replicate codeless_sdk "src" "/data/file.csv" example_world
     = (Ok (failed_outcome
              "Unexpected error: 'Error'"
              "s3://src//data/file.csv" "gs://test-bucket/data/file.csv" 1),
        snd (replicate codeless_sdk "src" "/data/file.csv" example_world)).
Proof.
  split.
  - pose (w1 := snd (_check_file_exists_in_gcs failing_source_sdk
                       "data/file.csv" (tick example_world))).
    destruct (@failed_fetch_used_whole_budget nat failing_source_sdk
                "src" "/data/file.csv" example_world w1
                (snd (_download_from_s3 failing_source_sdk "src"
                        "/data/file.csv" w1))
                (S3DownloadError
                   "S3 download failed: Please reduce your request rate."))
      as [_ [_ [_ [Hrun _]]]].
    + vm_compute. reflexivity.
    + vm_compute. reflexivity.
    + rewrite Hrun. vm_compute. reflexivity.
  - pose (w1 := snd (_check_file_exists_in_gcs codeless_sdk
                       "data/file.csv" (tick example_world))).
    destruct (@failed_fetch_used_whole_budget nat codeless_sdk
                "src" "/data/file.csv" example_world w1
                (snd (_download_from_s3 codeless_sdk "src"
                        "/data/file.csv" w1))
                (KeyError "Error"))
      as [_ [_ [_ [Hrun _]]]].
    + vm_compute. reflexivity.
    + vm_compute. reflexivity.
    + rewrite Hrun. vm_compute. reflexivity.
Defined.

(** X10.  When the check answers [False], the fetch returns and the
    decorated write raises, the write was called four times with sleeps of
    1, 2 and 4 seconds, each call requested the upload of the whole
    buffer, and [replicate] returns ["failed"] with the text of the
    [GCSUploadError] of the fourth call: the bytes fetched are dropped. *)
Theorem failed_write_used_whole_budget {E : Type} (sdk : SDK E)
        (s3_bucket s3_key : string) (w w1 w2 w3 : World E)
        (stream : BytesIO) (e : exn) :
  _check_file_exists_in_gcs sdk (sanitize_gcs_object_name s3_key) (tick w)
  = (Ok false, w1) ->
  _download_from_s3 sdk s3_bucket s3_key w1 = (Ok stream, w2) ->
  _upload_to_gcs sdk stream (sanitize_gcs_object_name s3_key)
    (Some (transfer_metadata s3_bucket s3_key (clock sdk (ticks w2))))
    (tick w2) = (Raise e, w3) ->
  invocations "_upload_to_gcs" (new_events w2 w3) = 4%nat
  /\ sleeps (new_events w2 w3) = [1; 2; 4]
  /\ filter is_upload_request (new_events w2 w3)
     = repeat (UploadFromFile (sanitize_gcs_object_name s3_key)
                 (Some (transfer_metadata s3_bucket s3_key
                          (clock sdk (ticks w2))))
                 (buffer stream)) 4
  /\ (exists message, e = GCSUploadError message)
  /\ replicate sdk s3_bucket s3_key w
     = (Ok (failed_outcome (str e) (source_uri s3_bucket s3_key)
              (destination_uri (config (self w)) s3_key)
              (clock sdk (ticks w3) - clock sdk (ticks w))),
        tick w3).
Proof.
  intros Hcheck Hdl Hul.
  pose proof Hul as Hrun. unfold _upload_to_gcs, retry_with_backoff in Hrun.
  change (range (3 + 1)) with (map Z.of_nat (seq 0 4)) in Hrun.
  destruct (@retry_for_raises_last E unit sdk 3 2 "_upload_to_gcs" _
              (upload_wrapped_only_requests sdk stream
                 (sanitize_gcs_object_name s3_key)
                 (Some (transfer_metadata s3_bucket s3_key
                          (clock sdk (ticks w2)))))
              3%nat 0%nat 1 None (tick w2) w3 e
              decorator_delays_sleepable eq_refl Hrun)
    as [w_last [evs [Hcall [Ht [Hi Hs]]]]].
  assert (_target_bucket (self (tick w2)) <> None) as Hcached.
  { apply (download_frame sdk _ _ _ _ _ Hdl).
    eapply check_caches; exact Hcheck. }
  destruct (@upload_attempts_resend _ sdk _ _ _ _ _ _ _ _ _ _ _ Hcached Hrun)
    as [evs' [Ht' [Hu _]]].
  assert (evs' = evs) as ->
      by (eapply app_inv_head; rewrite <- Ht, <- Ht'; reflexivity).
  simpl in Ht. rewrite (new_events_app _ _ _ Ht).
  split; [exact Hi|]. split; [exact Hs|].
  split; [rewrite Hu, Hi; reflexivity|].
  unfold call in Hcall.
  destruct (upload_wrapped_raises_shape _ _ _ _ _ _ _ Hcall)
    as [message [-> _]].
  split; [now exists message|].
  exact (@replicate_write_raises _ sdk _ _ _ _ _ _ _ _ Hcheck Hdl Hul).
Qed.

Lemma failed_write_used_whole_budget_witness :
  replicate rejecting_sdk "src" "/data/file.csv" example_world
  = (Ok (failed_outcome "GCS upload failed: 429 Too Many Requests"
           "s3://src//data/file.csv" "gs://test-bucket/data/file.csv" 2),
     snd (replicate rejecting_sdk "src" "/data/file.csv" example_world)).
Proof.
  pose (w1 := snd (_check_file_exists_in_gcs rejecting_sdk
                     "data/file.csv" (tick example_world))).
  pose (w2 := snd (_download_from_s3 rejecting_sdk "src" "/data/file.csv"
                     w1)).
  pose (stream := {| buffer := example_bytes; position := 0 |}).
  destruct (@failed_write_used_whole_budget nat rejecting_sdk
              "src" "/data/file.csv" example_world w1 w2
              (snd (_upload_to_gcs rejecting_sdk stream "data/file.csv"
                      (Some (transfer_metadata "src" "/data/file.csv"
                               (clock rejecting_sdk (ticks w2))))
                      (tick w2)))
              stream
              (GCSUploadError "GCS upload failed: 429 Too Many Requests"))
    as [_ [_ [_ [_ Hrun]]]].
  - vm_compute. reflexivity.
  - vm_compute. reflexivity.
  - vm_compute. reflexivity.
  - rewrite Hrun. vm_compute. reflexivity.
Defined.

(** X11.  When the check answers [False] and the fetch returns, the write
    is called between one and four times in the run of [replicate], and
    every call requests the same upload: the whole buffer the fetch
    returned, read from position zero, under the derived object name, with
    the same metadata (source bucket, source key as given, one timestamp,
    version ["1.0.0"]). *)
Theorem retried_uploads_resend_everything {E : Type} (sdk : SDK E)
        (s3_bucket s3_key : string) (w w1 w2 w' : World E)
        (stream : BytesIO) (r : result dict) :
  _check_file_exists_in_gcs sdk (sanitize_gcs_object_name s3_key) (tick w)
  = (Ok false, w1) ->
  _download_from_s3 sdk s3_bucket s3_key w1 = (Ok stream, w2) ->
  replicate sdk s3_bucket s3_key w = (r, w') ->
  (1 <= invocations "_upload_to_gcs" (new_events w w') <= 4)%nat
  /\ filter is_upload_request (new_events w w')
     = repeat (UploadFromFile (sanitize_gcs_object_name s3_key)
                 (Some (transfer_metadata s3_bucket s3_key
                          (clock sdk (ticks w2))))
                 (buffer stream))
              (invocations "_upload_to_gcs" (new_events w w')).
Proof.
  intros Hcheck Hdl Hrun.
  destruct (_upload_to_gcs sdk stream (sanitize_gcs_object_name s3_key)
              (Some (transfer_metadata s3_bucket s3_key
                       (clock sdk (ticks w2)))) (tick w2))
    as [r3 w3] eqn:Hul.
  assert (w' = tick w3) as ->.
  { destruct r3 as [[]|e].
    - rewrite (@replicate_succeeds _ sdk _ _ _ _ _ _ _ Hcheck Hdl Hul)
        in Hrun. now inversion Hrun.
    - rewrite (@replicate_write_raises _ sdk _ _ _ _ _ _ _ _ Hcheck Hdl Hul)
        in Hrun. now inversion Hrun. }
  destruct (check_extends sdk _ _ _ _ Hcheck) as [evs_c [Hc Hc_all]].
  destruct (fetch_phase_events sdk _ _ _ _ _ Hdl)
    as [evs_f [Hf [_ [_ [Hf_calls [_ Hf_up]]]]]].
  destruct (write_phase_events sdk _ _ _ _ _ _ Hul)
    as [evs_u [Hu [Hu_calls _]]].
  assert (_target_bucket (self (tick w2)) <> None) as Hcached.
  { apply (download_frame sdk _ _ _ _ _ Hdl).
    eapply check_caches; exact Hcheck. }
  pose proof Hul as Hloop. unfold _upload_to_gcs, retry_with_backoff in Hloop.
  destruct (@upload_attempts_resend _ sdk _ _ _ _ _ _ _ _ _ _ _ Hcached Hloop)
    as [evs' [Ht' [Hsame _]]].
  assert (evs' = evs_u) as ->
      by (eapply app_inv_head; rewrite <- Hu, <- Ht'; reflexivity).
  simpl in Hc, Hu.
  rewrite (new_events_app w (tick w3) (evs_c ++ evs_f ++ evs_u)%list).
  2:{ simpl. rewrite Hu, Hf, Hc, <- !app_assoc. reflexivity. }
  destruct (check_events_have_no_calls "_upload_to_gcs" _ Hc_all)
    as [Hc_calls _].
  assert (filter is_upload_request evs_c = []) as Hc_up.
  { eapply filter_none; [|exact Hc_all].
    intros ev Hev; destruct ev; simpl in *; congruence. }
  rewrite !invocations_app, !filter_app, Hc_calls, Hf_calls, Hc_up, Hf_up.
  simpl. split; [exact Hu_calls | exact Hsame].
Qed.

Lemma retried_uploads_resend_everything_witness :
  filter is_upload_request
    (new_events example_world
       (snd (replicate rejecting_sdk "src" "/data/file.csv" example_world)))
  = repeat (UploadFromFile "data/file.csv"
              (Some (transfer_metadata "src" "/data/file.csv" 1))
              example_bytes) 4.
Proof.
  pose (w1 := snd (_check_file_exists_in_gcs rejecting_sdk
                     "data/file.csv" (tick example_world))).
  destruct (@retried_uploads_resend_everything nat rejecting_sdk
              "src" "/data/file.csv" example_world w1
              (snd (_download_from_s3 rejecting_sdk "src" "/data/file.csv"
                      w1))
              (snd (replicate rejecting_sdk "src" "/data/file.csv"
                      example_world))
              {| buffer := example_bytes; position := 0 |}
              (fst (replicate rejecting_sdk "src" "/data/file.csv"
                      example_world)))
    as [_ Hsame].
  - vm_compute. reflexivity.
  - vm_compute. reflexivity.
  - vm_compute. reflexivity.
  - rewrite Hsame. vm_compute. reflexivity.
Defined.

(** X12.  Whatever the environment does, one run of [replicate] sends at
    most one existence query, calls the fetch at most four times and the
    write at most four times, sleeps at most six times, and sleeps at most
    fourteen seconds in all. *)
Theorem replicate_effort_is_bounded {E : Type} (sdk : SDK E)
        (s3_bucket s3_key : string) (w w' : World E) (r : result dict) :
  replicate sdk s3_bucket s3_key w = (r, w') ->
  (List.length (filter is_exists_query (new_events w w')) <= 1)%nat
  /\ (invocations "_download_from_s3" (new_events w w') <= 4)%nat
  /\ (invocations "_upload_to_gcs" (new_events w w') <= 4)%nat
  /\ (List.length (sleeps (new_events w w')) <= 6)%nat
  /\ total_sleep (new_events w w') <= 14.
Proof.
  intros Hrun.
  destruct (replicate_phases sdk _ _ _ _ _ Hrun) as [r1 [w1 [Hcheck Hrest]]].
  destruct (check_queries_once sdk _ _ _ _ Hcheck)
    as [evs_c [Hc [Hc_q Hc_all]]].
  simpl in Hc.
  destruct (check_events_have_no_calls "_download_from_s3" _ Hc_all)
    as [Hc_d [_ Hc_s]].
  destruct (check_events_have_no_calls "_upload_to_gcs" _ Hc_all)
    as [Hc_u _].
  assert (total_sleep evs_c == 0) as Hc_t
      by (unfold total_sleep; rewrite Hc_s; reflexivity).
  destruct Hrest as [[_ ->] | [_ [r2 [w2 [Hdl Hrest]]]]].
  { rewrite (new_events_app w (tick w1) evs_c) by exact Hc.
    rewrite Hc_d, Hc_u, Hc_s, Hc_t. simpl.
    repeat split; try lia. discriminate. }
  destruct (fetch_phase_events sdk _ _ _ _ _ Hdl)
    as [evs_f [Hf [Hf_d [Hf_s [Hf_u [Hf_q _]]]]]].
  destruct (total_sleep_of_schedule evs_f _ (proj2 Hf_d) Hf_s)
    as [Hf_n Hf_t].
  destruct Hrest as [[e [_ ->]] | [stream [r3 [w3 [_ [Hul ->]]]]]].
  { rewrite (new_events_app w (tick w2) (evs_c ++ evs_f)%list)
      by (simpl; rewrite Hf, Hc, <- app_assoc; reflexivity).
    rewrite !invocations_app, filter_app, sleeps_app, !length_app,
      total_sleep_app, Hc_d, Hc_u, Hc_s, Hc_t, Hf_u, Hf_q.
    simpl. rewrite Qplus_0_l.
    repeat split; try lia.
    eapply Qle_trans; [exact Hf_t | discriminate]. }
  destruct (write_phase_events sdk _ _ _ _ _ _ Hul)
    as [evs_u [Hu [Hu_u [Hu_s [Hu_d Hu_q]]]]].
  destruct (total_sleep_of_schedule evs_u _ (proj2 Hu_u) Hu_s)
    as [Hu_n Hu_t].
  simpl in Hu.
  rewrite (new_events_app w (tick w3) (evs_c ++ evs_f ++ evs_u)%list)
    by (simpl; rewrite Hu, Hf, Hc, <- !app_assoc; reflexivity).
  rewrite !invocations_app, !filter_app, !sleeps_app, !length_app,
    !total_sleep_app, Hc_d, Hc_u, Hc_s, Hc_t, Hf_u, Hf_q, Hu_d, Hu_q.
  simpl. rewrite Qplus_0_l.
  repeat split; try lia.
  apply (Qplus_le_compat _ 7 _ 7); assumption.
Qed.

Lemma replicate_effort_is_bounded_witness :
  total_sleep
    (new_events example_world
       (snd (replicate rejecting_sdk "src" "/data/file.csv" example_world)))
  <= 14.
Proof.
  apply (@replicate_effort_is_bounded nat rejecting_sdk "src"
           "/data/file.csv" example_world
           (snd (replicate rejecting_sdk "src" "/data/file.csv"
                   example_world))
           (fst (replicate rejecting_sdk "src" "/data/file.csv"
                   example_world))).
  vm_compute. reflexivity.
Defined.

(* ================================================================== *)
(** * Further properties of object names *)

Lemma sanitize_app_slashes (n : nat) (k : string) :
  sanitize_gcs_object_name (slashes n ++ k) = sanitize_gcs_object_name k.
Proof.
  induction n as [|n IH]; [reflexivity|].
  simpl. rewrite sanitize_cons. simpl. exact IH.
Qed.

Lemma string_app_inv_head (p a b : string) : p ++ a = p ++ b -> a = b.
Proof.
  induction p as [|c p IH]; simpl; intros H; [exact H|].
  inversion H. auto.
Qed.

(** X13.  Two keys are replicated to the same destination object exactly
    when they differ in their leading slashes only. *)
Theorem keys_collide_on_leading_slashes (cfg : Config) (k1 k2 : string) :
  destination_uri cfg k1 = destination_uri cfg k2
  <-> exists n1 n2 rest,
        k1 = slashes n1 ++ rest /\ k2 = slashes n2 ++ rest.
Proof.
  unfold destination_uri. split.
  - intros H. apply string_app_inv_head in H.
    apply string_app_inv_head in H. apply string_app_inv_head in H.
    destruct (sanitize_prefix k1) as [n1 H1].
    destruct (sanitize_prefix k2) as [n2 H2].
    exists n1, n2, (sanitize_gcs_object_name k1).
    split; [exact H1 | rewrite H; exact H2].
  - intros [n1 [n2 [rest [-> ->]]]].
    now rewrite !sanitize_app_slashes.
Qed.

(* ================================================================== *)
(** * Properties of the configuration *)

(** What [validate] answers, by cases on the three fields. *)
Lemma validate_by_cases (cfg : Config) :
  validate cfg
  = match missing_fields cfg with
    | [] => Ok tt
    | _ :: _ =>
        Raise (ValueError ("Missing required configuration: "
                             ++ String.concat ", " (missing_fields cfg)))
    end.
Proof.
  unfold validate, missing_fields.
  destruct (aws_access_key_id cfg), (aws_secret_access_key cfg),
    (target_gcs_bucket cfg); reflexivity.
Qed.

Lemma missing_fields_nil (cfg : Config) :
  missing_fields cfg = []
  <-> aws_access_key_id cfg <> ""
      /\ aws_secret_access_key cfg <> ""
      /\ target_gcs_bucket cfg <> "".
Proof.
  unfold missing_fields.
  destruct (aws_access_key_id cfg), (aws_secret_access_key cfg),
    (target_gcs_bucket cfg); cbn [is_empty app]; split;
    try discriminate; try (intros [H1 [H2 H3]]; congruence);
    intros _; repeat split; discriminate.
Qed.

(** X14.  [validate] accepts a configuration exactly when its access key,
    secret key and target bucket are not empty: it looks at nothing else
    (region, project, retry parameters, chunk size).  When it refuses, it
    raises [ValueError] whose message is "Missing required
    configuration: " followed by the names of the empty fields, each
    once, in the order access key, secret key, target bucket, separated
    by a comma and a space. *)
Theorem validate_checks_three_fields (cfg : Config) :
  (validate cfg = Ok tt
   <-> aws_access_key_id cfg <> ""
       /\ aws_secret_access_key cfg <> ""
       /\ target_gcs_bucket cfg <> "")
  /\ (forall e,
         validate cfg = Raise e ->
         e = ValueError
               ("Missing required configuration: "
                  ++ String.concat ", "
                       ((if is_empty (aws_access_key_id cfg)
                         then ["aws_access_key_id"] else [])
                        ++ (if is_empty (aws_secret_access_key cfg)
                            then ["aws_secret_access_key"] else [])
                        ++ (if is_empty (target_gcs_bucket cfg)
                            then ["target_gcs_bucket"] else []))%list))
  /\ (aws_access_key_id cfg = "" ->
      aws_secret_access_key cfg = "" ->
      target_gcs_bucket cfg = "" ->
      validate cfg
      = Raise (ValueError
                 ("Missing required configuration: "
                    ++ "aws_access_key_id, aws_secret_access_key, "
                    ++ "target_gcs_bucket"))).
Proof.
  rewrite validate_by_cases. split; [|split].
  - rewrite <- missing_fields_nil.
    destruct (missing_fields cfg); split; congruence.
  - intros e H. change (_ ++ _ ++ _)%list with (missing_fields cfg).
    destruct (missing_fields cfg); [discriminate H|]. now inversion H.
  - intros H1 H2 H3. unfold missing_fields. rewrite H1, H2, H3. reflexivity.
Qed.

Lemma validate_checks_three_fields_witness : validate test_config = Ok tt.
Proof.
  apply (proj1 (validate_checks_three_fields test_config)).
  repeat split; discriminate.
Defined.

(** X15.  [create_app], given a configuration, returns an application
    exactly when the three required fields are not empty, and its
    replicator then holds that configuration and no client or bucket
    handle.  Otherwise [validate] has raised [ValueError], and
    [create_app] raises [ConfigurationError] whose text is "Invalid
    configuration: " followed by the message of that [ValueError], which
    lists the empty fields.  A configuration read from the environment is
    treated like a given one, and an exception of [Config.from_env] is not
    converted. *)
Theorem create_app_requires_valid_configuration (from_env : result Config)
        (cfg : Config) :
  (forall app,
      create_app from_env (Some cfg) = Ok app
      <-> (aws_access_key_id cfg <> ""
           /\ aws_secret_access_key cfg <> ""
           /\ target_gcs_bucket cfg <> "")
          /\ app = new_replicator cfg)
  /\ (forall e,
         create_app from_env (Some cfg) = Raise e ->
         exists message,
           validate cfg = Raise (ValueError message)
           /\ e = ConfigurationError ("Invalid configuration: " ++ message)
           /\ message = "Missing required configuration: "
                          ++ String.concat ", " (missing_fields cfg)
           /\ missing_fields cfg <> [])
  /\ create_app (Ok cfg) None = create_app from_env (Some cfg)
  /\ (forall e, create_app (Raise e) None = Raise e).
Proof.
  unfold create_app. rewrite validate_by_cases.
  pose proof (missing_fields_nil cfg) as Hnil.
  destruct (missing_fields cfg) as [|name rest].
  - split; [|split; [discriminate | split; reflexivity]].
    intros app. split.
    + intros H. inversion H. split; [now apply Hnil | reflexivity].
    + intros [_ ->]. reflexivity.
  - cbn [is_ValueError str]. split; [|split; [|split; reflexivity]].
    + intros app. split; [discriminate|].
      intros [Hfields _]. apply Hnil in Hfields. discriminate Hfields.
    + intros e H. inversion H. eexists. split; [reflexivity|].
      split; [reflexivity|]. split; [reflexivity | discriminate].
Qed.

Lemma create_app_requires_valid_configuration_witness :
  create_app (Raise (ValueError "invalid literal for int() with base 10"))
             (Some test_config)
  = Ok (new_replicator test_config).
Proof.
  apply (proj1 (create_app_requires_valid_configuration
                  (Raise (ValueError "invalid literal for int() with base 10"))
                  test_config)).
  split; [repeat split; discriminate | reflexivity].
Defined.

(* ================================================================== *)
(** * Properties of the HTTP endpoint *)

Section Endpoint.

Context {E : Type}.
Variable sdk : SDK E.

(** The status code the endpoint gives to an outcome. *)
Lemma endpoint_on_outcome (s3_bucket s3_key : string) (w w1 : World E)
      (o : dict) :
  replicate sdk (strip s3_bucket) (strip s3_key) w = (Ok o, w1) ->
  outcome_shape o ->
  exists code,
    replicate_endpoint sdk
      {| is_json := true; load := Loaded s3_bucket s3_key |} w
    = (Ok ((o ++ [("timestamp",
                   VInt (int_of_float (clock sdk (ticks w1))))])%list,
           code),
       tick w1)
    /\ ((code = 200%Z
         /\ (status o = Some (VStr "success")
             \/ status o = Some (VStr "skipped")))
        \/ (code = 500%Z /\ status o = Some (VStr "failed"))).
Proof.
  intros Hrun Hshape.
  unfold replicate_endpoint, try_except, bind. cbn [is_json load negb].
  rewrite Hrun. unfold timestamp, bind, time_time, ret.
  destruct Hshape; cbn.
  - exists 200%Z. split; [reflexivity|]. left. split; [reflexivity|].
    now right.
  - exists 200%Z. split; [reflexivity|]. left. split; [reflexivity|].
    now left.
  - exists 500%Z. split; [reflexivity|]. right. now split.
Qed.

End Endpoint.

(** X16.  For a request that the schema loads, the endpoint calls
    [replicate] on the bucket and key stripped of surrounding whitespace,
    and answers with the outcome of the engine, a ["timestamp"] added at
    its end: status code 200 when the outcome is ["success"] or
    ["skipped"], 500 when it is ["failed"].  It never answers such a
    request with the generic "internal_server_error" body. *)
Theorem endpoint_reports_engine_outcome {E : Type} (sdk : SDK E)
        (s3_bucket s3_key : string) (w : World E) :
  exists o w1 code,
    replicate sdk (strip s3_bucket) (strip s3_key) w = (Ok o, w1)
    /\ replicate_endpoint sdk
         {| is_json := true; load := Loaded s3_bucket s3_key |} w
       = (Ok ((o ++ [("timestamp",
                      VInt (int_of_float (clock sdk (ticks w1))))])%list,
              code),
          tick w1)
    /\ ((code = 200%Z
         /\ (status o = Some (VStr "success")
             \/ status o = Some (VStr "skipped")))
        \/ (code = 500%Z /\ status o = Some (VStr "failed"))).
Proof.
  destruct (replicate_returns sdk (strip s3_bucket) (strip s3_key) w)
    as [o [w1 [Hrun Hshape]]].
  destruct (endpoint_on_outcome sdk _ _ _ _ _ Hrun Hshape)
    as [code [Hend Hcode]].
  exists o, w1, code. now repeat split.
Qed.

(** X17.  Whatever the request and whatever the environment does, the
    endpoint raises nothing: it answers with status code 200, 400 or 500
    and a body that carries an integer ["timestamp"]. *)
Theorem endpoint_never_raises {E : Type} (sdk : SDK E) (request : Request)
        (w : World E) :
  exists body code w',
    replicate_endpoint sdk request w = (Ok (body, code), w')
    /\ (code = 200%Z \/ code = 400%Z \/ code = 500%Z)
    /\ exists t, dict_get "timestamp" body = Some (VInt t).
Proof.
  destruct request as [[|] [s3_bucket s3_key|messages|e]].
  - destruct (replicate_returns sdk (strip s3_bucket) (strip s3_key) w)
      as [o [w1 [Hrun Hshape]]].
    destruct (endpoint_on_outcome sdk _ _ _ _ _ Hrun Hshape)
    as [code [Hend Hcode]].
    eexists; eexists; eexists. split; [exact Hend|]. split.
    + destruct Hcode as [[-> _]|[-> _]]; auto.
    + destruct Hshape; cbn; eauto.
  - eexists; eexists; eexists. split; [reflexivity|]. split; [auto|].
    cbn. eauto.
  - eexists; eexists; eexists. split; [reflexivity|]. split; [auto|].
    cbn. eauto.
  - eexists; eexists; eexists. split; [reflexivity|]. split; [auto|].
    cbn. eauto.
  - eexists; eexists; eexists. split; [reflexivity|]. split; [auto|].
    cbn. eauto.
  - eexists; eexists; eexists. split; [reflexivity|]. split; [auto|].
    cbn. eauto.
Qed.

(** X18.  A request that is not loaded never reaches the engine: without
    a JSON content type the answer is 400 "invalid_content_type", whatever
    the body; with a body the schema rejects it is 400 "validation_error"
    with the messages of the schema; when loading raises anything else it
    is 500 "internal_server_error".  In the three cases the replicator and
    the environment are left as they were and nothing is requested. *)
Theorem unloaded_request_never_reaches_engine {E : Type} (sdk : SDK E)
        (request : Request) (w : World E) :
  is_json request = false
  \/ (exists messages, load request = Rejected messages)
  \/ (exists e, load request = LoadError e) ->
  exists body code w',
    replicate_endpoint sdk request w = (Ok (body, code), w')
    /\ new_events w w' = []
    /\ self w' = self w
    /\ env w' = env w
    /\ dict_get "error" body
       = Some (VStr (if negb (is_json request) then "invalid_content_type"
                     else match load request with
                          | Rejected _ => "validation_error"
                          | _ => "internal_server_error"
                          end))
    /\ code = (if negb (is_json request) then 400
               else match load request with
                    | Rejected _ => 400
                    | _ => 500
                    end)%Z
    /\ (forall messages,
           is_json request = true -> load request = Rejected messages ->
           dict_get "details" body = Some messages).
Proof.
  intros H.
  assert (forall w' : World E, trace w' = trace w -> new_events w w' = [])
    as Hnone.
  { intros w' Ht. apply new_events_app. now rewrite app_nil_r. }
  destruct request as [[|] [s3_bucket s3_key|messages|e]]; cbn in H.
  - destruct H as [H|[[m H]|[e H]]]; discriminate H.
  - eexists; eexists; eexists. split; [reflexivity|].
    repeat split; try (apply Hnone; reflexivity).
    intros m _ Hm. inversion Hm. reflexivity.
  - eexists; eexists; eexists. split; [reflexivity|].
    repeat split; try (apply Hnone; reflexivity). discriminate.
  - eexists; eexists; eexists. split; [reflexivity|].
    repeat split; try (apply Hnone; reflexivity). discriminate.
  - eexists; eexists; eexists. split; [reflexivity|].
    repeat split; try (apply Hnone; reflexivity). discriminate.
  - eexists; eexists; eexists. split; [reflexivity|].
    repeat split; try (apply Hnone; reflexivity). discriminate.
Qed.

Lemma unloaded_request_never_reaches_engine_witness :
  exists body code w',
    replicate_endpoint absent_sdk
      {| is_json := true; load := Rejected (VStr "s3_key: Invalid value.") |}
      example_world = (Ok (body, code), w')
    /\ new_events example_world w' = []
    /\ code = 400%Z.
Proof.
  destruct (@unloaded_request_never_reaches_engine nat absent_sdk
              {| is_json := true;
                 load := Rejected (VStr "s3_key: Invalid value.") |}
              example_world)
    as [body [code [w' [Hrun [Hnone [_ [_ [_ [Hcode _]]]]]]]]].
  - right. left. now exists (VStr "s3_key: Invalid value.").
  - exists body, code, w'. repeat split; assumption.
Defined.

(* ------------------------------------------------------------------ *)
(** ** Trimming *)

Section Stripping.

Variable chars : string.

Lemma lstrip_head (s : string) (c : ascii) (rest : string) :
  lstrip chars s = String c rest -> mem_char c chars = false.
Proof.
  induction s as [|a s IH]; simpl; [discriminate|].
  destruct (mem_char a chars) eqn:Ha; [exact IH|].
  intros H. inversion H; subst. exact Ha.
Qed.

Lemma lstrip_suffix (s : string) :
  exists l, s = l ++ lstrip chars s /\ lstrip chars l = "".
Proof.
  induction s as [|a s [l [Hs Hl]]]; [now exists ""|]. simpl.
  destruct (mem_char a chars) eqn:Ha.
  - exists (String a l). simpl. rewrite Ha, <- Hs. now split.
  - now exists "".
Qed.

Lemma lstrip_fixed (s : string) :
  (forall c rest, s = String c rest -> mem_char c chars = false) ->
  lstrip chars s = s.
Proof.
  destruct s as [|a s]; [reflexivity|]. intros H. simpl.
  now rewrite (H a s eq_refl).
Qed.

Lemma rstrip_prefix (s : string) :
  exists r, s = rstrip chars s ++ r /\ rstrip chars r = "".
Proof.
  induction s as [|a s [r [Hs Hr]]]; [now exists ""|]. simpl.
  destruct (rstrip chars s) as [|x kept] eqn:Hk.
  - simpl in Hs. subst r. destruct (mem_char a chars) eqn:Ha.
    + exists (String a s). split; [reflexivity|]. simpl. now rewrite Hr, Ha.
    + exists s. now split.
  - exists r. split; [|exact Hr]. simpl. simpl in Hs. now rewrite <- Hs.
Qed.

Lemma rstrip_last (s : string) :
  forall body c,
    rstrip chars s = body ++ String c "" -> mem_char c chars = false.
Proof.
  induction s as [|a s IH]; intros body c; simpl.
  - destruct body; discriminate.
  - destruct (rstrip chars s) as [|x kept] eqn:Hk.
    + destruct (mem_char a chars) eqn:Ha.
      * destruct body; discriminate.
      * destruct body as [|b body]; simpl; intros H; inversion H.
        -- subst. exact Ha.
        -- destruct body; discriminate.
    + destruct body as [|b body]; simpl; intros H; inversion H.
      apply (IH body c). assumption.
Qed.

Lemma rstrip_idempotent (s : string) :
  rstrip chars (rstrip chars s) = rstrip chars s.
Proof.
  induction s as [|a s IH]; [reflexivity|]. simpl.
  destruct (rstrip chars s) as [|x kept] eqn:Hk.
  - destruct (mem_char a chars) eqn:Ha; [reflexivity|].
    simpl. now rewrite Ha.
  - change (rstrip chars (String a (String x kept)))
      with (match rstrip chars (String x kept) with
            | "" => if mem_char a chars then "" else String a ""
            | String _ _ as t => String a t
            end).
    now rewrite IH.
Qed.

End Stripping.

(** X19.  [strip] removes whitespace at both ends and nothing else: the
    string is some whitespace, then its [strip], then some whitespace; the
    [strip] neither starts nor ends with a whitespace character; and
    stripping twice is stripping once. *)
Theorem strip_trims_both_ends (s : string) :
  (exists l r,
      s = l ++ strip s ++ r
      /\ lstrip whitespace l = "" /\ rstrip whitespace r = "")
  /\ (forall c rest,
         strip s = String c rest -> mem_char c whitespace = false)
  /\ (forall body c,
         strip s = body ++ String c "" -> mem_char c whitespace = false)
  /\ strip (strip s) = strip s.
Proof.
  unfold strip.
  assert (forall c rest,
             rstrip whitespace (lstrip whitespace s) = String c rest ->
             mem_char c whitespace = false) as Hhead.
  { intros c rest H.
    destruct (rstrip_prefix whitespace (lstrip whitespace s)) as [r [Hs _]].
    rewrite H in Hs. simpl in Hs. eapply lstrip_head. exact Hs. }
  split; [|split; [exact Hhead | split]].
  - destruct (lstrip_suffix whitespace s) as [l [Hs Hl]].
    destruct (rstrip_prefix whitespace (lstrip whitespace s)) as [r [Hk Hr]].
    exists l, r. split; [|now split]. now rewrite <- Hk.
  - intros body c. apply rstrip_last.
  - rewrite (lstrip_fixed whitespace _ Hhead). apply rstrip_idempotent.
Qed.

(* ================================================================== *)
(** * Reuse of the client handles *)

Section Reuse.

Context {E : Type}.
Variable sdk : SDK E.

Lemma reuses_handles_refl (w : World E) : reuses_handles w w.
Proof. intros _. split; [reflexivity | apply extends_refl]. Qed.

Lemma reuses_handles_trans (w1 w2 w3 : World E) :
  reuses_handles w1 w2 -> reuses_handles w2 w3 -> reuses_handles w1 w3.
Proof.
  intros H12 H23 Hc. destruct (H12 Hc) as [S12 X12].
  rewrite <- S12 in Hc. destruct (H23 Hc) as [S23 X23].
  split; [congruence | eapply extends_trans; eassumption].
Qed.

Lemma reuses_handles_log (ev : event) (w : World E) :
  negb (is_handle_request ev) = true -> reuses_handles w (log ev w).
Proof. intros Hev _. split; [reflexivity | now apply extends_log]. Qed.

Lemma reuses_handles_env (s : E) (w : World E) :
  reuses_handles w (set_env s w).
Proof.
  intros _. split; [reflexivity | apply extends_same_trace; reflexivity].
Qed.

Lemma reuses_handles_tick (w : World E) : reuses_handles w (tick w).
Proof.
  intros _. split; [reflexivity | apply extends_same_trace; reflexivity].
Qed.

Lemma s3_client_when_cached (w : World E) (c : S3Client) :
  _s3_client (self w) = Some c -> s3_client sdk w = (Ok c, w).
Proof.
  intros Hc. unfold s3_client, bind, get_self. rewrite Hc. reflexivity.
Qed.

Lemma s3_client_reuses : respects reuses_handles (s3_client sdk).
Proof.
  intros w r w' H [Hs3 _].
  destruct (_s3_client (self w)) as [c|] eqn:Hc; [|congruence].
  rewrite (s3_client_when_cached w c Hc) in H. inversion H.
  split; [reflexivity | apply extends_refl].
Qed.

Lemma target_bucket_reuses : respects reuses_handles (target_bucket sdk).
Proof.
  intros w r w' H [_ Hb].
  destruct (_target_bucket (self w)) as [b|] eqn:Hc; [|congruence].
  rewrite (target_bucket_when_cached sdk w b Hc) in H. inversion H.
  split; [reflexivity | apply extends_refl].
Qed.

Lemma request_reuses {A : Type} (ev : event) (op : E -> result A * E) :
  negb (is_handle_request ev) = true ->
  respects reuses_handles (request ev op).
Proof.
  intros Hev w r w' H. unfold request in H.
  destruct (op (env (log ev w))) as [r1 s1]. inversion H; subst.
  eapply reuses_handles_trans;
    [apply reuses_handles_log; exact Hev | apply reuses_handles_env].
Qed.

Lemma bind_reuses {A B : Type} (m : M E A) (k : A -> M E B) :
  respects reuses_handles m -> (forall a, respects reuses_handles (k a)) ->
  respects reuses_handles (bind m k).
Proof.
  intros Hm Hk w r w' H. unfold bind in H.
  destruct (m w) as [[a|e] w1] eqn:Em.
  - eapply reuses_handles_trans; [eapply Hm | eapply Hk]; eassumption.
  - inversion H; subst. eapply Hm; eassumption.
Qed.

Lemma raising_handlers_reuse {A : Type} (body : M E A)
      (clauses : list (clause E A)) :
  respects reuses_handles body ->
  (forall e w r w', dispatch clauses e w = (r, w') -> w' = w) ->
  respects reuses_handles (try_except body clauses).
Proof.
  intros Hb Hc w r w' H. unfold try_except in H.
  destruct (body w) as [[a|e] w1] eqn:Eb.
  - inversion H; subst. eapply Hb; eassumption.
  - apply Hc in H. subst w'. eapply Hb; eassumption.
Qed.

Lemma check_reuses (object_name : string) :
  respects reuses_handles (_check_file_exists_in_gcs sdk object_name).
Proof.
  unfold _check_file_exists_in_gcs. apply raising_handlers_reuse.
  - apply bind_reuses; [apply target_bucket_reuses|]. intros _.
    now apply request_reuses.
  - intros e w r w'. simpl. destruct (is_GoogleCloudError e);
      intros H; now inversion H.
Qed.

Lemma download_wrapped_reuses (bucket key : string) :
  respects reuses_handles (_download_from_s3_wrapped sdk bucket key).
Proof.
  unfold _download_from_s3_wrapped. apply raising_handlers_reuse.
  - apply bind_reuses; [apply s3_client_reuses|]. intros _.
    apply bind_reuses; [now apply request_reuses|]. intros _.
    apply bind_reuses; [apply s3_client_reuses|]. intros _.
    apply bind_reuses; [now apply request_reuses|]. intros body.
    intros w r w' H. unfold bind, get_self, lift, ret in H.
    destruct (read_chunks (chunk_size (config (self w))) body BytesIO_new);
      inversion H; apply reuses_handles_refl.
  - intros e w r w'. cbn [dispatch]. unfold raise, bind, lift.
    destruct (is_ClientError e).
    + destruct (error_code e) as [code|e1]; [|intros H; now inversion H].
      destruct (String.eqb code "NoSuchKey"); [intros H; now inversion H|].
      destruct (String.eqb code "NoSuchBucket"); intros H; now inversion H.
    + cbn [is_Exception]. intros H; now inversion H.
Qed.

Lemma upload_wrapped_reuses (stream : BytesIO) (object_name : string)
      (metadata : option (list (string * string))) :
  respects reuses_handles
           (_upload_to_gcs_wrapped sdk stream object_name metadata).
Proof.
  unfold _upload_to_gcs_wrapped. apply raising_handlers_reuse.
  - apply bind_reuses; [apply target_bucket_reuses|]. intros _.
    now apply request_reuses.
  - intros e w r w'. cbn [dispatch]. unfold raise.
    destruct (is_GoogleCloudError e); cbn [is_Exception];
      intros H; now inversion H.
Qed.

Lemma decorated_reuses {A : Type} (fname : string) (func : M E A) :
  respects reuses_handles func ->
  respects reuses_handles (retry_with_backoff sdk 3 1 2 fname func).
Proof.
  intros Hf.
  eapply (@respects_retry_with_backoff E sdk reuses_handles
            (fun ev => negb (is_handle_request ev)));
    try reflexivity; try exact Hf.
  - apply reuses_handles_refl.
  - apply reuses_handles_trans.
  - apply reuses_handles_log.
  - apply reuses_handles_env.
Qed.

End Reuse.

(** X20.  Once the source client and the destination bucket handle are
    built, a run of [replicate] builds nothing again: it requests no
    client and no bucket handle, and it leaves the replicator object, its
    configuration and its handles, exactly as it was. *)
Theorem built_handles_are_reused {E : Type} (sdk : SDK E)
        (s3_bucket s3_key : string) (w w' : World E) (r : result dict) :
  handles_cached (self w) ->
  replicate sdk s3_bucket s3_key w = (r, w') ->
  self w' = self w
  /\ filter is_handle_request (new_events w w') = [].
Proof.
  intros Hcached Hrun.
  assert (reuses_handles w w') as Hreuse.
  { destruct (replicate_phases sdk _ _ _ _ _ Hrun)
      as [r1 [w1 [Hcheck Hrest]]].
    pose proof (check_reuses sdk _ _ _ _ Hcheck) as H1.
    eapply reuses_handles_trans; [apply reuses_handles_tick|].
    eapply reuses_handles_trans; [exact H1|].
    destruct Hrest as [[_ ->] | [_ [r2 [w2 [Hdl Hrest]]]]];
      [apply reuses_handles_tick|].
    pose proof (@decorated_reuses _ sdk _ _ _
                  (download_wrapped_reuses sdk s3_bucket s3_key)
                  _ _ _ Hdl) as H2.
    eapply reuses_handles_trans; [exact H2|].
    destruct Hrest as [[e [_ ->]] | [stream [r3 [w3 [_ [Hul ->]]]]]];
      [apply reuses_handles_tick|].
    eapply reuses_handles_trans; [apply reuses_handles_tick|].
    eapply reuses_handles_trans; [|apply reuses_handles_tick].
    exact (@decorated_reuses _ sdk _ _ _ (upload_wrapped_reuses sdk _ _ _)
             _ _ _ Hul). }
  destruct (Hreuse Hcached) as [Hself [evs [Ht Hall]]].
  split; [exact Hself|].
  rewrite (new_events_app _ _ _ Ht).
  eapply filter_none; [|exact Hall]. intros ev Hev.
  now apply negb_true_iff in Hev.
Qed.

Lemma built_handles_are_reused_witness :
  filter is_handle_request
    (new_events
       (snd (replicate absent_sdk "src" "/data/file.csv" example_world))
       (snd (replicate absent_sdk "src" "/other.csv"
               (snd (replicate absent_sdk "src" "/data/file.csv"
                       example_world))))) = [].
Proof.
  apply (@built_handles_are_reused nat absent_sdk "src" "/other.csv"
           (snd (replicate absent_sdk "src" "/data/file.csv" example_world))
           (snd (replicate absent_sdk "src" "/other.csv"
                   (snd (replicate absent_sdk "src" "/data/file.csv"
                           example_world))))
           (fst (replicate absent_sdk "src" "/other.csv"
                   (snd (replicate absent_sdk "src" "/data/file.csv"
                           example_world))))).
  - split; vm_compute; discriminate.
  - vm_compute. reflexivity.
Defined.
